(** * Grievance cell: SLA derivation, lifecycle handlers and analytics

    A shallow embedding of the server side of the grievance tracker:
    - [routes.ts]: [calculateSlaDeadline], [getAutoPriority],
      [generateTrackingId] and the handlers that [registerRoutes] installs
      for submitting a grievance, changing its status or priority and
      commenting on it;
    - [DatabaseStorage], the implementation of [IStorage] that
      [createStorage] returns when a database is configured, over the
      tables, enum types and constraints declared in [schema.ts];
    - its aggregates [getDashboardStats] and [getAnalytics].

    Time is a number of milliseconds since the epoch (what [Date.getTime]
    returns).  The sources of non-determinism of the program, the clock,
    [nanoid] and the UUID generator, are oracles carried by the [World];
    each call consumes the next answer. *)

From Stdlib Require Import ZArith QArith Qround Qabs Qpower List Sorted Ascii.
From Stdlib Require Import String Lia Lqa.
From stdpp Require Import gmap strings list fin_maps.

Local Open Scope Z_scope.
Local Open Scope string_scope.

(* ===================================================================== *)
(** * A fragment of JavaScript *)
(* ===================================================================== *)

Module Js.

(** What a property read [obj[key]] on an object literal can produce
    when the own properties of the literal hold primitives of type [A]:
    an own primitive, a member found further up on [Object.prototype]
    (a built-in function, or the prototype object itself for
    [__proto__]), or [undefined]. *)
Inductive value (A : Type) : Type :=
| Prim (a : A)
| Builtin (name : string)
| Undefined.
Arguments Prim {A} a.
Arguments Builtin {A} name.
Arguments Undefined {A}.

(** The property names of [Object.prototype]. *)
Definition ObjectPrototype : list string :=
  [ "constructor"; "__defineGetter__"; "__defineSetter__";
    "hasOwnProperty"; "__lookupGetter__"; "__lookupSetter__";
    "isPrototypeOf"; "propertyIsEnumerable"; "toString"; "valueOf";
    "__proto__"; "toLocaleString" ].

Definition inherited (key : string) : bool :=
  existsb (String.eqb key) ObjectPrototype.

(** Own properties of a literal, in the order they are written. *)
Fixpoint own {A} (literal : list (string * A)) (key : string) : option A :=
  match literal with
  | [] => None
  | (k, v) :: rest => if String.eqb k key then Some v else own rest key
  end.

(** [literal[key]]: own properties first, then the prototype chain. *)
Definition get {A} (literal : list (string * A)) (key : string) : value A :=
  match own literal key with
  | Some v => Prim v
  | None => if inherited key then Builtin key else Undefined
  end.

(** Truthiness of strings and of (integral) numbers. *)
Definition truthy_string (s : string) : bool := negb (String.eqb s "").
Definition truthy_number (n : Z) : bool := negb (n =? 0)%Z.

(** [v || d] for a primitive default [d]: objects and functions are
    truthy, [undefined] is falsy. *)
Definition or_default {A} (truthy : A -> bool) (v : value A) (d : A) : value A :=
  match v with
  | Prim a => if truthy a then Prim a else Prim d
  | Builtin name => Builtin name
  | Undefined => Prim d
  end.

(** [String(v)], as used when a value serves as a property key.  A
    built-in function prints as its source text, the prototype object as
    [[object Object]]. *)
Definition to_string (v : value string) : string :=
  match v with
  | Prim s => s
  | Builtin name =>
      if String.eqb name "__proto__" then "[object Object]"
      else if String.eqb name "constructor"
           then "function Object() { [native code] }"
           else String.append "function " (String.append name "() { [native code] }")
  | Undefined => "undefined"
  end.

(** Numbers, as far as the deadline arithmetic needs them: an integer
    (every intermediate result stays far below 2^53, where doubles are
    exact) or [NaN]. *)
Inductive number : Type :=
| Int (n : Z)
| NaN.

(** [Number(v)]: functions and plain objects convert to [NaN], and so
    does [undefined]. *)
Definition to_number (v : value Z) : number :=
  match v with
  | Prim n => Int n
  | Builtin _ => NaN
  | Undefined => NaN
  end.

Definition mul (a b : number) : number :=
  match a, b with
  | Int x, Int y => Int (x * y)
  | _, _ => NaN
  end.

Definition add (a b : number) : number :=
  match a, b with
  | Int x, Int y => Int (x + y)
  | _, _ => NaN
  end.

(** A [Date] object: a time value in milliseconds, or an Invalid Date.
    The wall clock is far inside the range of valid time values, so
    only [NaN] makes a date invalid here. *)
Inductive Date : Type :=
| DateMs (ms : Z)
| InvalidDate.

(** [new Date(n)] *)
Definition newDateOf (n : number) : Date :=
  match n with
  | Int ms => DateMs ms
  | NaN => InvalidDate
  end.

(** [Array.prototype.includes] on an array of strings. *)
Definition includes (arr : list string) (s : string) : bool :=
  existsb (String.eqb s) arr.

(** [String.prototype.toUpperCase] on the ASCII letters. *)
Definition upper_ascii (c : ascii) : ascii :=
  let n := nat_of_ascii c in
  if ((97 <=? n) && (n <=? 122))%nat then ascii_of_nat (n - 32) else c.

Fixpoint toUpperCase (s : string) : string :=
  match s with
  | EmptyString => EmptyString
  | String c rest => String (upper_ascii c) (toUpperCase rest)
  end.

End Js.

(* ===================================================================== *)
(** * The helpers of routes.ts *)
(* ===================================================================== *)

Definition hour_ms : Z := 60 * 60 * 1000.

(** The literal indexed by [calculateSlaDeadline]. *)
Definition slaHours : list (string * Z) :=
  [ ("critical", 24); ("high", 48); ("medium", 72); ("low", 120) ].

(** The body of [calculateSlaDeadline] once [now] has been read:
    [hours = {...}[priority] || 72] and
    [new Date(now.getTime() + hours * 60 * 60 * 1000)].  The argument is
    whatever the caller passes, converted to a property key. *)
Definition slaDeadlineFrom (now : Z) (priority : Js.value string) : Js.Date :=
  let hours := Js.or_default Js.truthy_number
                 (Js.get slaHours (Js.to_string priority)) 72 in
  Js.newDateOf
    (Js.add (Js.Int now)
       (Js.mul (Js.mul (Js.mul (Js.to_number hours) (Js.Int 60)) (Js.Int 60))
          (Js.Int 1000))).

(** The literal [priorityMap] of [getAutoPriority]. *)
Definition priorityMap : list (string * string) :=
  [ ("urgent", "critical"); ("academic", "high");
    ("infrastructure", "medium"); ("administrative", "low") ].

(** [getAutoPriority]: [priorityMap[category] || "medium"]. *)
Definition getAutoPriority (category : string) : Js.value string :=
  Js.or_default Js.truthy_string (Js.get priorityMap category) "medium".

(** The enumerations of schema.ts. *)
Definition userRoleEnum : list string :=
  [ "student"; "faculty"; "staff"; "administrator" ].
Definition grievanceCategoryEnum : list string :=
  [ "academic"; "infrastructure"; "administrative"; "urgent" ].
Definition grievancePriorityEnum : list string :=
  [ "low"; "medium"; "high"; "critical" ].
Definition grievanceStatusEnum : list string :=
  [ "submitted"; "under_review"; "assigned"; "in_progress"; "resolved"; "closed" ].

(* ===================================================================== *)
(** * The tables of schema.ts *)
(* ===================================================================== *)

(** A row of [users] (the columns the handlers read). *)
Module User.
Record t : Type := mk {
  id : string;
  role : string;
  department : option string }.
End User.

(** What the route hands to [createGrievance]: [InsertGrievance] together
    with the tracking id.  [priority] is whatever [getAutoPriority]
    returned. *)
Module InsertGrievance.
Record t : Type := mk {
  userId : option string;
  trackingId : string;
  title : string;
  description : string;
  category : string;
  priority : Js.value string;
  isAnonymous : bool;
  isConfidential : bool;
  slaDeadline : Js.Date;
  status : string }.
End InsertGrievance.

(** A row of [grievances].  The enum columns hold one of the labels of
    their enum type; timestamps are in milliseconds, [None] is NULL. *)
Module Grievance.
Record t : Type := mk {
  id : string;
  trackingId : string;
  userId : option string;
  isAnonymous : bool;
  title : string;
  description : string;
  category : string;
  priority : string;
  status : string;
  isConfidential : bool;
  slaDeadline : option Z;
  createdAt : Z;
  updatedAt : Z;
  resolvedAt : option Z }.

(** [SET status = .., updated_at = .. [, resolved_at = ..]]: a column
    that is not in the SET list keeps its value. *)
Definition setStatus (newStatus : string) (now : Z) (resolved : option Z)
    (g : t) : t :=
  {| id := id g; trackingId := trackingId g; userId := userId g;
     isAnonymous := isAnonymous g; title := title g;
     description := description g; category := category g;
     priority := priority g; status := newStatus;
     isConfidential := isConfidential g; slaDeadline := slaDeadline g;
     createdAt := createdAt g; updatedAt := now;
     resolvedAt := match resolved with
                   | Some r => Some r
                   | None => resolvedAt g
                   end |}.

(** [SET priority = .., sla_deadline = .., updated_at = ..] *)
Definition setPriority (newPriority : string) (deadline : Z) (now : Z)
    (g : t) : t :=
  {| id := id g; trackingId := trackingId g; userId := userId g;
     isAnonymous := isAnonymous g; title := title g;
     description := description g; category := category g;
     priority := newPriority; status := status g;
     isConfidential := isConfidential g; slaDeadline := Some deadline;
     createdAt := createdAt g; updatedAt := now;
     resolvedAt := resolvedAt g |}.
End Grievance.

Module InsertComment.
Record t : Type := mk {
  grievanceId : string;
  userId : string;
  content : string;
  isInternal : bool }.
End InsertComment.

Module Comment.
Record t : Type := mk {
  id : string;
  grievanceId : string;
  userId : string;
  content : string;
  isInternal : bool;
  createdAt : Z }.
End Comment.

Module InsertFile.
Record t : Type := mk {
  grievanceId : string;
  fileName : string;
  fileType : string;
  fileSize : Z;
  filePath : string;
  uploadedBy : option string }.
End InsertFile.

Module File.
Record t : Type := mk {
  id : string;
  grievanceId : string;
  fileName : string;
  fileType : string;
  fileSize : Z;
  filePath : string;
  uploadedBy : option string;
  createdAt : Z }.
End File.

Module InsertNotification.
Record t : Type := mk {
  userId : string;
  grievanceId : option string;
  title : string;
  message : string;
  isRead : bool }.
End InsertNotification.

Module Notification.
Record t : Type := mk {
  id : string;
  userId : string;
  grievanceId : option string;
  title : string;
  message : string;
  isRead : bool;
  createdAt : Z }.
End Notification.

(** The database: every table is a finite map from its primary key to
    the row (the primary key constraint is the shape of the map). *)
Record Database : Type := mkDatabase {
  users : gmap string User.t;
  grievances : gmap string Grievance.t;
  comments : gmap string Comment.t;
  files : gmap string File.t;
  notifications : gmap string Notification.t }.

(** [SELECT * FROM t]: the rows, without their keys. *)
Definition rows {A} (table : gmap string A) : list A :=
  (map_to_list table).*2.

(* ===================================================================== *)
(** * The world and the monad of the handlers *)
(* ===================================================================== *)

(** The answers the environment will give: [clock n] is the n-th reading
    of a clock ([new Date()] in the server, [now()] in the database),
    [nanoidGen n] the n-th result of [nanoid(4)], [uuidGen n] the n-th
    [gen_random_uuid()]; the counters say how many were consumed. *)
Record World : Type := mkWorld {
  clock : nat -> Z;
  ticks : nat;
  nanoidGen : nat -> string;
  nanoidCalls : nat;
  uuidGen : nat -> string;
  uuidCalls : nat }.

(** What a [try] block can catch. *)
Inductive Exn : Type :=
| TypeError (what : string)
| RangeError (what : string)
| DbError (constraint : string).

Inductive Outcome (A : Type) : Type :=
| Done (a : A)
| Raised (e : Exn).
Arguments Done {A} a.
Arguments Raised {A} e.

(** A computation over the database and the world that returns or
    throws; what it wrote before throwing stays written. *)
Definition M (A : Type) : Type :=
  Database -> World -> Outcome A * Database * World.

Definition ret {A} (a : A) : M A := fun db w => (Done a, db, w).

Definition bind {A B} (m : M A) (k : A -> M B) : M B :=
  fun db w =>
    match m db w with
    | (Done a, db', w') => k a db' w'
    | (Raised e, db', w') => (Raised e, db', w')
    end.

Definition throw {A} (e : Exn) : M A := fun db w => (Raised e, db, w).

Notation "'let!' x ':=' m 'in' k" := (bind m (fun x => k))
  (at level 10, x pattern, m at level 100, k at level 200).
Notation "m ';;' k" := (bind m (fun _ => k))
  (at level 100, k at level 200, right associativity).

Definition readDb : M Database := fun db w => (Done db, db, w).
Definition writeDb (db' : Database) : M unit := fun _ w => (Done tt, db', w).

(** The world after one more clock reading, [nanoid] or UUID. *)
Definition tick (w : World) : World :=
  mkWorld (clock w) (S (ticks w)) (nanoidGen w) (nanoidCalls w)
          (uuidGen w) (uuidCalls w).

Definition drawNanoid (w : World) : World :=
  mkWorld (clock w) (ticks w) (nanoidGen w) (S (nanoidCalls w))
          (uuidGen w) (uuidCalls w).

Definition drawUuid (w : World) : World :=
  mkWorld (clock w) (ticks w) (nanoidGen w) (nanoidCalls w)
          (uuidGen w) (S (uuidCalls w)).

(** [new Date()] / [now()] *)
Definition newDate : M Z :=
  fun db w => (Done (clock w (ticks w)), db, tick w).

(** [nanoid(4)] *)
Definition nanoid4 : M string :=
  fun db w => (Done (nanoidGen w (nanoidCalls w)), db, drawNanoid w).

(** [gen_random_uuid()] *)
Definition gen_random_uuid : M string :=
  fun db w => (Done (uuidGen w (uuidCalls w)), db, drawUuid w).

(** [for (const x of xs) await f(x)] *)
Fixpoint forEach {A} (f : A -> M unit) (xs : list A) : M unit :=
  match xs with
  | [] => ret tt
  | x :: rest => f x;; forEach f rest
  end.

(** [calculateSlaDeadline(priority)]: reads the clock, then computes. *)
Definition calculateSlaDeadline (priority : Js.value string) : M Js.Date :=
  let! now := newDate in
  ret (slaDeadlineFrom now priority).

(** [generateTrackingId()]: two draws of [nanoid(4)], left to right. *)
Definition generateTrackingId : M string :=
  let! a := nanoid4 in
  let! b := nanoid4 in
  ret (String.append "GRV-"
         (String.append (Js.toUpperCase a)
            (String.append "-" (Js.toUpperCase b)))).

(* ===================================================================== *)
(** * DatabaseStorage *)
(* ===================================================================== *)

Module DatabaseStorage.

(** An enum column accepts the text of the value it is sent only when
    that text is one of the labels of its type. *)
Definition isLabel (enum : list string) (text : string) : bool :=
  Js.includes enum text.

(** A foreign key to [table]: NULL, or the key of a row. *)
Definition references {A} (table : gmap string A) (key : option string) : bool :=
  match key with
  | None => true
  | Some k => bool_decide (is_Some (table !! k))
  end.

(** [tracking_id] is declared [unique()]. *)
Definition trackingIdTaken (db : Database) (trackingId : string) : bool :=
  existsb (fun g => String.eqb (Grievance.trackingId g) trackingId)
          (rows (grievances db)).

(** [getUser(id)]: the first row selected, [undefined] when there is
    none. *)
Definition getUser (id : string) : M (option User.t) :=
  let! db := readDb in
  ret (users db !! id).

(** [insert(grievances).values(grievanceData).returning()].  The driver
    first serialises the values (an Invalid Date cannot be), the enum
    columns then parse their input, the defaults [gen_random_uuid()]
    and [now()] fill [id], [created_at] and [updated_at], and the
    constraints are checked before the row is written. *)
Definition createGrievance (data : InsertGrievance.t) : M Grievance.t :=
  match InsertGrievance.slaDeadline data with
  | Js.InvalidDate => throw (RangeError "Invalid time value")
  | Js.DateMs deadline =>
      let priority := Js.to_string (InsertGrievance.priority data) in
      if negb (isLabel grievanceCategoryEnum (InsertGrievance.category data))
      then throw (DbError "grievance_category")
      else if negb (isLabel grievancePriorityEnum priority)
      then throw (DbError "grievance_priority")
      else if negb (isLabel grievanceStatusEnum (InsertGrievance.status data))
      then throw (DbError "grievance_status")
      else
        let! id := gen_random_uuid in
        let! now := newDate in
        let! db := readDb in
        if bool_decide (is_Some (grievances db !! id))
        then throw (DbError "grievances_pkey")
        else if trackingIdTaken db (InsertGrievance.trackingId data)
        then throw (DbError "grievances_tracking_id_unique")
        else if negb (references (users db) (InsertGrievance.userId data))
        then throw (DbError "grievances_user_id_users_id_fk")
        else
          let row :=
            {| Grievance.id := id;
               Grievance.trackingId := InsertGrievance.trackingId data;
               Grievance.userId := InsertGrievance.userId data;
               Grievance.isAnonymous := InsertGrievance.isAnonymous data;
               Grievance.title := InsertGrievance.title data;
               Grievance.description := InsertGrievance.description data;
               Grievance.category := InsertGrievance.category data;
               Grievance.priority := priority;
               Grievance.status := InsertGrievance.status data;
               Grievance.isConfidential := InsertGrievance.isConfidential data;
               Grievance.slaDeadline := Some deadline;
               Grievance.createdAt := now;
               Grievance.updatedAt := now;
               Grievance.resolvedAt := None |} in
          writeDb (mkDatabase (users db) (<[id := row]> (grievances db))
                     (comments db) (files db) (notifications db));;
          ret row
  end.

(** [updateGrievanceStatus(id, status, resolvedAt?)]: [resolvedAt] goes
    into the SET list whenever the caller passed one.  The result is the
    first returned row, [undefined] when no row has this id. *)
Definition updateGrievanceStatus (id status : string) (resolvedAt : option Z)
    : M (option Grievance.t) :=
  let! now := newDate in
  if negb (isLabel grievanceStatusEnum status)
  then throw (DbError "grievance_status")
  else
    let! db := readDb in
    match grievances db !! id with
    | None => ret None
    | Some g =>
        let row := Grievance.setStatus status now resolvedAt g in
        writeDb (mkDatabase (users db) (<[id := row]> (grievances db))
                   (comments db) (files db) (notifications db));;
        ret (Some row)
    end.

(** [updateGrievancePriority(id, priority, slaDeadline)] *)
Definition updateGrievancePriority (id priority : string)
    (slaDeadline : Js.Date) : M (option Grievance.t) :=
  let! now := newDate in
  match slaDeadline with
  | Js.InvalidDate => throw (RangeError "Invalid time value")
  | Js.DateMs deadline =>
      if negb (isLabel grievancePriorityEnum priority)
      then throw (DbError "grievance_priority")
      else
        let! db := readDb in
        match grievances db !! id with
        | None => ret None
        | Some g =>
            let row := Grievance.setPriority priority deadline now g in
            writeDb (mkDatabase (users db) (<[id := row]> (grievances db))
                       (comments db) (files db) (notifications db));;
            ret (Some row)
        end
  end.

(** [createComment(commentData)] *)
Definition createComment (data : InsertComment.t) : M Comment.t :=
  let! id := gen_random_uuid in
  let! now := newDate in
  let! db := readDb in
  if bool_decide (is_Some (comments db !! id))
  then throw (DbError "comments_pkey")
  else if negb (references (grievances db) (Some (InsertComment.grievanceId data)))
  then throw (DbError "comments_grievance_id_grievances_id_fk")
  else if negb (references (users db) (Some (InsertComment.userId data)))
  then throw (DbError "comments_user_id_users_id_fk")
  else
    let row :=
      {| Comment.id := id;
         Comment.grievanceId := InsertComment.grievanceId data;
         Comment.userId := InsertComment.userId data;
         Comment.content := InsertComment.content data;
         Comment.isInternal := InsertComment.isInternal data;
         Comment.createdAt := now |} in
    writeDb (mkDatabase (users db) (grievances db)
               (<[id := row]> (comments db)) (files db) (notifications db));;
    ret row.

(** [createFile(fileData)] *)
Definition createFile (data : InsertFile.t) : M File.t :=
  let! id := gen_random_uuid in
  let! now := newDate in
  let! db := readDb in
  if bool_decide (is_Some (files db !! id))
  then throw (DbError "files_pkey")
  else if negb (references (grievances db) (Some (InsertFile.grievanceId data)))
  then throw (DbError "files_grievance_id_grievances_id_fk")
  else if negb (references (users db) (InsertFile.uploadedBy data))
  then throw (DbError "files_uploaded_by_users_id_fk")
  else
    let row :=
      {| File.id := id;
         File.grievanceId := InsertFile.grievanceId data;
         File.fileName := InsertFile.fileName data;
         File.fileType := InsertFile.fileType data;
         File.fileSize := InsertFile.fileSize data;
         File.filePath := InsertFile.filePath data;
         File.uploadedBy := InsertFile.uploadedBy data;
         File.createdAt := now |} in
    writeDb (mkDatabase (users db) (grievances db) (comments db)
               (<[id := row]> (files db)) (notifications db));;
    ret row.

(** [createNotification(notificationData)] *)
Definition createNotification (data : InsertNotification.t)
    : M Notification.t :=
  let! id := gen_random_uuid in
  let! now := newDate in
  let! db := readDb in
  if bool_decide (is_Some (notifications db !! id))
  then throw (DbError "notifications_pkey")
  else if negb (references (users db) (Some (InsertNotification.userId data)))
  then throw (DbError "notifications_user_id_users_id_fk")
  else if negb (references (grievances db) (InsertNotification.grievanceId data))
  then throw (DbError "notifications_grievance_id_grievances_id_fk")
  else
    let row :=
      {| Notification.id := id;
         Notification.userId := InsertNotification.userId data;
         Notification.grievanceId := InsertNotification.grievanceId data;
         Notification.title := InsertNotification.title data;
         Notification.message := InsertNotification.message data;
         Notification.isRead := InsertNotification.isRead data;
         Notification.createdAt := now |} in
    writeDb (mkDatabase (users db) (grievances db) (comments db) (files db)
               (<[id := row]> (notifications db)));;
    ret row.

End DatabaseStorage.

(* ===================================================================== *)
(** * The aggregates of DatabaseStorage *)
(* ===================================================================== *)

Record DashboardStats : Type := mkStats {
  total : nat;
  pending : nat;
  resolved : nat;
  overdue : nat }.

(** The three filters of [getDashboardStats], written as in the source:
    [pending] and [overdue] test [!["resolved","closed"].includes(g.status)],
    [resolved] compares with [===]. *)
Definition pendingFilter (g : Grievance.t) : bool :=
  negb (Js.includes ["resolved"; "closed"] (Grievance.status g)).

Definition resolvedFilter (g : Grievance.t) : bool :=
  String.eqb (Grievance.status g) "resolved"
  || String.eqb (Grievance.status g) "closed".

Definition overdueFilter (now : Z) (g : Grievance.t) : bool :=
  match Grievance.slaDeadline g with
  | None => false
  | Some deadline =>
      (deadline <? now)%Z
      && negb (Js.includes ["resolved"; "closed"] (Grievance.status g))
  end.

Definition dashboardStatsOf (allGrievances : list Grievance.t) (now : Z)
    : DashboardStats :=
  {| total := length allGrievances;
     pending := length (List.filter pendingFilter allGrievances);
     resolved := length (List.filter resolvedFilter allGrievances);
     overdue := length (List.filter (overdueFilter now) allGrievances) |}.

(** [eq(grievances.userId, userId)]: NULL equals nothing. *)
Definition ownedBy (userId : string) (g : Grievance.t) : bool :=
  match Grievance.userId g with
  | Some u => String.eqb u userId
  | None => false
  end.

(** The rows [getDashboardStats] aggregates: those of the user when
    [userId && role === "student"], all of them otherwise. *)
Definition scope (userId role : option string) (db : Database)
    : list Grievance.t :=
  match userId, role with
  | Some u, Some r =>
      if Js.truthy_string u && String.eqb r "student"
      then List.filter (ownedBy u) (rows (grievances db))
      else rows (grievances db)
  | _, _ => rows (grievances db)
  end.

Definition getDashboardStats (userId role : option string)
    : M DashboardStats :=
  let! db := readDb in
  let allGrievances := scope userId role db in
  let! now := newDate in
  ret (dashboardStatsOf allGrievances now).

(** The numbers of [getAnalytics] are IEEE 754 doubles.  A finite double
    is taken as the rational it denotes, and an operation returns its
    exact result rounded to the nearest double, ties to even: 53 bits of
    precision, the last place never below 2^-1074.  Nothing here can
    overflow: a time value is at most 8.64e15 in absolute value and an
    array has fewer than 2^32 elements. *)
Module Double.

(** The nearest integer, ties to even. *)
Definition roundEven (x : Q) : Z :=
  let f := Qfloor x in
  match (x - inject_Z f ?= 1 # 2)%Q with
  | Lt => f
  | Eq => if Z.even f then f else f + 1
  | Gt => f + 1
  end.

(** The [e] with [2^e <= |x| < 2^(e+1)], for [x] other than 0. *)
Definition exponent (x : Q) : Z :=
  match Qnum x with
  | 0 => 0
  | n =>
      let e := Z.log2 (Z.abs n) - Z.log2 (Z.pos (Qden x)) in
      match (Qabs x ?= 2 ^ e)%Q with
      | Lt => e - 1
      | _ => e
      end
  end.

(** The exponent of the unit in the last place of the doubles around
    [x]. *)
Definition ulp (x : Q) : Z := Z.max (exponent x - 52) (-1074).

(** The double nearest to [x]. *)
Definition round (x : Q) : Q :=
  (inject_Z (roundEven (x / 2 ^ ulp x)) * 2 ^ ulp x)%Q.

Definition add (a b : Q) : Q := round (a + b).
Definition sub (a b : Q) : Q := round (a - b).
Definition mul (a b : Q) : Q := round (a * b).
Definition div (a b : Q) : Q := round (a / b).

End Double.

(** [Math.round]: the integer nearest to a double, halves upwards.  It
    is computed on the value of the double, without rounding error. *)
Definition js_round (x : Q) : Z := Qfloor (x + (1 # 2)).

Definition hasResolvedAt (g : Grievance.t) : bool :=
  match Grievance.resolvedAt g with
  | Some _ => true
  | None => false
  end.

(** [new Date(x).getTime()] for a timestamp column: NULL reads as 0. *)
Definition getTime (x : option Z) : Z :=
  match x with
  | Some ms => ms
  | None => 0
  end.

(** The callback of the [reduce] in the average resolution time:
    [sum + (resolved - created) / (1000 * 60 * 60)]. *)
Definition addResolutionHours (sum : Q) (g : Grievance.t) : Q :=
  let created := Grievance.createdAt g in
  let resolved := getTime (Grievance.resolvedAt g) in
  Double.add sum
    (Double.div (Double.sub (inject_Z resolved) (inject_Z created))
       (inject_Z (1000 * 60 * 60))).

Definition avgResolutionTime (allGrievances : list Grievance.t) : Z :=
  let resolvedGrievances := List.filter hasResolvedAt allGrievances in
  if (0 <? length resolvedGrievances)%nat
  then js_round
         (Double.div (fold_left addResolutionHours resolvedGrievances 0%Q)
            (inject_Z (Z.of_nat (length resolvedGrievances))))
  else 0.

Definition hasSlaAndResolvedAt (g : Grievance.t) : bool :=
  match Grievance.slaDeadline g, Grievance.resolvedAt g with
  | Some _, Some _ => true
  | _, _ => false
  end.

Definition resolvedInTime (g : Grievance.t) : bool :=
  (getTime (Grievance.resolvedAt g) <=? getTime (Grievance.slaDeadline g))%Z.

(** [Math.round((slaCompliant / grievancesWithSLA.length) * 100)] *)
Definition slaCompliance (allGrievances : list Grievance.t) : Z :=
  let grievancesWithSLA := List.filter hasSlaAndResolvedAt allGrievances in
  let slaCompliant := length (List.filter resolvedInTime grievancesWithSLA) in
  if (0 <? length grievancesWithSLA)%nat
  then js_round
         (Double.mul
            (Double.div (inject_Z (Z.of_nat slaCompliant))
               (inject_Z (Z.of_nat (length grievancesWithSLA))))
            100%Q)
  else 0.

(** One step of the breakdown [reduce]s: increment the entry of the key,
    or push a new entry with count 1. *)
Fixpoint countKey (key : string) (acc : list (string * nat))
    : list (string * nat) :=
  match acc with
  | [] => [(key, 1%nat)]
  | (k, count) :: rest =>
      if String.eqb k key then (k, S count) :: rest
      else (k, count) :: countKey key rest
  end.

Definition breakdown (key : Grievance.t -> string)
    (allGrievances : list Grievance.t) : list (string * nat) :=
  fold_left (fun acc g => countKey (key g) acc) allGrievances [].

(** The result of [getAnalytics], without [monthlyTrends] (which needs
    the calendar of the local time zone). *)
Record Analytics : Type := mkAnalytics {
  totalGrievances : nat;
  analyticsAvgResolutionTime : Z;
  analyticsSlaCompliance : Z;
  categoryBreakdown : list (string * nat);
  priorityDistribution : list (string * nat);
  statusDistribution : list (string * nat) }.

Definition analyticsOf (allGrievances : list Grievance.t) : Analytics :=
  {| totalGrievances := length allGrievances;
     analyticsAvgResolutionTime := avgResolutionTime allGrievances;
     analyticsSlaCompliance := slaCompliance allGrievances;
     categoryBreakdown := breakdown Grievance.category allGrievances;
     priorityDistribution := breakdown Grievance.priority allGrievances;
     statusDistribution := breakdown Grievance.status allGrievances |}.

(** The loop that builds [monthlyTrends] reads the clock once for each
    of its six months. *)
Fixpoint readClock (n : nat) : M unit :=
  match n with
  | O => ret tt
  | S k => let! _ := newDate in readClock k
  end.

Definition getAnalytics : M Analytics :=
  let! db := readDb in
  readClock 6;;
  ret (analyticsOf (rows (grievances db))).

(* ===================================================================== *)
(** * The request handlers of registerRoutes *)
(* ===================================================================== *)

(** What a handler sends: [res.json(body)], or
    [res.status(code).json({ message })]. *)
Inductive Response (A : Type) : Type :=
| Json (body : A)
| Fail (code : Z) (message : string).
Arguments Json {A} body.
Arguments Fail {A} code message.

(** [try { .. } catch (error) { res.status(500).json({ message }) }] *)
Definition tryCatch {A} (message : string) (body : M (Response A))
    : M (Response A) :=
  fun db w =>
    match body db w with
    | (Done r, db', w') => (Done r, db', w')
    | (Raised _, db', w') => (Done (Fail 500 message), db', w')
    end.

(** The roles that may change a status. *)
Definition staffRoles : list string := ["administrator"; "staff"; "faculty"].

(** An uploaded file as multer describes it. *)
Record UploadedFile : Type := mkUpload {
  originalname : string;
  mimetype : string;
  size : Z;
  path : string }.

(** POST /api/grievances: the authenticated subject and the form. *)
Record SubmitRequest : Type := mkSubmit {
  submitSub : string;
  submitTitle : string;
  submitDescription : string;
  submitCategory : string;
  submitIsAnonymous : string;
  submitIsConfidential : string;
  submitFiles : list UploadedFile }.

(** The quotation mark around the title in the message of a
    notification. *)
Definition doubleQuote : string := String (ascii_of_nat 34) EmptyString.

(** The record [createGrievance] is called with. *)
Definition submitData (req : SubmitRequest) (priority : Js.value string)
    (slaDeadline : Js.Date) (trackingId : string) : InsertGrievance.t :=
  let userId := submitSub req in
  let anonymous := String.eqb (submitIsAnonymous req) "true" in
  {| InsertGrievance.userId := if anonymous then None else Some userId;
     InsertGrievance.trackingId := trackingId;
     InsertGrievance.title := submitTitle req;
     InsertGrievance.description := submitDescription req;
     InsertGrievance.category := submitCategory req;
     InsertGrievance.priority := priority;
     InsertGrievance.isAnonymous := anonymous;
     InsertGrievance.isConfidential :=
       String.eqb (submitIsConfidential req) "true";
     InsertGrievance.slaDeadline := slaDeadline;
     InsertGrievance.status := "submitted" |}.

(** The block "Handle file uploads". *)
Definition uploadFiles (req : SubmitRequest) (grievance : Grievance.t)
    : M unit :=
  let userId := submitSub req in
  let anonymous := String.eqb (submitIsAnonymous req) "true" in
  forEach
    (fun file =>
       DatabaseStorage.createFile
         {| InsertFile.grievanceId := Grievance.id grievance;
            InsertFile.fileName := originalname file;
            InsertFile.fileType := mimetype file;
            InsertFile.fileSize := size file;
            InsertFile.filePath := path file;
            InsertFile.uploadedBy :=
              if anonymous then None else Some userId |};;
       ret tt)
    (submitFiles req).

(** The block "Create notification for user (if not anonymous)":
    [if (!grievance.isAnonymous && grievance.userId)]. *)
Definition notifySubmitted (req : SubmitRequest) (grievance : Grievance.t)
    : M unit :=
  match Grievance.userId grievance with
  | Some owner =>
      if negb (Grievance.isAnonymous grievance) && Js.truthy_string owner
      then
        DatabaseStorage.createNotification
          {| InsertNotification.userId := owner;
             InsertNotification.grievanceId := Some (Grievance.id grievance);
             InsertNotification.title := "Grievance Submitted";
             InsertNotification.message :=
               String.append "Your grievance "
                 (String.append doubleQuote
                    (String.append (submitTitle req)
                       (String.append doubleQuote
                          " has been submitted successfully.")));
             InsertNotification.isRead := false |};;
        ret tt
      else ret tt
  | None => ret tt
  end.

(** The handler of POST /api/grievances. *)
Definition postGrievance (req : SubmitRequest) : M (Response Grievance.t) :=
  tryCatch "Failed to create grievance"
    (let priority := getAutoPriority (submitCategory req) in
     let! slaDeadline := calculateSlaDeadline priority in
     let! trackingId := generateTrackingId in
     let! grievance :=
       DatabaseStorage.createGrievance
         (submitData req priority slaDeadline trackingId) in
     uploadFiles req grievance;;
     notifySubmitted req grievance;;
     ret (Json grievance)).

(** PATCH /api/grievances/:id/status and /priority: the subject, the
    [:id] of the path and the one field read from the body. *)
Record PatchRequest : Type := mkPatch {
  patchSub : string;
  patchId : string;
  patchValue : string }.

(** [grievance.userId] on the [undefined] of an update that touched no
    row. *)
Definition readUserIdOfUndefined {A} : M A :=
  throw (TypeError "Cannot read properties of undefined (reading 'userId')").

(** The block "Create notification for grievance owner" of both PATCH
    handlers: [if (grievance.userId)]. *)
Definition notifyOwner (g : Grievance.t) (id title message : string) : M unit :=
  match Grievance.userId g with
  | Some owner =>
      if Js.truthy_string owner
      then
        DatabaseStorage.createNotification
          {| InsertNotification.userId := owner;
             InsertNotification.grievanceId := Some id;
             InsertNotification.title := title;
             InsertNotification.message := message;
             InsertNotification.isRead := false |};;
        ret tt
      else ret tt
  | None => ret tt
  end.

(** [(status === "resolved" || status === "closed") ? new Date()
    : undefined] *)
Definition resolvedAtFor (status : string) : M (option Z) :=
  if String.eqb status "resolved" || String.eqb status "closed"
  then let! now := newDate in ret (Some now)
  else ret None.

(** The handler of PATCH /api/grievances/:id/status. *)
Definition patchGrievanceStatus (req : PatchRequest)
    : M (Response Grievance.t) :=
  tryCatch "Failed to update status"
    (let id := patchId req in
     let status := patchValue req in
     let! user := DatabaseStorage.getUser (patchSub req) in
     match user with
     | None => ret (Fail 403 "Forbidden")
     | Some u =>
         if negb (Js.includes staffRoles (User.role u))
         then ret (Fail 403 "Forbidden")
         else
           let! resolvedAt := resolvedAtFor status in
           let! grievance :=
             DatabaseStorage.updateGrievanceStatus id status resolvedAt in
           match grievance with
           | None => readUserIdOfUndefined
           | Some g =>
               notifyOwner g id "Status Updated"
                 (String.append "Your grievance status has been updated to "
                    (String.append status "."));;
               ret (Json g)
           end
     end).

(** The handler of PATCH /api/grievances/:id/priority. *)
Definition patchGrievancePriority (req : PatchRequest)
    : M (Response Grievance.t) :=
  tryCatch "Failed to update priority"
    (let id := patchId req in
     let priority := patchValue req in
     let! user := DatabaseStorage.getUser (patchSub req) in
     match user with
     | None => ret (Fail 403 "Forbidden")
     | Some u =>
         if negb (String.eqb (User.role u) "administrator")
         then ret (Fail 403 "Forbidden")
         else
           let! slaDeadline := calculateSlaDeadline (Js.Prim priority) in
           let! grievance :=
             DatabaseStorage.updateGrievancePriority id priority slaDeadline in
           match grievance with
           | None => readUserIdOfUndefined
           | Some g =>
               notifyOwner g id "Priority Updated"
                 (String.append "Your grievance priority has been updated to "
                    (String.append priority "."));;
               ret (Json g)
           end
     end).

(** POST /api/grievances/:id/comments.  Whatever else the body carries is
    not read: only [content] is destructured. *)
Record CommentRequest : Type := mkCommentRequest {
  commentSub : string;
  commentGrievanceId : string;
  commentContent : string;
  commentBodyIsInternal : option bool }.

(** The handler of POST /api/grievances/:id/comments. *)
Definition postComment (req : CommentRequest) : M (Response Comment.t) :=
  tryCatch "Failed to create comment"
    (let! comment :=
       DatabaseStorage.createComment
         {| InsertComment.grievanceId := commentGrievanceId req;
            InsertComment.userId := commentSub req;
            InsertComment.content := commentContent req;
            InsertComment.isInternal := false |} in
     ret (Json comment)).

(* ===================================================================== *)
(** * The documented tables, as the specification words them *)
(* ===================================================================== *)

(** Priority of a category: urgent, academic, infrastructure and
    administrative map to critical, high, medium and low; anything else
    is medium. *)
Definition documentedPriority (category : string) : string :=
  if String.eqb category "urgent" then "critical"
  else if String.eqb category "academic" then "high"
  else if String.eqb category "infrastructure" then "medium"
  else if String.eqb category "administrative" then "low"
  else "medium".

(** Offset of a priority in hours: 24, 48, 72 and 120 for critical, high,
    medium and low; 72 for anything else. *)
Definition documentedOffsetHours (priority : string) : Z :=
  if String.eqb priority "critical" then 24
  else if String.eqb priority "high" then 48
  else if String.eqb priority "medium" then 72
  else if String.eqb priority "low" then 120
  else 72.

(** The deadline the specification derives from a priority and a
    reference time. *)
Definition documentedDeadline (priority : string) (referenceTime : Z) : Z :=
  referenceTime + documentedOffsetHours priority * hour_ms.

(** The resolution times, [resolvedAt - createdAt], of the rows that have
    a resolution timestamp, and their mean in hours. *)
Fixpoint resolutionTimes (allGrievances : list Grievance.t) : list Z :=
  match allGrievances with
  | [] => []
  | g :: rest =>
      match Grievance.resolvedAt g with
      | Some resolved =>
          (resolved - Grievance.createdAt g) :: resolutionTimes rest
      | None => resolutionTimes rest
      end
  end.

Definition sumZ (xs : list Z) : Z := fold_right Z.add 0 xs.

Definition meanResolutionHours (allGrievances : list Grievance.t) : Q :=
  (inject_Z (sumZ (resolutionTimes allGrievances))
   / inject_Z (1000 * 60 * 60)
   / inject_Z (Z.of_nat (length (resolutionTimes allGrievances))))%Q.

(** The classes of the dashboard, as the specification words them: a
    grievance is resolved when its status is resolved or closed, pending
    otherwise, and overdue when it is pending and has a deadline earlier
    than now. *)
Definition isResolved (g : Grievance.t) : Prop :=
  In (Grievance.status g) ["resolved"; "closed"].

Definition isPending (g : Grievance.t) : Prop := ~ isResolved g.

Definition isOverdue (now : Z) (g : Grievance.t) : Prop :=
  isPending g
  /\ exists deadline, Grievance.slaDeadline g = Some deadline /\ deadline < now.

(** [counts P l n]: exactly [n] elements of [l] satisfy [P]. *)
Inductive counts {A : Type} (P : A -> Prop) : list A -> nat -> Prop :=
| counts_nil : counts P [] 0
| counts_in (x : A) (l : list A) (n : nat) :
    P x -> counts P l n -> counts P (x :: l) (S n)
| counts_out (x : A) (l : list A) (n : nat) :
    ~ P x -> counts P l n -> counts P (x :: l) n.

(** What the world answers next: the clock reading, the key of the next
    inserted row and the tracking id of the next [generateTrackingId], each
    [n] calls from now. *)
Definition nextTime (w : World) (n : nat) : Z := clock w (ticks w + n)%nat.

Definition nextUuid (w : World) (n : nat) : string :=
  uuidGen w (uuidCalls w + n)%nat.

Definition nextTrackingId (w : World) : string :=
  String.append "GRV-"
    (String.append (Js.toUpperCase (nanoidGen w (nanoidCalls w)))
       (String.append "-" (Js.toUpperCase (nanoidGen w (S (nanoidCalls w)))))).

(** The statuses that carry a resolution. *)
Definition resolving (status : string) : Prop :=
  status = "resolved" \/ status = "closed".

(** The database takes every row of a submission: the keys drawn for
    the grievance, for each attachment and for the notification are
    unused (and those of the attachments distinct), the tracking id is
    not taken, and the owner, if any, is a user. *)
Definition accepts (db : Database) (w : World) (req : SubmitRequest) : Prop :=
  let n := length (submitFiles req) in
  grievances db !! nextUuid w 0 = None
  /\ DatabaseStorage.trackingIdTaken db (nextTrackingId w) = false
  /\ (submitIsAnonymous req = "true" \/ is_Some (users db !! submitSub req))
  /\ (forall i, (i < n)%nat -> files db !! nextUuid w (S i) = None)
  /\ NoDup (map (fun i => nextUuid w (S i)) (seq 0 n))
  /\ notifications db !! nextUuid w (S n) = None.

(** A small world and database for the examples: the clock advances
    by one millisecond per reading, and the first tracking id drawn is
    GRV-ABCD-EF_1. *)
Definition exampleWorld : World :=
  mkWorld (fun n => 1000 + Z.of_nat n) 0
          (fun n => match n with
                    | O => "abcd"
                    | S O => "ef_1"
                    | S (S O) => "wxyz"
                    | _ => "q0q0"
                    end) 0
          (fun n => String.append "uuid-" (String (ascii_of_nat (97 + n)) "")) 0.

Definition exampleUsers : gmap string User.t :=
  <["alice" := User.mk "alice" "student" None]>
    (<["sam" := User.mk "sam" "staff" None]>
       (<["root" := User.mk "root" "administrator" None]> ∅)).

Definition exampleGrievance : Grievance.t :=
  {| Grievance.id := "g-1";
     Grievance.trackingId := "GRV-ABCD-EF_1";
     Grievance.userId := Some "alice";
     Grievance.isAnonymous := false;
     Grievance.title := "Projector";
     Grievance.description := "The projector of room 12 is broken";
     Grievance.category := "infrastructure";
     Grievance.priority := "medium";
     Grievance.status := "in_progress";
     Grievance.isConfidential := false;
     Grievance.slaDeadline := Some 900;
     Grievance.createdAt := 100;
     Grievance.updatedAt := 100;
     Grievance.resolvedAt := None |}.

Definition emptyDb : Database := mkDatabase exampleUsers ∅ ∅ ∅ ∅.

Definition exampleDb : Database :=
  mkDatabase exampleUsers (<["g-1" := exampleGrievance]> ∅) ∅ ∅ ∅.

Definition urgentRequest : SubmitRequest :=
  mkSubmit "alice" "Leak" "Water in the lab" "urgent" "false" "false" [].

Definition otherRequest : SubmitRequest :=
  mkSubmit "alice" "Leak" "Water in the lab" "other" "false" "false" [].


(** Rows created at 0 and resolved after the given number of
    milliseconds. *)
Definition resolvedAfterMs (ms : Z) : Grievance.t :=
  {| Grievance.id := "g";
     Grievance.trackingId := "GRV-0000-0000";
     Grievance.userId := None;
     Grievance.isAnonymous := true;
     Grievance.title := "t";
     Grievance.description := "d";
     Grievance.category := "academic";
     Grievance.priority := "high";
     Grievance.status := "resolved";
     Grievance.isConfidential := false;
     Grievance.slaDeadline := Some (48 * hour_ms);
     Grievance.createdAt := 0;
     Grievance.updatedAt := ms;
     Grievance.resolvedAt := Some ms |}.

Definition anonymousRequest : SubmitRequest :=
  mkSubmit "alice" "Leak" "Water in the lab" "urgent" "true" "false"
    [ mkUpload "leak.png" "image/png" 2048 "uploads/1f" ].

Definition resolveRequest : PatchRequest := mkPatch "sam" "g-1" "resolved".

Definition lowRequest : PatchRequest := mkPatch "root" "g-1" "low".

Definition exampleComment : CommentRequest :=
  mkCommentRequest "alice" "g-1" "Any news?" (Some true).

(** A world whose UUID generator repeats itself, and a submission with
    two attachments: the second attachment draws the key of the first. *)
Definition repeatingWorld : World :=
  mkWorld (clock exampleWorld) 0 (nanoidGen exampleWorld) 0
          (fun _ => "uuid-a") 0.

Definition twoFilesRequest : SubmitRequest :=
  mkSubmit "alice" "Leak" "Water in the lab" "urgent" "false" "false"
    [ mkUpload "a.png" "image/png" 1 "uploads/a";
      mkUpload "b.png" "image/png" 1 "uploads/b" ].

(** A computation [keeps] a relation between the state it starts from
    and the state it leaves when every run of it, returning or throwing,
    satisfies the relation. *)
Definition keeps {A} (P : Database -> World -> Database -> World -> Prop)
    (m : M A) : Prop :=
  forall db w o db' w', m db w = (o, db', w') -> P db w db' w'.

(** What storing attachments and notifications leaves as it was: the
    users, the grievances, the comments and the [nanoid] draws. *)
Definition besideAttachments (db : Database) (w : World)
    (db' : Database) (w' : World) : Prop :=
  users db' = users db /\ grievances db' = grievances db
  /\ comments db' = comments db /\ nanoidCalls w' = nanoidCalls w.

(* ===================================================================== *)
(** * The queries of DatabaseStorage and the handlers that read *)
(* ===================================================================== *)

(** [orderBy(desc(column))]: the rows by decreasing value of the column.
    The database does not say in which order rows of equal value come;
    here they keep the order in which they are found. *)
Fixpoint insertDesc {A} (key : A -> Z) (x : A) (sorted : list A) : list A :=
  match sorted with
  | [] => [x]
  | y :: rest =>
      if (key y <? key x)%Z then x :: y :: rest
      else y :: insertDesc key x rest
  end.

Definition orderByDesc {A} (key : A -> Z) (l : list A) : list A :=
  fold_right (insertDesc key) [] l.

(** [SET is_read = true] *)
Definition markRead (n : Notification.t) : Notification.t :=
  {| Notification.id := Notification.id n;
     Notification.userId := Notification.userId n;
     Notification.grievanceId := Notification.grievanceId n;
     Notification.title := Notification.title n;
     Notification.message := Notification.message n;
     Notification.isRead := true;
     Notification.createdAt := Notification.createdAt n |}.

(** [SET role = .., updated_at = ..] on the columns of [users] that are
    modelled. *)
Definition setRole (newRole : string) (u : User.t) : User.t :=
  {| User.id := User.id u;
     User.role := newRole;
     User.department := User.department u |}.

(** The methods of [DatabaseStorage] that the handlers above do not
    call. *)
Module DatabaseQueries.

(** [getGrievance(id)] *)
Definition getGrievance (id : string) : M (option Grievance.t) :=
  let! db := readDb in
  ret (grievances db !! id).

(** [getGrievanceByTrackingId(trackingId)]: the first row selected. *)
Definition getGrievanceByTrackingId (trackingId : string)
    : M (option Grievance.t) :=
  let! db := readDb in
  ret (head (List.filter
               (fun g => String.eqb (Grievance.trackingId g) trackingId)
               (rows (grievances db)))).

(** [getUserGrievances(userId)] *)
Definition getUserGrievances (userId : string) : M (list Grievance.t) :=
  let! db := readDb in
  ret (orderByDesc Grievance.createdAt
         (List.filter (ownedBy userId) (rows (grievances db)))).

(** [getAllGrievances()] *)
Definition getAllGrievances : M (list Grievance.t) :=
  let! db := readDb in
  ret (orderByDesc Grievance.createdAt (rows (grievances db))).

(** [getGrievanceComments(grievanceId)] *)
Definition getGrievanceComments (grievanceId : string) : M (list Comment.t) :=
  let! db := readDb in
  ret (orderByDesc Comment.createdAt
         (List.filter
            (fun c => String.eqb (Comment.grievanceId c) grievanceId)
            (rows (comments db)))).

(** [getUserNotifications(userId)] *)
Definition getUserNotifications (userId : string) : M (list Notification.t) :=
  let! db := readDb in
  ret (orderByDesc Notification.createdAt
         (List.filter
            (fun n => String.eqb (Notification.userId n) userId)
            (rows (notifications db)))).

(** [markNotificationAsRead(id)] *)
Definition markNotificationAsRead (id : string) : M (option Notification.t) :=
  let! db := readDb in
  match notifications db !! id with
  | None => ret None
  | Some n =>
      writeDb (mkDatabase (users db) (grievances db) (comments db) (files db)
                 (<[id := markRead n]> (notifications db)));;
      ret (Some (markRead n))
  end.

(** [updateUserRole(id, role)] *)
Definition updateUserRole (id role : string) : M (option User.t) :=
  let! now := newDate in
  if negb (DatabaseStorage.isLabel userRoleEnum role)
  then throw (DbError "user_role")
  else
    let! db := readDb in
    match users db !! id with
    | None => ret None
    | Some u =>
        writeDb (mkDatabase (<[id := setRole role u]> (users db))
                   (grievances db) (comments db) (files db)
                   (notifications db));;
        ret (Some (setRole role u))
    end.

End DatabaseQueries.

(** The handler of GET /api/grievances/track/:trackingId, which is not
    behind [requireAuth]. *)
Definition trackGrievance (trackingId : string) : M (Response Grievance.t) :=
  tryCatch "Failed to track grievance"
    (let! grievance := DatabaseQueries.getGrievanceByTrackingId trackingId in
     match grievance with
     | None => ret (Fail 404 "Grievance not found")
     | Some g => ret (Json g)
     end).

(** The handler of GET /api/grievances/my. *)
Definition getMyGrievances (sub : string) : M (Response (list Grievance.t)) :=
  tryCatch "Failed to fetch grievances"
    (let! grievances := DatabaseQueries.getUserGrievances sub in
     ret (Json grievances)).

(** The handler of GET /api/grievances/all. *)
Definition getAllGrievancesForStaff (sub : string)
    : M (Response (list Grievance.t)) :=
  tryCatch "Failed to fetch grievances"
    (let! user := DatabaseStorage.getUser sub in
     match user with
     | None => ret (Fail 403 "Forbidden")
     | Some u =>
         if negb (Js.includes staffRoles (User.role u))
         then ret (Fail 403 "Forbidden")
         else
           let! grievances := DatabaseQueries.getAllGrievances in
           ret (Json grievances)
     end).

(** "Check access permissions" of GET /api/grievances/:id:
    [isOwner || (isStaff && (!grievance.isConfidential
                             || user.role === "administrator"))]. *)
Definition canAccess (user : option User.t) (userId : string)
    (grievance : Grievance.t) : bool :=
  let isOwner := ownedBy userId grievance in
  match user with
  | None => isOwner
  | Some u =>
      let isStaff := Js.includes staffRoles (User.role u) in
      isOwner
      || (isStaff
          && (negb (Grievance.isConfidential grievance)
              || String.eqb (User.role u) "administrator"))
  end.

(** The handler of GET /api/grievances/:id. *)
Definition getSingleGrievance (sub id : string) : M (Response Grievance.t) :=
  tryCatch "Failed to fetch grievance"
    (let! user := DatabaseStorage.getUser sub in
     let! grievance := DatabaseQueries.getGrievance id in
     match grievance with
     | None => ret (Fail 404 "Grievance not found")
     | Some g =>
         if negb (canAccess user sub g)
         then ret (Fail 403 "Forbidden")
         else ret (Json g)
     end).

(** The handler of GET /api/grievances/:id/comments. *)
Definition getComments (id : string) : M (Response (list Comment.t)) :=
  tryCatch "Failed to fetch comments"
    (let! comments := DatabaseQueries.getGrievanceComments id in
     ret (Json comments)).

(** The handler of GET /api/dashboard/stats:
    [getDashboardStats(userId, user?.role)]. *)
Definition getStats (sub : string) : M (Response DashboardStats) :=
  tryCatch "Failed to fetch stats"
    (let! user := DatabaseStorage.getUser sub in
     let! stats := getDashboardStats (Some sub) (User.role <$> user) in
     ret (Json stats)).

(** The handler of GET /api/analytics. *)
Definition getAnalyticsForAdmin (sub : string) : M (Response Analytics) :=
  tryCatch "Failed to fetch analytics"
    (let! user := DatabaseStorage.getUser sub in
     match user with
     | None => ret (Fail 403 "Forbidden")
     | Some u =>
         if negb (String.eqb (User.role u) "administrator")
         then ret (Fail 403 "Forbidden")
         else
           let! analytics := getAnalytics in
           ret (Json analytics)
     end).

(** The handler of GET /api/notifications. *)
Definition getNotifications (sub : string)
    : M (Response (list Notification.t)) :=
  tryCatch "Failed to fetch notifications"
    (let! notifications := DatabaseQueries.getUserNotifications sub in
     ret (Json notifications)).

(** The handler of PATCH /api/users/:id/role; the body field is the
    role.  [res.json] is sent whatever the update returned. *)
Definition patchUserRole (req : PatchRequest)
    : M (Response (option User.t)) :=
  tryCatch "Failed to update user role"
    (let! user := DatabaseStorage.getUser (patchSub req) in
     match user with
     | None => ret (Fail 403 "Forbidden")
     | Some u =>
         if negb (String.eqb (User.role u) "administrator")
         then ret (Fail 403 "Forbidden")
         else
           let! updatedUser :=
             DatabaseQueries.updateUserRole (patchId req) (patchValue req) in
           ret (Json updatedUser)
     end).

(* ===================================================================== *)
(** * The PATCH handlers when the field is missing *)
(* ===================================================================== *)

(** A PATCH request whose body may lack the field that the handler
    destructures from [req.body]: the field is a string, or it is
    missing and reads as [undefined].  The other values of JSON (null,
    numbers, booleans, arrays, objects) are not covered. *)
Record PatchBody : Type := mkPatchBody {
  bodySub : string;
  bodyId : string;
  bodyField : option string }.

(** The field as JavaScript sees it. *)
Definition fieldValue (field : option string) : Js.value string :=
  match field with
  | Some text => Js.Prim text
  | None => Js.Undefined
  end.

(** The updates of [DatabaseStorage] when the value of the column may be
    [undefined]: drizzle leaves a key whose value is [undefined] out of
    the SET list, so the column keeps its value and no text is parsed as
    an enum label. *)
Module DatabaseUpdates.

(** [updateGrievanceStatus(id, status, resolvedAt?)] *)
Definition updateGrievanceStatus (id : string) (status : option string)
    (resolvedAt : option Z) : M (option Grievance.t) :=
  match status with
  | Some label => DatabaseStorage.updateGrievanceStatus id label resolvedAt
  | None =>
      let! now := newDate in
      let! db := readDb in
      match grievances db !! id with
      | None => ret None
      | Some g =>
          let row := Grievance.setStatus (Grievance.status g) now resolvedAt g in
          writeDb (mkDatabase (users db) (<[id := row]> (grievances db))
                     (comments db) (files db) (notifications db));;
          ret (Some row)
      end
  end.

(** [updateGrievancePriority(id, priority, slaDeadline)] *)
Definition updateGrievancePriority (id : string) (priority : option string)
    (slaDeadline : Js.Date) : M (option Grievance.t) :=
  match priority with
  | Some label => DatabaseStorage.updateGrievancePriority id label slaDeadline
  | None =>
      let! now := newDate in
      match slaDeadline with
      | Js.InvalidDate => throw (RangeError "Invalid time value")
      | Js.DateMs deadline =>
          let! db := readDb in
          match grievances db !! id with
          | None => ret None
          | Some g =>
              let row :=
                Grievance.setPriority (Grievance.priority g) deadline now g in
              writeDb (mkDatabase (users db) (<[id := row]> (grievances db))
                         (comments db) (files db) (notifications db));;
              ret (Some row)
          end
      end
  end.

(** [updateUserRole(id, role)]: without a role only [updated_at] is set,
    which is not among the columns of [User.t]. *)
Definition updateUserRole (id : string) (role : option string)
    : M (option User.t) :=
  match role with
  | Some label => DatabaseQueries.updateUserRole id label
  | None =>
      let! now := newDate in
      let! db := readDb in
      ret (users db !! id)
  end.

End DatabaseUpdates.

(** [(status === "resolved" || status === "closed") ? new Date()
    : undefined], which is [undefined] for a missing status. *)
Definition resolvedAtOf (status : option string) : M (option Z) :=
  match status with
  | Some label => resolvedAtFor label
  | None => ret None
  end.

(** The handler of PATCH /api/grievances/:id/status. *)
Definition patchStatus (req : PatchBody) : M (Response Grievance.t) :=
  tryCatch "Failed to update status"
    (let id := bodyId req in
     let status := bodyField req in
     let! user := DatabaseStorage.getUser (bodySub req) in
     match user with
     | None => ret (Fail 403 "Forbidden")
     | Some u =>
         if negb (Js.includes staffRoles (User.role u))
         then ret (Fail 403 "Forbidden")
         else
           let! resolvedAt := resolvedAtOf status in
           let! grievance :=
             DatabaseUpdates.updateGrievanceStatus id status resolvedAt in
           match grievance with
           | None => readUserIdOfUndefined
           | Some g =>
               notifyOwner g id "Status Updated"
                 (String.append "Your grievance status has been updated to "
                    (String.append (Js.to_string (fieldValue status)) "."));;
               ret (Json g)
           end
     end).

(** The handler of PATCH /api/grievances/:id/priority. *)
Definition patchPriority (req : PatchBody) : M (Response Grievance.t) :=
  tryCatch "Failed to update priority"
    (let id := bodyId req in
     let priority := bodyField req in
     let! user := DatabaseStorage.getUser (bodySub req) in
     match user with
     | None => ret (Fail 403 "Forbidden")
     | Some u =>
         if negb (String.eqb (User.role u) "administrator")
         then ret (Fail 403 "Forbidden")
         else
           let! slaDeadline := calculateSlaDeadline (fieldValue priority) in
           let! grievance :=
             DatabaseUpdates.updateGrievancePriority id priority slaDeadline in
           match grievance with
           | None => readUserIdOfUndefined
           | Some g =>
               notifyOwner g id "Priority Updated"
                 (String.append "Your grievance priority has been updated to "
                    (String.append (Js.to_string (fieldValue priority)) "."));;
               ret (Json g)
           end
     end).


(* ===================================================================== *)
(** * Statements about the database *)
(* ===================================================================== *)

(** What the constraints of schema.ts say of a database: rows sit under
    their primary key, enum columns hold labels, tracking ids are unique
    and foreign keys point at rows. *)
Definition wellFormed (db : Database) : Prop :=
  (forall k u,
     users db !! k = Some u ->
     User.id u = k /\ In (User.role u) userRoleEnum)
  /\ (forall k g,
        grievances db !! k = Some g ->
        Grievance.id g = k
        /\ In (Grievance.category g) grievanceCategoryEnum
        /\ In (Grievance.priority g) grievancePriorityEnum
        /\ In (Grievance.status g) grievanceStatusEnum
        /\ DatabaseStorage.references (users db) (Grievance.userId g) = true)
  /\ (forall k1 k2 g1 g2,
        grievances db !! k1 = Some g1 ->
        grievances db !! k2 = Some g2 ->
        Grievance.trackingId g1 = Grievance.trackingId g2 -> k1 = k2)
  /\ (forall k c,
        comments db !! k = Some c ->
        Comment.id c = k
        /\ is_Some (grievances db !! Comment.grievanceId c)
        /\ is_Some (users db !! Comment.userId c))
  /\ (forall k f,
        files db !! k = Some f ->
        File.id f = k
        /\ is_Some (grievances db !! File.grievanceId f)
        /\ DatabaseStorage.references (users db) (File.uploadedBy f) = true)
  /\ (forall k n,
        notifications db !! k = Some n ->
        Notification.id n = k
        /\ is_Some (users db !! Notification.userId n)
        /\ DatabaseStorage.references (grievances db)
             (Notification.grievanceId n) = true).

(** A computation [preserves] a statement about the database when the
    statement, true before, is true after every run. *)
Definition preserves (I : Database -> Prop) (db : Database) (w : World)
    (db' : Database) (w' : World) : Prop :=
  I db -> I db'.

(** A computation that only reads leaves the database and the world as
    they were. *)
Definition readsOnly (db : Database) (w : World) (db' : Database)
    (w' : World) : Prop :=
  db' = db /\ w' = w.

(** A list by decreasing key. *)
Definition decreasing {A} (key : A -> Z) (l : list A) : Prop :=
  StronglySorted (fun x y => key y <= key x) l.

(* ===================================================================== *)
(** * Properties of the helpers *)
(* ===================================================================== *)

Lemma includes_In (arr : list string) (s : string) :
  Js.includes arr s = true <-> In s arr.
Proof.
  unfold Js.includes. rewrite existsb_exists. split.
  - intros (x & Hin & Heq). apply String.eqb_eq in Heq. now subst.
  - intros Hin. exists s. split; [assumption | apply String.eqb_refl].
Qed.

Lemma includes_false_not_In (arr : list string) (s : string) :
  Js.includes arr s = false <-> ~ In s arr.
Proof.
  rewrite <- includes_In. destruct (Js.includes arr s); split; intros H;
    try reflexivity; try discriminate; try (intros ?; discriminate).
  now contradict H.
Qed.

(** On the four categories [getAutoPriority] is the documented mapping. *)
Lemma getAutoPriority_enum (category : string) :
  In category grievanceCategoryEnum ->
  getAutoPriority category = Js.Prim (documentedPriority category).
Proof.
  intros H. simpl in H.
  destruct H as [<- | [<- | [<- | [<- | []]]]]; reflexivity.
Qed.

(** Outside the own keys of [priorityMap] the answer depends on the
    prototype chain alone. *)
Lemma own_priorityMap_None (category : string) :
  ~ In category grievanceCategoryEnum -> Js.own priorityMap category = None.
Proof.
  intros H. simpl in H. unfold priorityMap. cbn [Js.own].
  repeat match goal with
  | |- context [String.eqb ?k category] =>
      destruct (String.eqb_spec k category) as [<- | _];
      [ exfalso; apply H; tauto | ]
  end.
  reflexivity.
Qed.

(** A string that is neither a category nor a property of
    [Object.prototype] resolves to medium. *)
Lemma getAutoPriority_default (category : string) :
  ~ In category grievanceCategoryEnum ->
  Js.inherited category = false ->
  getAutoPriority category = Js.Prim "medium".
Proof.
  intros Hcat Hinh. unfold getAutoPriority, Js.get.
  rewrite (own_priorityMap_None _ Hcat), Hinh. reflexivity.
Qed.

(** A string outside the enumeration that names a property of
    [Object.prototype] resolves to that inherited member. *)
Lemma getAutoPriority_inherited (category : string) :
  Js.inherited category = true ->
  getAutoPriority category = Js.Builtin category.
Proof.
  intros Hinh.
  assert (Hcat : ~ In category grievanceCategoryEnum).
  { intros Hin. simpl in Hin.
    destruct Hin as [<- | [<- | [<- | [<- | []]]]]; discriminate Hinh. }
  unfold getAutoPriority, Js.get.
  rewrite (own_priorityMap_None _ Hcat), Hinh. reflexivity.
Qed.

(** On the four priorities the deadline is the reference time plus the
    documented offset. *)
Lemma slaDeadlineFrom_enum (now : Z) (priority : string) :
  In priority grievancePriorityEnum ->
  slaDeadlineFrom now (Js.Prim priority)
  = Js.DateMs (documentedDeadline priority now).
Proof.
  intros H. simpl in H.
  destruct H as [<- | [<- | [<- | [<- | []]]]];
    reflexivity.
Qed.

Lemma own_slaHours_None (priority : string) :
  ~ In priority grievancePriorityEnum -> Js.own slaHours priority = None.
Proof.
  intros H. simpl in H. unfold slaHours. cbn [Js.own].
  repeat match goal with
  | |- context [String.eqb ?k priority] =>
      destruct (String.eqb_spec k priority) as [<- | _];
      [ exfalso; apply H; tauto | ]
  end.
  reflexivity.
Qed.

(** An unrecognised priority that is not a property of
    [Object.prototype] gets 72 hours. *)
Lemma slaDeadlineFrom_default (now : Z) (priority : string) :
  ~ In priority grievancePriorityEnum ->
  Js.inherited priority = false ->
  slaDeadlineFrom now (Js.Prim priority) = Js.DateMs (now + 72 * hour_ms).
Proof.
  intros Hp Hinh. unfold slaDeadlineFrom, Js.get. simpl Js.to_string.
  rewrite (own_slaHours_None _ Hp), Hinh. reflexivity.
Qed.

(** An unrecognised priority that names a property of [Object.prototype]
    gets no deadline at all. *)
Lemma slaDeadlineFrom_inherited (now : Z) (priority : string) :
  Js.inherited priority = true ->
  slaDeadlineFrom now (Js.Prim priority) = Js.InvalidDate.
Proof.
  intros Hinh.
  assert (Hp : ~ In priority grievancePriorityEnum).
  { intros Hin. simpl in Hin.
    destruct Hin as [<- | [<- | [<- | [<- | []]]]]; discriminate Hinh. }
  unfold slaDeadlineFrom, Js.get. simpl Js.to_string.
  rewrite (own_slaHours_None _ Hp), Hinh. reflexivity.
Qed.

(** The priority [getAutoPriority] resolves always has a valid deadline. *)
Lemma slaDeadlineFrom_getAutoPriority (now : Z) (category : string) :
  exists deadline,
    slaDeadlineFrom now (getAutoPriority category) = Js.DateMs deadline.
Proof.
  destruct (in_dec string_dec category grievanceCategoryEnum) as [Hin | Hout].
  - rewrite (getAutoPriority_enum _ Hin). simpl in Hin.
    destruct Hin as [<- | [<- | [<- | [<- | []]]]]; eexists; reflexivity.
  - destruct (Js.inherited category) eqn:Hinh.
    + rewrite (getAutoPriority_inherited _ Hinh).
      unfold Js.inherited in Hinh. apply existsb_exists in Hinh.
      destruct Hinh as (k & Hk & Heq). apply String.eqb_eq in Heq. subst k.
      simpl in Hk.
      repeat (destruct Hk as [<- | Hk]; [eexists; reflexivity | ]).
      destruct Hk.
    + rewrite (getAutoPriority_default _ Hout Hinh). eexists; reflexivity.
Qed.

(* ===================================================================== *)
(** * Reasoning about computations *)
(* ===================================================================== *)

(** Unfold the primitive computations. *)
Ltac mrun :=
  unfold bind, ret, throw, readDb, writeDb, newDate, nanoid4, gen_random_uuid in *.

Section Monad.
Context {A B : Type}.
Variables (m : M A) (k : A -> M B) (db db1 : Database) (w w1 : World).

Lemma bind_Done (a : A) :
  m db w = (Done a, db1, w1) -> bind m k db w = k a db1 w1.
Proof. intros H. unfold bind. now rewrite H. Qed.

Lemma bind_Raised (e : Exn) :
  m db w = (Raised e, db1, w1) -> bind m k db w = (Raised e, db1, w1).
Proof. intros H. unfold bind. now rewrite H. Qed.
End Monad.

Lemma bind_inv {A B} (m : M A) (k : A -> M B) (db db' : Database)
    (w w' : World) (o : Outcome B) :
  bind m k db w = (o, db', w') ->
  (exists a db1 w1, m db w = (Done a, db1, w1) /\ k a db1 w1 = (o, db', w'))
  \/ (exists e, m db w = (Raised e, db', w') /\ o = Raised e).
Proof.
  unfold bind. destruct (m db w) as [[[a | e] db1] w1]; intros H.
  - left. eauto.
  - right. inversion H; subst. eauto.
Qed.

Lemma tryCatch_inv {A} (message : string) (body : M (Response A))
    (db db' : Database) (w w' : World) (o : Outcome (Response A)) :
  tryCatch message body db w = (o, db', w') ->
  (exists r, body db w = (Done r, db', w') /\ o = Done r)
  \/ (exists e, body db w = (Raised e, db', w') /\ o = Done (Fail 500 message)).
Proof.
  unfold tryCatch. destruct (body db w) as [[[r | e] db1] w1]; intros H;
    inversion H; subst; eauto.
Qed.

Lemma keeps_ret {A} P (a : A) :
  (forall db w, P db w db w) -> keeps P (ret a).
Proof. intros Hr db w o db' w' H. unfold ret in H. inversion H; subst. apply Hr. Qed.

Lemma keeps_bind {A B} (P : Database -> World -> Database -> World -> Prop)
    (m : M A) (k : A -> M B) :
  (forall db w db1 w1 db2 w2, P db w db1 w1 -> P db1 w1 db2 w2 -> P db w db2 w2) ->
  keeps P m -> (forall a, keeps P (k a)) -> keeps P (bind m k).
Proof.
  intros Htrans Hm Hk db w o db' w' H.
  apply bind_inv in H. destruct H as [(a & db1 & w1 & H1 & H2) | (e & H1 & _)].
  - eapply Htrans; [eapply Hm, H1 | eapply Hk, H2].
  - eapply Hm, H1.
Qed.

Lemma besideAttachments_refl db w : besideAttachments db w db w.
Proof. unfold besideAttachments. auto. Qed.

Lemma besideAttachments_trans db w db1 w1 db2 w2 :
  besideAttachments db w db1 w1 -> besideAttachments db1 w1 db2 w2 ->
  besideAttachments db w db2 w2.
Proof.
  unfold besideAttachments. intros (?&?&?&?) (?&?&?&?).
  repeat split; congruence.
Qed.


Lemma createFile_keeps (data : InsertFile.t) :
  keeps besideAttachments (DatabaseStorage.createFile data).
Proof.
  intros db w o db' w'. unfold DatabaseStorage.createFile, besideAttachments.
  mrun. intros H. repeat case_match; simplify_eq; cbn; auto.
Qed.

Lemma createNotification_keeps (data : InsertNotification.t) :
  keeps besideAttachments (DatabaseStorage.createNotification data).
Proof.
  intros db w o db' w'.
  unfold DatabaseStorage.createNotification, besideAttachments.
  mrun. intros H. repeat case_match; simplify_eq; cbn; auto.
Qed.

Lemma forEach_keeps {A} P (f : A -> M unit) (xs : list A) :
  (forall db w, P db w db w) ->
  (forall db w db1 w1 db2 w2, P db w db1 w1 -> P db1 w1 db2 w2 -> P db w db2 w2) ->
  (forall x, keeps P (f x)) -> keeps P (forEach f xs).
Proof.
  intros Hrefl Htrans Hf. induction xs as [| x xs IH]; cbn [forEach].
  - now apply keeps_ret.
  - apply keeps_bind; auto.
Qed.

Lemma uploadFiles_keeps req g : keeps besideAttachments (uploadFiles req g).
Proof.
  unfold uploadFiles. apply forEach_keeps.
  - apply besideAttachments_refl.
  - apply besideAttachments_trans.
  - intros file. apply keeps_bind.
    + apply besideAttachments_trans.
    + apply createFile_keeps.
    + intros _. apply keeps_ret, besideAttachments_refl.
Qed.

Lemma notifySubmitted_keeps req g : keeps besideAttachments (notifySubmitted req g).
Proof.
  unfold notifySubmitted.
  destruct (Grievance.userId g) as [owner | ];
    [ | apply keeps_ret, besideAttachments_refl ].
  destruct (negb (Grievance.isAnonymous g) && Js.truthy_string owner);
    [ | apply keeps_ret, besideAttachments_refl ].
  apply keeps_bind.
  - apply besideAttachments_trans.
  - apply createNotification_keeps.
  - intros _. apply keeps_ret, besideAttachments_refl.
Qed.

Lemma notifyOwner_keeps g id title message :
  keeps besideAttachments (notifyOwner g id title message).
Proof.
  unfold notifyOwner.
  destruct (Grievance.userId g) as [owner | ];
    [ | apply keeps_ret, besideAttachments_refl ].
  destruct (Js.truthy_string owner);
    [ | apply keeps_ret, besideAttachments_refl ].
  apply keeps_bind.
  - apply besideAttachments_trans.
  - apply createNotification_keeps.
  - intros _. apply keeps_ret, besideAttachments_refl.
Qed.

(* ===================================================================== *)
(** * createGrievance *)
(* ===================================================================== *)

(** What a successful insert tells about the row, the database before
    and the database after. *)
Lemma createGrievance_Done (data : InsertGrievance.t) (db db' : Database)
    (w w' : World) (g : Grievance.t) :
  DatabaseStorage.createGrievance data db w = (Done g, db', w') ->
  InsertGrievance.slaDeadline data
  = Js.DateMs (default 0 (Grievance.slaDeadline g))
  /\ is_Some (Grievance.slaDeadline g)
  /\ Grievance.id g = nextUuid w 0
  /\ Grievance.createdAt g = nextTime w 0
  /\ Grievance.status g = InsertGrievance.status data
  /\ Grievance.priority g = Js.to_string (InsertGrievance.priority data)
  /\ Grievance.userId g = InsertGrievance.userId data
  /\ Grievance.isAnonymous g = InsertGrievance.isAnonymous data
  /\ Grievance.resolvedAt g = None
  /\ grievances db' = <[Grievance.id g := g]> (grievances db)
  /\ users db' = users db
  /\ notifications db' = notifications db
  /\ files db' = files db
  /\ w' = tick (drawUuid w).
Proof.
  unfold DatabaseStorage.createGrievance, nextUuid, nextTime.
  rewrite !Nat.add_0_r. mrun. intros H.
  repeat case_match; simplify_eq; cbn. repeat split; eauto.
Qed.

(** A refused insert writes nothing and draws no tracking id. *)
Lemma createGrievance_Raised (data : InsertGrievance.t) (db db' : Database)
    (w w' : World) (e : Exn) :
  DatabaseStorage.createGrievance data db w = (Raised e, db', w') ->
  db' = db /\ nanoidCalls w' = nanoidCalls w.
Proof.
  unfold DatabaseStorage.createGrievance. mrun. intros H.
  repeat case_match; simplify_eq; cbn; auto.
Qed.

(** The insert is refused as soon as the tracking id is taken. *)
Lemma createGrievance_taken (data : InsertGrievance.t) (db : Database)
    (w : World) :
  DatabaseStorage.trackingIdTaken db (InsertGrievance.trackingId data) = true ->
  exists e w', DatabaseStorage.createGrievance data db w = (Raised e, db, w').
Proof.
  intros Ht. unfold DatabaseStorage.createGrievance. mrun.
  repeat case_match; simplify_eq; cbn; eauto.
Qed.

(** The category column refuses what is not one of its labels. *)
Lemma createGrievance_bad_category (data : InsertGrievance.t) (db : Database)
    (w : World) (deadline : Z) :
  InsertGrievance.slaDeadline data = Js.DateMs deadline ->
  ~ In (InsertGrievance.category data) grievanceCategoryEnum ->
  DatabaseStorage.createGrievance data db w
  = (Raised (DbError "grievance_category"), db, w).
Proof.
  intros Hd Hc. unfold DatabaseStorage.createGrievance. rewrite Hd.
  apply includes_false_not_In in Hc. unfold DatabaseStorage.isLabel.
  rewrite Hc. reflexivity.
Qed.

(** The insert goes through when the values are labels of their enums,
    the generated key and the tracking id are unused and the owner, if
    any, is a user. *)
Lemma createGrievance_accepts (data : InsertGrievance.t) (db : Database)
    (w : World) (deadline : Z) :
  InsertGrievance.slaDeadline data = Js.DateMs deadline ->
  In (InsertGrievance.category data) grievanceCategoryEnum ->
  In (Js.to_string (InsertGrievance.priority data)) grievancePriorityEnum ->
  In (InsertGrievance.status data) grievanceStatusEnum ->
  grievances db !! nextUuid w 0 = None ->
  DatabaseStorage.trackingIdTaken db (InsertGrievance.trackingId data) = false ->
  DatabaseStorage.references (users db) (InsertGrievance.userId data) = true ->
  exists g db',
    DatabaseStorage.createGrievance data db w = (Done g, db', tick (drawUuid w)).
Proof.
  intros Hd Hc Hp Hs Hid Ht Hu.
  apply includes_In in Hc, Hp, Hs.
  unfold DatabaseStorage.createGrievance, DatabaseStorage.isLabel, nextUuid in *.
  rewrite Nat.add_0_r in Hid.
  rewrite Hd, Hc, Hp, Hs. cbn [negb]. mrun. cbn [uuidGen uuidCalls drawUuid tick].
  rewrite Hid, Ht, Hu.
  rewrite bool_decide_eq_false_2 by (intros [? ?]; discriminate).
  cbn [negb]. eauto.
Qed.

Lemma postGrievance_prefix (req : SubmitRequest) (db : Database) (w : World) :
  postGrievance req db w
  = tryCatch "Failed to create grievance"
      (let! grievance :=
         DatabaseStorage.createGrievance
           (submitData req (getAutoPriority (submitCategory req))
              (slaDeadlineFrom (nextTime w 0)
                 (getAutoPriority (submitCategory req)))
              (nextTrackingId w)) in
       uploadFiles req grievance;;
       notifySubmitted req grievance;;
       ret (Json grievance))
      db (drawNanoid (drawNanoid (tick w))).
Proof. unfold nextTime. rewrite Nat.add_0_r. reflexivity. Qed.

Lemma documentedPriority_label (category : string) :
  In (documentedPriority category) grievancePriorityEnum.
Proof.
  unfold documentedPriority. repeat case_match; simpl; tauto.
Qed.

(** What the handler answers with is the inserted row. *)
Lemma postGrievance_Json (req : SubmitRequest) (db db' : Database)
    (w w' : World) (g : Grievance.t) :
  postGrievance req db w = (Done (Json g), db', w') ->
  exists db1,
    DatabaseStorage.createGrievance
      (submitData req (getAutoPriority (submitCategory req))
         (slaDeadlineFrom (nextTime w 0) (getAutoPriority (submitCategory req)))
         (nextTrackingId w))
      db (drawNanoid (drawNanoid (tick w)))
    = (Done g, db1, tick (drawUuid (drawNanoid (drawNanoid (tick w)))))
    /\ grievances db' = grievances db1.
Proof.
  rewrite postGrievance_prefix. intros H.
  apply tryCatch_inv in H. destruct H as [(r & H & Hr) | (e & _ & Hr)];
    [ | discriminate Hr ].
  inversion Hr; subst r; clear Hr.
  apply bind_inv in H.
  destruct H as [(g0 & db1 & w1 & Hc & H) | (e & _ & He)]; [ | discriminate He ].
  apply bind_inv in H.
  destruct H as [(? & db2 & w2 & Hf & H) | (e & _ & He)]; [ | discriminate He ].
  apply bind_inv in H.
  destruct H as [(? & db3 & w3 & Hn & H) | (e & _ & He)]; [ | discriminate He ].
  unfold ret in H. inversion H; subst; clear H.
  apply uploadFiles_keeps in Hf. apply notifySubmitted_keeps in Hn.
  destruct Hf as (_ & Hf & _), Hn as (_ & Hn & _).
  pose proof (createGrievance_Done _ _ _ _ _ _ Hc) as Hd.
  destruct Hd as (_&_&_&_&_&_&_&_&_&_&_&_&_&Hw). subst w1.
  exists db1. split; [exact Hc | congruence].
Qed.

Lemma nextUuid_after_insert (w : World) (i : nat) :
  nextUuid (tick (drawUuid w)) i = nextUuid w (S i).
Proof. unfold nextUuid. cbn. f_equal. lia. Qed.

(** The attachments are stored when the keys they draw are unused and
    distinct, the grievance is there and the uploader is a user. *)
Lemma forEach_createFile_accepted (grievanceId : string)
    (uploadedBy : option string) (fs : list UploadedFile) :
  forall (db : Database) (w : World),
    is_Some (grievances db !! grievanceId) ->
    DatabaseStorage.references (users db) uploadedBy = true ->
    (forall i, (i < length fs)%nat -> files db !! nextUuid w i = None) ->
    NoDup (map (nextUuid w) (seq 0 (length fs))) ->
    exists db' w',
      forEach
        (fun file =>
           DatabaseStorage.createFile
             {| InsertFile.grievanceId := grievanceId;
                InsertFile.fileName := originalname file;
                InsertFile.fileType := mimetype file;
                InsertFile.fileSize := size file;
                InsertFile.filePath := path file;
                InsertFile.uploadedBy := uploadedBy |};;
           ret tt) fs db w
      = (Done tt, db', w')
      /\ notifications db' = notifications db
      /\ (forall i, nextUuid w' i = nextUuid w (length fs + i)).
Proof.
  induction fs as [| f fs IH]; intros db w Hg Hu Hfresh Hnodup.
  - exists db, w. cbn. unfold ret. auto.
  - cbn [forEach length] in *.
    set (data := InsertFile.mk _ _ _ _ _ _).
    assert (E : exists row,
      DatabaseStorage.createFile data db w
      = (Done row,
         mkDatabase (users db) (grievances db) (comments db)
           (<[nextUuid w 0 := row]> (files db)) (notifications db),
         tick (drawUuid w))).
    { unfold DatabaseStorage.createFile. mrun.
      pose proof (Hfresh 0%nat ltac:(lia)) as H0.
      unfold nextUuid in *. rewrite Nat.add_0_r in *.
      rewrite H0. rewrite bool_decide_eq_false_2 by (intros [? ?]; discriminate).
      subst data. cbn [InsertFile.grievanceId InsertFile.uploadedBy
                       DatabaseStorage.references negb].
      rewrite bool_decide_eq_true_2 by exact Hg. rewrite Hu. cbn [negb].
      eauto. }
    destruct E as [row E].
    cbn [seq map] in Hnodup. apply NoDup_cons in Hnodup.
    destruct Hnodup as [Hnotin Hnodup].
    destruct (IH (mkDatabase (users db) (grievances db) (comments db)
                    (<[nextUuid w 0 := row]> (files db)) (notifications db))
                 (tick (drawUuid w))) as (db' & w' & Erest & Hn & Hw).
    + exact Hg.
    + exact Hu.
    + intros i Hi. cbn [files]. rewrite nextUuid_after_insert.
      rewrite lookup_insert_ne; [ apply Hfresh; lia | ].
      intros Heq. apply Hnotin. rewrite Heq.
      apply list_elem_of_In, in_map, in_seq. lia.
    + erewrite map_ext; [ rewrite <- seq_shift, map_map in Hnodup; exact Hnodup | ].
      intros i. cbn. apply nextUuid_after_insert.
    + exists db', w'. split; [ | split ].
      * rewrite (bind_Done _ _ _ _ _ _ tt
                   (bind_Done _ (fun _ => ret tt) _ _ _ _ _ E)).
        exact Erest.
      * exact Hn.
      * intros i. rewrite Hw, nextUuid_after_insert. f_equal; lia.
Qed.

(** A notification is stored when its key is unused, its recipient is a
    user and the grievance it mentions is there. *)
Lemma createNotification_accepts (data : InsertNotification.t)
    (db : Database) (w : World) :
  notifications db !! nextUuid w 0 = None ->
  is_Some (users db !! InsertNotification.userId data) ->
  DatabaseStorage.references (grievances db)
    (InsertNotification.grievanceId data) = true ->
  exists row db',
    DatabaseStorage.createNotification data db w
    = (Done row, db', tick (drawUuid w)).
Proof.
  intros Hid Hu Hg. unfold DatabaseStorage.createNotification. mrun.
  unfold nextUuid in Hid. rewrite Nat.add_0_r in Hid.
  rewrite Hid. rewrite bool_decide_eq_false_2 by (intros [? ?]; discriminate).
  cbn [DatabaseStorage.references negb].
  rewrite bool_decide_eq_true_2 by exact Hu. rewrite Hg. cbn [negb]. eauto.
Qed.

Lemma getAutoPriority_text (category : string) :
  In category grievanceCategoryEnum ->
  Js.to_string (getAutoPriority category) = documentedPriority category.
Proof. intros H. now rewrite (getAutoPriority_enum _ H). Qed.

(** The row a submission in the enumeration is answered with. *)
Lemma postGrievance_row (req : SubmitRequest) (db db' : Database)
    (w w' : World) (g : Grievance.t) :
  In (submitCategory req) grievanceCategoryEnum ->
  postGrievance req db w = (Done (Json g), db', w') ->
  grievances db' !! Grievance.id g = Some g
  /\ Grievance.status g = "submitted"
  /\ Grievance.priority g = documentedPriority (submitCategory req)
  /\ Grievance.slaDeadline g
     = Some (documentedDeadline (documentedPriority (submitCategory req))
               (nextTime w 0))
  /\ Grievance.createdAt g = nextTime w 1.
Proof.
  intros Hc H. apply postGrievance_Json in H. destruct H as (db1 & H & Hg).
  apply createGrievance_Done in H.
  destruct H as (Hd & Hsome & _ & Hcreated & Hstatus & Hprio & _ & _ & _ & Hins & _).
  cbn [submitData InsertGrievance.slaDeadline InsertGrievance.status
       InsertGrievance.priority] in *.
  rewrite (getAutoPriority_enum _ Hc) in Hd.
  rewrite (slaDeadlineFrom_enum _ _ (documentedPriority_label _)) in Hd.
  destruct Hsome as [deadline Hsome]. rewrite Hsome in Hd. cbn in Hd.
  inversion Hd; subst deadline.
  repeat split.
  - rewrite Hg, Hins. apply lookup_insert_eq.
  - exact Hstatus.
  - rewrite Hprio. now apply getAutoPriority_text.
  - exact Hsome.
  - rewrite Hcreated. unfold nextTime. cbn. f_equal; lia.
Qed.

(** A submission in the enumeration that the database accepts is
    answered with a grievance. *)
Lemma postGrievance_accepted (req : SubmitRequest) (db : Database) (w : World) :
  In (submitCategory req) grievanceCategoryEnum ->
  accepts db w req ->
  exists g db' w', postGrievance req db w = (Done (Json g), db', w').
Proof.
  intros Hc (Hid & Htid & Howner & Hfiles & Hnodup & Hnote).
  rewrite postGrievance_prefix. unfold tryCatch.
  set (w1 := drawNanoid (drawNanoid (tick w))).
  set (data := submitData _ _ _ _).
  assert (Hrefs : DatabaseStorage.references (users db)
            (if String.eqb (submitIsAnonymous req) "true"
             then None else Some (submitSub req)) = true).
  { destruct (String.eqb_spec (submitIsAnonymous req) "true") as [_ | Hne];
      [ reflexivity | ].
    destruct Howner as [? | Hu]; [ contradiction | ].
    cbn. now apply bool_decide_eq_true_2. }
  destruct (createGrievance_accepts data db w1
              (documentedDeadline (documentedPriority (submitCategory req))
                 (nextTime w 0)))
    as (g & db1 & E1).
  { subst data. cbn. rewrite (getAutoPriority_enum _ Hc).
    apply slaDeadlineFrom_enum, documentedPriority_label. }
  { exact Hc. }
  { subst data. cbn [submitData InsertGrievance.priority].
    rewrite (getAutoPriority_text _ Hc). apply documentedPriority_label. }
  { subst data. cbn. tauto. }
  { exact Hid. }
  { exact Htid. }
  { exact Hrefs. }
  rewrite (bind_Done _ _ _ _ _ _ _ E1).
  apply createGrievance_Done in E1.
  destruct E1 as (_ & _ & Hgid & _ & _ & _ & Huser & Hanon & _ & Hins & Husers
                  & Hnotes & Hfs & _).
  subst data. cbn [submitData InsertGrievance.userId InsertGrievance.isAnonymous]
    in Huser, Hanon.
  set (w2 := tick (drawUuid w1)).
  assert (Hk : forall i, nextUuid w2 i = nextUuid w (S i)).
  { intros i. unfold nextUuid. cbn. f_equal; lia. }
  assert (Hthere : is_Some (grievances db1 !! Grievance.id g)).
  { rewrite Hins, lookup_insert_eq. eauto. }
  destruct (forEach_createFile_accepted (Grievance.id g)
              (if String.eqb (submitIsAnonymous req) "true"
               then None else Some (submitSub req))
              (submitFiles req) db1 w2) as (db2 & w3 & E2 & Hn2 & Hw3).
  { exact Hthere. }
  { now rewrite Husers. }
  { intros i Hi. rewrite Hfs, Hk. apply (Hfiles i Hi). }
  { erewrite map_ext; [ exact Hnodup | exact Hk ]. }
  assert (E2' : uploadFiles req g db1 w2 = (Done tt, db2, w3)) by exact E2.
  rewrite (bind_Done _ _ _ _ _ _ _ E2').
  apply uploadFiles_keeps in E2'. destruct E2' as (Hu2 & Hg2 & _).
  assert (E3 : exists db3 w4, notifySubmitted req g db2 w3 = (Done tt, db3, w4)).
  { unfold notifySubmitted. rewrite Huser, Hanon.
    destruct (String.eqb_spec (submitIsAnonymous req) "true") as [_ | Hne];
      [ unfold ret; eauto | ].
    cbn [negb andb].
    destruct (Js.truthy_string (submitSub req)); [ | unfold ret; eauto ].
    destruct Howner as [? | Hu]; [ contradiction | ].
    match goal with
    | |- context [DatabaseStorage.createNotification ?d] =>
        destruct (createNotification_accepts d db2 w3) as (row & db3 & E3)
    end.
    - rewrite Hw3, Hk, Hn2, Hnotes. rewrite Nat.add_0_r. exact Hnote.
    - cbn. now rewrite Hu2, Husers.
    - cbn. rewrite Hg2. now apply bool_decide_eq_true_2.
    - rewrite (bind_Done _ _ _ _ _ _ _ E3). unfold ret. eauto. }
  destruct E3 as (db3 & w4 & E3).
  rewrite (bind_Done _ _ _ _ _ _ _ E3). unfold ret. eauto.
Qed.

(** Every run of the handler draws exactly one tracking id. *)
Lemma postGrievance_draws (req : SubmitRequest) (db db' : Database)
    (w w' : World) (r : Outcome (Response Grievance.t)) :
  postGrievance req db w = (r, db', w') ->
  nanoidCalls w' = (nanoidCalls w + 2)%nat.
Proof.
  rewrite postGrievance_prefix. intros H.
  assert (Hbody : forall o,
    (let! grievance :=
       DatabaseStorage.createGrievance
         (submitData req (getAutoPriority (submitCategory req))
            (slaDeadlineFrom (nextTime w 0)
               (getAutoPriority (submitCategory req)))
            (nextTrackingId w)) in
     uploadFiles req grievance;;
     notifySubmitted req grievance;;
     ret (Json grievance)) db (drawNanoid (drawNanoid (tick w)))
    = (o, db', w') -> nanoidCalls w' = (nanoidCalls w + 2)%nat).
  { clear H. intros o H. apply bind_inv in H.
    destruct H as [(g & db1 & w1 & Hc & H) | (e & Hc & _)].
    - apply createGrievance_Done in Hc.
      destruct Hc as (_&_&_&_&_&_&_&_&_&_&_&_&_&Hw1).
      assert (Hk : keeps besideAttachments
                (uploadFiles req g;; notifySubmitted req g;; ret (Json g))).
      { apply keeps_bind; [ apply besideAttachments_trans
                          | apply uploadFiles_keeps | intros _ ].
        apply keeps_bind; [ apply besideAttachments_trans
                          | apply notifySubmitted_keeps | intros _ ].
        apply keeps_ret, besideAttachments_refl. }
      apply Hk in H. destruct H as (_ & _ & _ & Hn).
      rewrite Hn, Hw1. cbn. lia.
    - apply createGrievance_Raised in Hc. destruct Hc as [_ Hn].
      rewrite Hn. cbn. lia. }
  apply tryCatch_inv in H.
  destruct H as [(? & H & _) | (? & H & _)]; eapply Hbody, H.
Qed.

(** When the tracking id drawn is taken the submission fails there. *)
Lemma postGrievance_collision (req : SubmitRequest) (db : Database) (w : World) :
  DatabaseStorage.trackingIdTaken db (nextTrackingId w) = true ->
  exists w',
    postGrievance req db w
    = (Done (Fail 500 "Failed to create grievance"), db, w').
Proof.
  intros Ht. rewrite postGrievance_prefix. unfold tryCatch.
  match goal with
  | |- context [DatabaseStorage.createGrievance ?d] =>
      destruct (createGrievance_taken d db (drawNanoid (drawNanoid (tick w))) Ht)
        as (e & w' & E)
  end.
  rewrite (bind_Raised _ _ _ _ _ _ _ E). eauto.
Qed.

(* ===================================================================== *)
(** * Submission *)
(* ===================================================================== *)

Lemma emptyDb_accepts : accepts emptyDb exampleWorld urgentRequest.
Proof.
  unfold accepts.
  split; [ reflexivity | ].
  split; [ reflexivity | ].
  split; [ right; eexists; vm_compute; reflexivity | ].
  split; [ intros i Hi; cbn in Hi; lia | ].
  split; [ constructor | reflexivity ].
Qed.

(** C1 (as amended).  For a submission whose category is in the
    enumeration: when the database accepts its rows the handler answers
    with a grievance; and the grievance it answers with is persisted, has
    status submitted, the documented priority of the category, and an SLA
    deadline equal to the documented offset of that priority added to the
    clock reading the handler took before the insert.  The creation time
    is the next reading, taken by the database, so the deadline is the
    documented deadline counted from [createdAt] exactly when the two
    readings coincide. *)
Theorem postGrievance_deadline_from_call_time (req : SubmitRequest)
    (db : Database) (w : World) :
  In (submitCategory req) grievanceCategoryEnum ->
  let priority := documentedPriority (submitCategory req) in
  (accepts db w req ->
   exists g db' w', postGrievance req db w = (Done (Json g), db', w'))
  /\ (forall g db' w',
        postGrievance req db w = (Done (Json g), db', w') ->
        grievances db' !! Grievance.id g = Some g
        /\ Grievance.status g = "submitted"
        /\ Grievance.priority g = priority
        /\ Grievance.slaDeadline g
           = Some (documentedDeadline priority (nextTime w 0))
        /\ Grievance.createdAt g = nextTime w 1
        /\ (Grievance.slaDeadline g
            = Some (documentedDeadline priority (Grievance.createdAt g))
            <-> nextTime w 0 = nextTime w 1)).
Proof.
  intros Hc priority. split.
  - now apply postGrievance_accepted.
  - intros g db' w' H.
    destruct (postGrievance_row _ _ _ _ _ _ Hc H)
      as (Hp & Hs & Hprio & Hsla & Hcreated).
    repeat split; try assumption.
    + rewrite Hsla, Hcreated. unfold documentedDeadline. intros Heq.
      injection Heq as Heq.
      apply (Z.add_cancel_r _ _ (documentedOffsetHours priority * hour_ms)).
      exact Heq.
    + rewrite Hsla, Hcreated. now intros ->.
Qed.

Lemma postGrievance_deadline_from_call_time_witness :
  In (submitCategory urgentRequest) grievanceCategoryEnum
  /\ accepts emptyDb exampleWorld urgentRequest
  /\ exists g db' w',
       postGrievance urgentRequest emptyDb exampleWorld
       = (Done (Json g), db', w')
       /\ Grievance.status g = "submitted"
       /\ Grievance.priority g = "critical"
       /\ Grievance.slaDeadline g = Some (1000 + 24 * hour_ms)
       /\ Grievance.createdAt g = 1001.
Proof.
  assert (Hc : In (submitCategory urgentRequest) grievanceCategoryEnum)
    by (simpl; tauto).
  split; [ exact Hc | ].
  split; [ exact emptyDb_accepts | ].
  destruct (postGrievance_deadline_from_call_time urgentRequest emptyDb
              exampleWorld Hc) as [Hlive Hrow].
  destruct (Hlive emptyDb_accepts) as (g & db' & w' & E).
  destruct (Hrow g db' w' E) as (_ & Hs & Hp & Hsla & Hcreated & _).
  exists g, db', w'. repeat split; assumption.
Defined.

(** C1, the scenario: a submission with category urgent whose handler
    reads the clock at [T0] is answered with priority critical, deadline
    [T0 + 24h] and status submitted. *)
Example postGrievance_urgent (req : SubmitRequest) (db db' : Database)
    (w w' : World) (g : Grievance.t) :
  submitCategory req = "urgent" ->
  postGrievance req db w = (Done (Json g), db', w') ->
  Grievance.priority g = "critical"
  /\ Grievance.slaDeadline g = Some (nextTime w 0 + 24 * hour_ms)
  /\ Grievance.status g = "submitted".
Proof.
  intros Hu H.
  assert (Hc : In (submitCategory req) grievanceCategoryEnum)
    by (rewrite Hu; simpl; tauto).
  destruct (postGrievance_row _ _ _ _ _ _ Hc H) as (_ & Hs & Hp & Hsla & _).
  rewrite Hu in Hp, Hsla. auto.
Qed.

(** C1 as stated fails: the deadline is not counted from [createdAt] once
    the clock has advanced between the handler and the insert. *)
Lemma postGrievance_deadline_not_from_createdAt :
  ~ (forall req db w g db' w',
       In (submitCategory req) grievanceCategoryEnum ->
       postGrievance req db w = (Done (Json g), db', w') ->
       Grievance.slaDeadline g
       = Some (documentedDeadline (documentedPriority (submitCategory req))
                 (Grievance.createdAt g))).
Proof.
  intros Hclaim.
  assert (Hc : In (submitCategory urgentRequest) grievanceCategoryEnum)
    by (simpl; tauto).
  destruct (postGrievance_accepted urgentRequest emptyDb exampleWorld Hc
              emptyDb_accepts) as (g & db' & w' & E).
  specialize (Hclaim _ _ _ _ _ _ Hc E).
  destruct (postGrievance_row _ _ _ _ _ _ Hc E) as (_ & _ & _ & Hsla & Hcreated).
  rewrite Hsla, Hcreated in Hclaim. vm_compute in Hclaim. discriminate Hclaim.
Qed.

(** C3 (as amended).  The handler does not validate the category.  For a
    category outside the enumeration it still reads the clock for the
    deadline and draws a tracking id, with the priority defaulted to
    medium unless the category names a property of [Object.prototype];
    the insert is then refused by the enum type of the category column,
    nothing is persisted, and the answer is the generic failure 500. *)
Theorem postGrievance_unknown_category (req : SubmitRequest) (db : Database)
    (w : World) :
  ~ In (submitCategory req) grievanceCategoryEnum ->
  (Js.inherited (submitCategory req) = false ->
   getAutoPriority (submitCategory req) = Js.Prim "medium")
  /\ exists w',
       postGrievance req db w
       = (Done (Fail 500 "Failed to create grievance"), db, w')
       /\ ticks w' = S (ticks w)
       /\ nanoidCalls w' = (nanoidCalls w + 2)%nat.
Proof.
  intros Hc. split; [ now apply getAutoPriority_default | ].
  destruct (slaDeadlineFrom_getAutoPriority (nextTime w 0) (submitCategory req))
    as [deadline Hd].
  rewrite postGrievance_prefix. unfold tryCatch.
  erewrite bind_Raised;
    [ | apply createGrievance_bad_category with (deadline := deadline);
        [ exact Hd | exact Hc ] ].
  eexists. split; [ reflexivity | ]. cbn. repeat split; lia.
Qed.

Lemma postGrievance_unknown_category_witness :
  ~ In (submitCategory otherRequest) grievanceCategoryEnum
  /\ getAutoPriority "other" = Js.Prim "medium"
  /\ exists w',
       postGrievance otherRequest exampleDb exampleWorld
       = (Done (Fail 500 "Failed to create grievance"), exampleDb, w').
Proof.
  assert (Hc : ~ In (submitCategory otherRequest) grievanceCategoryEnum).
  { simpl. intros H. repeat (destruct H as [H | H]; [ discriminate H | ]).
    exact H. }
  destruct (postGrievance_unknown_category otherRequest exampleDb exampleWorld
              Hc) as [Hp (w' & E & _)].
  split; [ exact Hc | ]. split; [ apply Hp; reflexivity | ].
  exists w'. exact E.
Defined.

(** C3 as stated fails: a ValidationError is answered with status 400,
    and no submission with an unknown category is. *)
Lemma postGrievance_unknown_category_no_validation_error :
  ~ (forall req db w,
       ~ In (submitCategory req) grievanceCategoryEnum ->
       exists message w',
         postGrievance req db w = (Done (Fail 400 message), db, w')).
Proof.
  intros Hclaim.
  assert (Hc : ~ In (submitCategory otherRequest) grievanceCategoryEnum).
  { simpl. intros H. repeat (destruct H as [H | H]; [ discriminate H | ]).
    exact H. }
  destruct (Hclaim otherRequest exampleDb exampleWorld Hc) as (m & w' & E).
  rewrite postGrievance_prefix in E. unfold tryCatch in E.
  erewrite bind_Raised in E;
    [ | apply createGrievance_bad_category with (deadline := 1000 + 72 * hour_ms);
        [ reflexivity | exact Hc ] ].
  discriminate E.
Qed.

(** C4 (as amended).  A submission generates its tracking id once: every
    run of the handler draws exactly two [nanoid]s, whatever happens
    afterwards; and when that id is already taken the insert is refused,
    nothing is persisted and the answer is the generic failure 500. *)
Theorem postGrievance_no_retry (req : SubmitRequest) (db db' : Database)
    (w w' : World) (r : Outcome (Response Grievance.t)) :
  postGrievance req db w = (r, db', w') ->
  nanoidCalls w' = (nanoidCalls w + 2)%nat
  /\ (DatabaseStorage.trackingIdTaken db (nextTrackingId w) = true ->
      r = Done (Fail 500 "Failed to create grievance") /\ db' = db).
Proof.
  intros H. split.
  - eapply postGrievance_draws, H.
  - intros Ht. destruct (postGrievance_collision req db w Ht) as (w2 & E).
    rewrite E in H. inversion H; subst. auto.
Qed.

Lemma postGrievance_no_retry_witness :
  DatabaseStorage.trackingIdTaken exampleDb (nextTrackingId exampleWorld) = true
  /\ exists w',
       postGrievance urgentRequest exampleDb exampleWorld
       = (Done (Fail 500 "Failed to create grievance"), exampleDb, w')
       /\ nanoidCalls w' = 2%nat.
Proof.
  assert (Ht : DatabaseStorage.trackingIdTaken exampleDb
                 (nextTrackingId exampleWorld) = true) by (vm_compute; reflexivity).
  split; [ exact Ht | ].
  destruct (postGrievance urgentRequest exampleDb exampleWorld)
    as [[r db'] w'] eqn:E.
  destruct (postGrievance_no_retry _ _ _ _ _ _ E) as [Hn Hfail].
  destruct (Hfail Ht) as [-> ->].
  exists w'. split; [ reflexivity | exact Hn ].
Defined.

(** C4 as stated fails: on a collision the handler neither draws a
    further tracking id nor answers with a grievance, even when the next
    id would have been free. *)
Lemma postGrievance_fails_on_first_collision :
  ~ (forall req db w r db' w',
       DatabaseStorage.trackingIdTaken db (nextTrackingId w) = true ->
       DatabaseStorage.trackingIdTaken db
         (nextTrackingId (drawNanoid (drawNanoid w))) = false ->
       postGrievance req db w = (r, db', w') ->
       (nanoidCalls w + 2 < nanoidCalls w')%nat
       \/ exists g, r = Done (Json g)).
Proof.
  intros Hclaim.
  destruct (postGrievance urgentRequest exampleDb exampleWorld)
    as [[r db'] w'] eqn:E.
  assert (Ht : DatabaseStorage.trackingIdTaken exampleDb
                 (nextTrackingId exampleWorld) = true) by (vm_compute; reflexivity).
  assert (Hf : DatabaseStorage.trackingIdTaken exampleDb
                 (nextTrackingId (drawNanoid (drawNanoid exampleWorld))) = false)
    by (vm_compute; reflexivity).
  destruct (Hclaim _ _ _ _ _ _ Ht Hf E) as [Hmore | [g Hg]].
  - apply postGrievance_draws in E. lia.
  - destruct (postGrievance_collision urgentRequest exampleDb exampleWorld Ht)
      as (w2 & E2).
    rewrite E2 in E. rewrite Hg in E. discriminate E.
Qed.

(** C6, at the failing input: the category constructor is outside the
    enumeration, and [getAutoPriority] answers the function inherited
    from [Object.prototype] instead of medium. *)
Theorem getAutoPriority_constructor :
  ~ In "constructor" grievanceCategoryEnum
  /\ getAutoPriority "constructor" = Js.Builtin "constructor"
  /\ getAutoPriority "constructor" <> Js.Prim "medium".
Proof.
  split; [ | split; [ reflexivity | discriminate ] ].
  simpl. intros H. repeat (destruct H as [H | H]; [ discriminate H | ]).
  exact H.
Qed.

(** C7, at the failing input: the priority constructor is not one of the
    four, and the deadline computed for it is an Invalid Date instead of
    the reference time plus 72 hours. *)
Theorem slaDeadlineFrom_constructor (now : Z) :
  ~ In "constructor" grievancePriorityEnum
  /\ slaDeadlineFrom now (Js.Prim "constructor") = Js.InvalidDate
  /\ slaDeadlineFrom now (Js.Prim "constructor")
     <> Js.DateMs (documentedDeadline "constructor" now).
Proof.
  split; [ | split; [ reflexivity | discriminate ] ].
  simpl. intros H. repeat (destruct H as [H | H]; [ discriminate H | ]).
  exact H.
Qed.

(* ===================================================================== *)
(** * Status changes *)
(* ===================================================================== *)

Lemma getUser_run (id : string) (db : Database) (w : World) :
  DatabaseStorage.getUser id db w = (Done (users db !! id), db, w).
Proof. reflexivity. Qed.

Lemma resolving_eqb (status : string) :
  String.eqb status "resolved" || String.eqb status "closed" = true
  <-> resolving status.
Proof.
  unfold resolving. rewrite orb_true_iff, !String.eqb_eq. tauto.
Qed.

Lemma resolving_label (status : string) :
  resolving status -> In status grievanceStatusEnum.
Proof. intros [-> | ->]; simpl; tauto. Qed.

(** [resolvedAtFor] reads the clock exactly for the resolving statuses. *)
Lemma resolvedAtFor_resolving (status : string) (db : Database) (w : World) :
  resolving status ->
  resolvedAtFor status db w = (Done (Some (nextTime w 0)), db, tick w).
Proof.
  intros H. unfold resolvedAtFor, nextTime.
  apply resolving_eqb in H. rewrite H, Nat.add_0_r. reflexivity.
Qed.

Lemma resolvedAtFor_other (status : string) (db : Database) (w : World) :
  ~ resolving status -> resolvedAtFor status db w = (Done None, db, w).
Proof.
  intros H. unfold resolvedAtFor.
  destruct (String.eqb status "resolved" || String.eqb status "closed") eqn:E;
    [ | reflexivity ].
  apply resolving_eqb in E. contradiction.
Qed.

(** The update writes the row of [id], when there is one and the status
    is a label, and nothing else. *)
Lemma updateGrievanceStatus_inv (id status : string) (resolvedAt : option Z)
    (db db' : Database) (w w' : World) (o : Outcome (option Grievance.t)) :
  DatabaseStorage.updateGrievanceStatus id status resolvedAt db w = (o, db', w') ->
  w' = tick w
  /\ ((db' = db /\ (o = Done None \/ exists e, o = Raised e))
      \/ exists g,
           grievances db !! id = Some g
           /\ o = Done (Some (Grievance.setStatus status (nextTime w 0) resolvedAt g))
           /\ db' = mkDatabase (users db)
                      (<[id := Grievance.setStatus status (nextTime w 0) resolvedAt g]>
                         (grievances db))
                      (comments db) (files db) (notifications db)).
Proof.
  unfold DatabaseStorage.updateGrievanceStatus, nextTime. rewrite Nat.add_0_r.
  mrun. cbn [clock ticks tick]. intros H.
  repeat case_match; simplify_eq; split; eauto 10.
Qed.

Lemma updateGrievanceStatus_found (id status : string) (resolvedAt : option Z)
    (db : Database) (w : World) (g : Grievance.t) :
  In status grievanceStatusEnum ->
  grievances db !! id = Some g ->
  DatabaseStorage.updateGrievanceStatus id status resolvedAt db w
  = (Done (Some (Grievance.setStatus status (nextTime w 0) resolvedAt g)),
     mkDatabase (users db)
       (<[id := Grievance.setStatus status (nextTime w 0) resolvedAt g]>
          (grievances db))
       (comments db) (files db) (notifications db),
     tick w).
Proof.
  intros Hs Hg. apply includes_In in Hs.
  unfold DatabaseStorage.updateGrievanceStatus, DatabaseStorage.isLabel, nextTime.
  rewrite Nat.add_0_r. mrun. rewrite Hs. cbn [negb]. cbv beta. rewrite Hg.
  reflexivity.
Qed.

(** The continuation of both PATCH handlers once the update is done. *)
Lemma answer_keeps (grievance : option Grievance.t) (id title message : string) :
  keeps besideAttachments
    (match grievance with
     | None => readUserIdOfUndefined
     | Some g => notifyOwner g id title message;; ret (Json g)
     end).
Proof.
  destruct grievance as [g | ].
  - apply keeps_bind; [ apply besideAttachments_trans
                      | apply notifyOwner_keeps | intros _ ].
    apply keeps_ret, besideAttachments_refl.
  - intros db w o db' w' H. unfold readUserIdOfUndefined, throw in H.
    inversion H; subst. apply besideAttachments_refl.
Qed.

(** What a status request does to the table of grievances: nothing, or
    the update of the row of [id] with the new status and, for a resolving
    status only, the call time as resolution timestamp. *)
Lemma patchGrievanceStatus_table (req : PatchRequest) (db db' : Database)
    (w w' : World) (r : Outcome (Response Grievance.t)) :
  patchGrievanceStatus req db w = (r, db', w') ->
  grievances db' = grievances db
  \/ exists g resolvedAt now,
       grievances db !! patchId req = Some g
       /\ grievances db'
          = <[patchId req := Grievance.setStatus (patchValue req) now resolvedAt g]>
              (grievances db)
       /\ (resolvedAt = None
           \/ (resolving (patchValue req) /\ resolvedAt = Some (nextTime w 0))).
Proof.
  unfold patchGrievanceStatus. intros H.
  match type of H with
  | tryCatch _ ?b _ _ = _ => assert (Hbody : exists o, b db w = (o, db', w'))
  end.
  { apply tryCatch_inv in H. destruct H as [(? & H & _) | (? & H & _)]; eauto. }
  clear H. destruct Hbody as [o H].
  rewrite (bind_Done _ _ _ _ _ _ _ (getUser_run _ db w)) in H.
  destruct (users db !! patchSub req) as [u | ];
    [ | unfold ret in H; inversion H; auto ].
  destruct (negb (Js.includes staffRoles (User.role u)));
    [ unfold ret in H; inversion H; auto | ].
  assert (Hra : exists ra w1,
            resolvedAtFor (patchValue req) db w = (Done ra, db, w1)
            /\ (ra = None
                \/ (resolving (patchValue req) /\ ra = Some (nextTime w 0)))).
  { destruct (String.eqb (patchValue req) "resolved"
              || String.eqb (patchValue req) "closed") eqn:E.
    - apply resolving_eqb in E. rewrite (resolvedAtFor_resolving _ _ _ E). eauto 6.
    - rewrite resolvedAtFor_other; [ eauto | ].
      intros Hr. apply resolving_eqb in Hr. congruence. }
  destruct Hra as (ra & w1 & Era & Hra).
  rewrite (bind_Done _ _ _ _ _ _ _ Era) in H.
  apply bind_inv in H.
  destruct H as [(g' & db1 & w2 & Hu & H) | (e & Hu & _)].
  - apply updateGrievanceStatus_inv in Hu.
    apply answer_keeps in H. destruct H as (_ & Hg & _).
    destruct Hu as [_ [[-> _] | (g & Hfound & _ & ->)]]; [ now left | ].
    right. exists g, ra, (nextTime w1 0). rewrite Hg. auto.
  - apply updateGrievanceStatus_inv in Hu.
    destruct Hu as [_ [[-> _] | (g & _ & Ho & _)]]; [ now left | discriminate Ho ].
Qed.

(** An authorised request with a status of the enumeration updates the
    row of an existing grievance. *)
Lemma patchGrievanceStatus_update (req : PatchRequest) (db db' : Database)
    (w w' : World) (r : Outcome (Response Grievance.t)) (u : User.t)
    (g : Grievance.t) :
  users db !! patchSub req = Some u ->
  In (User.role u) staffRoles ->
  In (patchValue req) grievanceStatusEnum ->
  grievances db !! patchId req = Some g ->
  patchGrievanceStatus req db w = (r, db', w') ->
  exists resolvedAt now,
    grievances db' !! patchId req
    = Some (Grievance.setStatus (patchValue req) now resolvedAt g)
    /\ (resolving (patchValue req) -> resolvedAt = Some (nextTime w 0))
    /\ (~ resolving (patchValue req) -> resolvedAt = None).
Proof.
  intros Hu Hrole Hlabel Hg. unfold patchGrievanceStatus. intros H.
  match type of H with
  | tryCatch _ ?b _ _ = _ => assert (Hbody : exists o, b db w = (o, db', w'))
  end.
  { apply tryCatch_inv in H. destruct H as [(? & H & _) | (? & H & _)]; eauto. }
  clear H. destruct Hbody as [o H].
  rewrite (bind_Done _ _ _ _ _ _ _ (getUser_run _ db w)) in H.
  rewrite Hu in H. apply includes_In in Hrole. rewrite Hrole in H. cbn [negb] in H.
  assert (Hra : exists ra w1,
            resolvedAtFor (patchValue req) db w = (Done ra, db, w1)
            /\ (resolving (patchValue req) -> ra = Some (nextTime w 0))
            /\ (~ resolving (patchValue req) -> ra = None)).
  { destruct (String.eqb (patchValue req) "resolved"
              || String.eqb (patchValue req) "closed") eqn:E.
    - apply resolving_eqb in E. rewrite (resolvedAtFor_resolving _ _ _ E).
      do 2 eexists. split; [ reflexivity | ]. split; [ auto | contradiction ].
    - assert (Hn : ~ resolving (patchValue req)).
      { intros Hr. apply resolving_eqb in Hr. congruence. }
      rewrite (resolvedAtFor_other _ _ _ Hn).
      do 2 eexists. split; [ reflexivity | ]. split; [ contradiction | auto ]. }
  destruct Hra as (ra & w1 & Era & Hra1 & Hra2).
  rewrite (bind_Done _ _ _ _ _ _ _ Era) in H.
  rewrite (bind_Done _ _ _ _ _ _ _
             (updateGrievanceStatus_found _ _ ra db w1 g Hlabel Hg)) in H.
  apply (answer_keeps (Some _)) in H. destruct H as (_ & Hkept & _).
  exists ra, (nextTime w1 0). rewrite Hkept. cbn [grievances].
  rewrite lookup_insert_eq. auto.
Qed.

(** C2 (as amended).  For every status request: (1) when the actor is
    staff, faculty or administrator, the grievance exists and the new
    status is resolved or closed, the resolution timestamp afterwards is
    the time of this call, whatever it was before; (2) a status that is
    neither resolved nor closed leaves every resolution timestamp as it
    was; (3) a resolution timestamp that is set stays set; (4) no other
    grievance is touched. *)
Theorem patchGrievanceStatus_resolvedAt (req : PatchRequest)
    (db db' : Database) (w w' : World) (r : Outcome (Response Grievance.t)) :
  patchGrievanceStatus req db w = (r, db', w') ->
  (forall u g,
     users db !! patchSub req = Some u ->
     In (User.role u) staffRoles ->
     resolving (patchValue req) ->
     grievances db !! patchId req = Some g ->
     exists g',
       grievances db' !! patchId req = Some g'
       /\ Grievance.resolvedAt g' = Some (nextTime w 0)
       /\ Grievance.status g' = patchValue req)
  /\ (~ resolving (patchValue req) ->
      forall k,
        Grievance.resolvedAt <$> grievances db' !! k
        = Grievance.resolvedAt <$> grievances db !! k)
  /\ (forall k g,
        grievances db !! k = Some g ->
        is_Some (Grievance.resolvedAt g) ->
        exists g',
          grievances db' !! k = Some g' /\ is_Some (Grievance.resolvedAt g'))
  /\ (forall k, k <> patchId req -> grievances db' !! k = grievances db !! k).
Proof.
  intros H. split; [ | split; [ | split ] ].
  - intros u g Hu Hrole Hres Hg.
    destruct (patchGrievanceStatus_update _ _ _ _ _ _ u g Hu Hrole
                (resolving_label _ Hres) Hg H) as (ra & now & Hrow & Hra & _).
    eexists. split; [ exact Hrow | ]. rewrite (Hra Hres). auto.
  - intros Hres k. apply patchGrievanceStatus_table in H.
    destruct H as [-> | (g & ra & now & Hg & -> & Hra)]; [ reflexivity | ].
    destruct Hra as [-> | [? _]]; [ | contradiction ].
    destruct (decide (k = patchId req)) as [-> | Hne].
    + now rewrite lookup_insert_eq, Hg.
    + now rewrite lookup_insert_ne.
  - intros k g Hg Hset. apply patchGrievanceStatus_table in H.
    destruct H as [-> | (g0 & ra & now & Hg0 & -> & Hra)]; [ eauto | ].
    destruct (decide (k = patchId req)) as [-> | Hne].
    + rewrite lookup_insert_eq. eexists. split; [ reflexivity | ].
      rewrite Hg in Hg0. inversion Hg0; subst g0.
      destruct ra; cbn; [ eauto | exact Hset ].
    + rewrite lookup_insert_ne by auto. eauto.
  - intros k Hne. apply patchGrievanceStatus_table in H.
    destruct H as [-> | (g0 & ra & now & Hg0 & -> & Hra)]; [ reflexivity | ].
    now rewrite lookup_insert_ne.
Qed.

Lemma patchGrievanceStatus_resolvedAt_witness :
  exists r db' w' g',
    patchGrievanceStatus resolveRequest exampleDb exampleWorld = (r, db', w')
    /\ grievances db' !! "g-1" = Some g'
    /\ Grievance.resolvedAt g' = Some 1000
    /\ Grievance.status g' = "resolved".
Proof.
  destruct (patchGrievanceStatus resolveRequest exampleDb exampleWorld)
    as [[r db'] w'] eqn:E.
  destruct (patchGrievanceStatus_resolvedAt _ _ _ _ _ _ E) as [Hmove _].
  destruct (Hmove (User.mk "sam" "staff" None) exampleGrievance)
    as (g' & Hg' & Hres & Hst).
  - vm_compute. reflexivity.
  - simpl. tauto.
  - left. reflexivity.
  - vm_compute. reflexivity.
  - exists r, db', w', g'. repeat split; assumption.
Defined.

(** C2 as stated fails: a second request with status resolved moves the
    resolution timestamp to the time of the second call. *)
Lemma patchGrievanceStatus_moves_resolvedAt :
  ~ (forall req db w r1 db1 w1 r2 db2 w2,
       patchValue req = "resolved" ->
       patchGrievanceStatus req db w = (r1, db1, w1) ->
       patchGrievanceStatus req db1 w1 = (r2, db2, w2) ->
       Grievance.resolvedAt <$> grievances db2 !! patchId req
       = Grievance.resolvedAt <$> grievances db1 !! patchId req).
Proof.
  intros Hclaim.
  destruct (patchGrievanceStatus resolveRequest exampleDb exampleWorld)
    as [[r1 db1] w1] eqn:E1.
  destruct (patchGrievanceStatus resolveRequest db1 w1) as [[r2 db2] w2] eqn:E2.
  specialize (Hclaim resolveRequest _ _ _ _ _ _ _ _ eq_refl E1 E2).
  vm_compute in E1. inversion E1; subst r1 db1 w1; clear E1.
  vm_compute in E2. inversion E2; subst r2 db2 w2; clear E2.
  vm_compute in Hclaim. discriminate Hclaim.
Qed.

(* ===================================================================== *)
(** * Priority changes *)
(* ===================================================================== *)

Lemma calculateSlaDeadline_run (priority : Js.value string) (db : Database)
    (w : World) :
  calculateSlaDeadline priority db w
  = (Done (slaDeadlineFrom (nextTime w 0) priority), db, tick w).
Proof. unfold nextTime. rewrite Nat.add_0_r. reflexivity. Qed.

Lemma updateGrievancePriority_found (id priority : string) (deadline : Z)
    (db : Database) (w : World) (g : Grievance.t) :
  In priority grievancePriorityEnum ->
  grievances db !! id = Some g ->
  DatabaseStorage.updateGrievancePriority id priority (Js.DateMs deadline) db w
  = (Done (Some (Grievance.setPriority priority deadline (nextTime w 0) g)),
     mkDatabase (users db)
       (<[id := Grievance.setPriority priority deadline (nextTime w 0) g]>
          (grievances db))
       (comments db) (files db) (notifications db),
     tick w).
Proof.
  intros Hp Hg. apply includes_In in Hp.
  unfold DatabaseStorage.updateGrievancePriority, DatabaseStorage.isLabel, nextTime.
  rewrite Nat.add_0_r. mrun. rewrite Hp. cbn [negb]. cbv beta. rewrite Hg.
  reflexivity.
Qed.

(** An administrator's request with a priority of the enumeration
    rewrites the row of an existing grievance. *)
Lemma patchGrievancePriority_update (req : PatchRequest) (db db' : Database)
    (w w' : World) (r : Outcome (Response Grievance.t)) (u : User.t)
    (g : Grievance.t) :
  users db !! patchSub req = Some u ->
  User.role u = "administrator" ->
  In (patchValue req) grievancePriorityEnum ->
  grievances db !! patchId req = Some g ->
  patchGrievancePriority req db w = (r, db', w') ->
  grievances db' !! patchId req
  = Some (Grievance.setPriority (patchValue req)
            (documentedDeadline (patchValue req) (nextTime w 0))
            (nextTime w 1) g).
Proof.
  intros Hu Hrole Hlabel Hg. unfold patchGrievancePriority. intros H.
  match type of H with
  | tryCatch _ ?b _ _ = _ => assert (Hbody : exists o, b db w = (o, db', w'))
  end.
  { apply tryCatch_inv in H. destruct H as [(? & H & _) | (? & H & _)]; eauto. }
  clear H. destruct Hbody as [o H].
  rewrite (bind_Done _ _ _ _ _ _ _ (getUser_run _ db w)) in H.
  rewrite Hu, Hrole, String.eqb_refl in H. cbn [negb] in H.
  rewrite (bind_Done _ _ _ _ _ _ _ (calculateSlaDeadline_run _ db w)) in H.
  rewrite (slaDeadlineFrom_enum _ _ Hlabel) in H.
  rewrite (bind_Done _ _ _ _ _ _ _
             (updateGrievancePriority_found _ _ _ db (tick w) g Hlabel Hg)) in H.
  apply (answer_keeps (Some _)) in H. destruct H as (_ & Hkept & _).
  rewrite Hkept. cbn [grievances]. rewrite lookup_insert_eq.
  do 2 f_equal. unfold nextTime. cbn. f_equal; lia.
Qed.

(** C5.  After a priority request made by an administrator on an existing
    grievance, with the clock reading [T] at the call, the SLA deadline of
    the grievance is [T] plus the documented offset of the new priority
    (24, 48, 72 or 120 hours): it is counted from the call, and the
    creation time, which the request leaves as it was, plays no part. *)
Theorem patchGrievancePriority_deadline (req : PatchRequest)
    (db db' : Database) (w w' : World) (r : Outcome (Response Grievance.t))
    (u : User.t) (g : Grievance.t) :
  users db !! patchSub req = Some u ->
  User.role u = "administrator" ->
  grievances db !! patchId req = Some g ->
  In (patchValue req) grievancePriorityEnum ->
  patchGrievancePriority req db w = (r, db', w') ->
  exists g',
    grievances db' !! patchId req = Some g'
    /\ Grievance.slaDeadline g'
       = Some (nextTime w 0 + documentedOffsetHours (patchValue req) * hour_ms)
    /\ In (documentedOffsetHours (patchValue req)) [24; 48; 72; 120]
    /\ Grievance.priority g' = patchValue req
    /\ Grievance.createdAt g' = Grievance.createdAt g.
Proof.
  intros Hu Hrole Hg Hlabel H.
  rewrite (patchGrievancePriority_update _ _ _ _ _ _ u g Hu Hrole Hlabel Hg H).
  eexists. split; [ reflexivity | ]. cbn. repeat split.
  simpl in Hlabel. destruct Hlabel as [<- | [<- | [<- | [<- | []]]]];
    simpl; tauto.
Qed.

Lemma patchGrievancePriority_deadline_witness :
  exists r db' w' g',
    patchGrievancePriority lowRequest exampleDb exampleWorld = (r, db', w')
    /\ grievances db' !! "g-1" = Some g'
    /\ Grievance.slaDeadline g' = Some (1000 + 120 * hour_ms)
    /\ Grievance.priority g' = "low"
    /\ Grievance.createdAt g' = 100.
Proof.
  destruct (patchGrievancePriority lowRequest exampleDb exampleWorld)
    as [[r db'] w'] eqn:E.
  destruct (patchGrievancePriority_deadline lowRequest exampleDb db'
              exampleWorld w' r (User.mk "root" "administrator" None)
              exampleGrievance)
    as (g' & Hg' & Hsla & _ & Hp & Hc).
  - vm_compute. reflexivity.
  - reflexivity.
  - vm_compute. reflexivity.
  - simpl. tauto.
  - exact E.
  - exists r, db', w', g'. repeat split; assumption.
Defined.

(* ===================================================================== *)
(** * Comments *)
(* ===================================================================== *)

(** What an insert into [comments] does in each of its outcomes. *)
Lemma createComment_inv (data : InsertComment.t) (db db' : Database)
    (w w' : World) (o : Outcome Comment.t) :
  DatabaseStorage.createComment data db w = (o, db', w') ->
  (db' = db /\ exists e, o = Raised e)
  \/ exists c,
       o = Done c
       /\ Comment.id c = nextUuid w 0
       /\ Comment.grievanceId c = InsertComment.grievanceId data
       /\ Comment.userId c = InsertComment.userId data
       /\ Comment.content c = InsertComment.content data
       /\ Comment.isInternal c = InsertComment.isInternal data
       /\ comments db !! Comment.id c = None
       /\ comments db' = <[Comment.id c := c]> (comments db).
Proof.
  unfold DatabaseStorage.createComment, nextUuid. rewrite Nat.add_0_r.
  mrun. intros H. repeat case_match; simplify_eq; eauto 6.
  right. eexists. repeat split; cbn; eauto.
  match goal with
  | Hk : bool_decide _ = false |- _ => apply bool_decide_eq_false in Hk
  end.
  now apply eq_None_not_Some.
Qed.

Lemma createComment_accepts (data : InsertComment.t) (db : Database)
    (w : World) :
  comments db !! nextUuid w 0 = None ->
  is_Some (grievances db !! InsertComment.grievanceId data) ->
  is_Some (users db !! InsertComment.userId data) ->
  exists c db',
    DatabaseStorage.createComment data db w = (Done c, db', tick (drawUuid w)).
Proof.
  intros Hid Hg Hu. unfold DatabaseStorage.createComment. mrun.
  unfold nextUuid in Hid. rewrite Nat.add_0_r in Hid.
  rewrite Hid. rewrite bool_decide_eq_false_2 by (intros [? ?]; discriminate).
  cbn [DatabaseStorage.references negb].
  rewrite !bool_decide_eq_true_2 by assumption. cbn [negb]. eauto.
Qed.

(** C10.  Whatever the request, its sender and its body: every comment
    in the table after the handler was there before or is the one the
    handler stored, which is not internal; the comment the handler answers
    with is stored, carries the content, grievance and author of the
    request, and is not internal; and the handler does answer with a
    comment when the key drawn is unused, the grievance exists and the
    author is a user. *)
Theorem postComment_not_internal (req : CommentRequest) (db db' : Database)
    (w w' : World) (r : Outcome (Response Comment.t)) :
  postComment req db w = (r, db', w') ->
  (forall k c,
     comments db' !! k = Some c ->
     comments db !! k = Some c \/ Comment.isInternal c = false)
  /\ (forall c,
        r = Done (Json c) ->
        comments db' !! Comment.id c = Some c
        /\ Comment.isInternal c = false
        /\ Comment.content c = commentContent req
        /\ Comment.grievanceId c = commentGrievanceId req
        /\ Comment.userId c = commentSub req)
  /\ (comments db !! nextUuid w 0 = None ->
      is_Some (grievances db !! commentGrievanceId req) ->
      is_Some (users db !! commentSub req) ->
      exists c, r = Done (Json c)).
Proof.
  unfold postComment. intros H.
  set (data := InsertComment.mk _ _ _ _) in H.
  destruct (DatabaseStorage.createComment data db w) as [[o db1] w1] eqn:E.
  assert (Hr : (r, db', w')
               = match o with
                 | Done c => (Done (Json c), db1, w1)
                 | Raised _ => (Done (Fail 500 "Failed to create comment"), db1, w1)
                 end).
  { rewrite <- H. unfold tryCatch, bind. rewrite E. now destruct o. }
  clear H. pose proof (createComment_inv _ _ _ _ _ _ E) as Hinv.
  destruct Hinv as [[-> [e ->]] | (c & -> & Hid & Hg & Hu & Hc & Hi & Hfree & Hins)];
    inversion Hr; subst r db' w'; clear Hr.
  - split; [ auto | ]. split; [ intros c Hc; discriminate Hc | ].
    intros Hid Hg Hu.
    destruct (createComment_accepts data db w Hid Hg Hu) as (c & db2 & E2).
    rewrite E2 in E. discriminate E.
  - split; [ | split ].
    + intros k c0 Hk. rewrite Hins in Hk.
      destruct (decide (k = Comment.id c)) as [-> | Hne].
      * rewrite lookup_insert_eq in Hk. inversion Hk; subst c0. now right.
      * rewrite lookup_insert_ne in Hk by auto. now left.
    + intros c0 Hc0. inversion Hc0; subst c0.
      rewrite Hins, lookup_insert_eq. auto.
    + eauto.
Qed.

Lemma postComment_not_internal_witness :
  exists c db' w',
    postComment exampleComment exampleDb exampleWorld = (Done (Json c), db', w')
    /\ commentBodyIsInternal exampleComment = Some true
    /\ Comment.isInternal c = false
    /\ comments db' !! Comment.id c = Some c.
Proof.
  destruct (postComment exampleComment exampleDb exampleWorld)
    as [[r db'] w'] eqn:E.
  destruct (postComment_not_internal _ _ _ _ _ _ E) as (_ & Hanswer & Hlive).
  destruct Hlive as [c ->].
  - reflexivity.
  - eexists. vm_compute. reflexivity.
  - eexists. vm_compute. reflexivity.
  - destruct (Hanswer c eq_refl) as (Hstored & Hint & _).
    exists c, db', w'. repeat split; assumption.
Defined.

(* ===================================================================== *)
(** * Dashboard *)
(* ===================================================================== *)

(** A filter of the source counts the predicate it decides. *)
Lemma filter_counts {A : Type} (P : A -> Prop) (f : A -> bool) (l : list A) :
  (forall x, f x = true <-> P x) ->
  counts P l (length (List.filter f l)).
Proof.
  intros Hf. induction l as [| x l IH]; cbn [List.filter].
  - constructor.
  - destruct (f x) eqn:E.
    + cbn [length]. apply counts_in; [ now apply Hf | exact IH ].
    + apply counts_out; [ | exact IH ].
      intros HP. apply Hf in HP. congruence.
Qed.

(** [counts] determines the number. *)
Lemma counts_unique {A : Type} (P : A -> Prop) (l : list A) (n m : nat) :
  counts P l n -> counts P l m -> n = m.
Proof.
  intros Hn. revert m. induction Hn as [| x l n Hx _ IH | x l n Hx _ IH];
    intros m Hm; inversion Hm; subst; auto; contradiction.
Qed.

Lemma resolvedFilter_spec (g : Grievance.t) :
  resolvedFilter g = true <-> isResolved g.
Proof.
  unfold resolvedFilter, isResolved. rewrite orb_true_iff, !String.eqb_eq.
  simpl. intuition congruence.
Qed.

Lemma pendingFilter_spec (g : Grievance.t) :
  pendingFilter g = true <-> isPending g.
Proof.
  unfold pendingFilter, isPending, isResolved.
  rewrite negb_true_iff. apply includes_false_not_In.
Qed.

Lemma overdueFilter_spec (now : Z) (g : Grievance.t) :
  overdueFilter now g = true <-> isOverdue now g.
Proof.
  unfold overdueFilter, isOverdue.
  destruct (Grievance.slaDeadline g) as [deadline | ].
  - rewrite andb_true_iff, Z.ltb_lt.
    change (negb (Js.includes ["resolved"; "closed"] (Grievance.status g)))
      with (pendingFilter g).
    rewrite pendingFilter_spec. split.
    + intros [Hlt Hp]. eauto.
    + intros [Hp (d & Hd & Hlt)]. inversion Hd; subst. auto.
  - split; [ discriminate | ]. intros [_ (d & Hd & _)]. discriminate Hd.
Qed.

Lemma ownedBy_spec (userId : string) (g : Grievance.t) :
  ownedBy userId g = true <-> Grievance.userId g = Some userId.
Proof.
  unfold ownedBy. destruct (Grievance.userId g) as [u | ].
  - rewrite String.eqb_eq. split; congruence.
  - split; discriminate.
Qed.

(** Filtering twice counts the rows that pass both tests. *)
Lemma filter_filter_counts {A : Type} (P Q : A -> Prop) (f h : A -> bool)
    (l : list A) :
  (forall x, f x = true <-> P x) ->
  (forall x, h x = true <-> Q x) ->
  counts (fun x => P x /\ Q x) l (length (List.filter h (List.filter f l))).
Proof.
  intros Hf Hh. induction l as [| x l IH]; cbn [List.filter].
  - constructor.
  - destruct (f x) eqn:Ef; cbn [List.filter].
    + destruct (h x) eqn:Eh; cbn [length].
      * apply counts_in; [ split; [ now apply Hf | now apply Hh ] | exact IH ].
      * apply counts_out; [ | exact IH ].
        intros [_ HQ]. apply Hh in HQ. congruence.
    + apply counts_out; [ | exact IH ].
      intros [HP _]. apply Hf in HP. congruence.
Qed.

(** The rows [getDashboardStats] aggregates are the rows of the table,
    or those among them that the caller owns. *)
Lemma scope_student (u : string) (db : Database) :
  u <> "" ->
  scope (Some u) (Some "student") db
  = List.filter (ownedBy u) (rows (grievances db)).
Proof.
  intros Hu. unfold scope, Js.truthy_string.
  apply String.eqb_neq in Hu. now rewrite Hu.
Qed.

Lemma scope_all (userId role : option string) (db : Database) :
  userId = None \/ userId = Some "" \/ role <> Some "student" ->
  scope userId role db = rows (grievances db).
Proof.
  intros H. unfold scope. destruct userId as [u | ]; [ | reflexivity ].
  destruct role as [r | ]; [ | reflexivity ].
  destruct H as [H | [H | H]]; [ discriminate H | | ].
  - inversion H; subst u. reflexivity.
  - destruct (String.eqb_spec r "student") as [-> | _];
      [ contradiction | now rewrite andb_false_r ].
Qed.

(** C8.  For every collection of grievances and every time [now]:
    [total] is the number of grievances, [pending] counts those whose
    status is neither resolved nor closed, [resolved] those whose status
    is resolved or closed, [overdue] those that are pending and have a
    deadline earlier than [now]; on the empty collection the four are 0.
    [getDashboardStats] always returns, reads the clock once and changes
    nothing, and the collection it reports on is taken from the
    grievances table: for a caller with the role student, the rows of
    the table that the caller owns; for every other call, all the rows
    of the table. *)
Theorem getDashboardStats_counts (allGrievances : list Grievance.t) (now : Z) :
  let stats := dashboardStatsOf allGrievances now in
  total stats = length allGrievances
  /\ counts isPending allGrievances (pending stats)
  /\ counts isResolved allGrievances (resolved stats)
  /\ counts (isOverdue now) allGrievances (overdue stats)
  /\ (pending stats + resolved stats = total stats)%nat
  /\ dashboardStatsOf [] now = mkStats 0 0 0 0
  /\ forall userId role db w,
       let table := rows (grievances db) in
       let time := nextTime w 0 in
       exists answer,
         getDashboardStats userId role db w = (Done answer, db, tick w)
         /\ (forall u,
               userId = Some u -> u <> "" -> role = Some "student" ->
               let own := fun g => Grievance.userId g = Some u in
               counts own table (total answer)
               /\ counts (fun g => own g /\ isPending g) table
                    (pending answer)
               /\ counts (fun g => own g /\ isResolved g) table
                    (resolved answer)
               /\ counts (fun g => own g /\ isOverdue time g) table
                    (overdue answer))
         /\ (userId = None \/ userId = Some "" \/ role <> Some "student" ->
             total answer = length table
             /\ counts isPending table (pending answer)
             /\ counts isResolved table (resolved answer)
             /\ counts (isOverdue time) table (overdue answer)).
Proof.
  cbn zeta. unfold dashboardStatsOf. cbn [total pending resolved overdue].
  split; [ reflexivity | ].
  split; [ apply filter_counts, pendingFilter_spec | ].
  split; [ apply filter_counts, resolvedFilter_spec | ].
  split; [ apply filter_counts, overdueFilter_spec | ].
  split; [ | split; [ reflexivity | ] ].
  - induction allGrievances as [| g l IH]; [ reflexivity | ].
    cbn [List.filter length].
    assert (Hx : pendingFilter g = negb (resolvedFilter g)).
    { unfold pendingFilter, resolvedFilter, Js.includes. cbn [existsb].
      now rewrite orb_false_r. }
    rewrite Hx. destruct (resolvedFilter g); cbn [negb length]; lia.
  - intros userId role db w. unfold nextTime. rewrite Nat.add_0_r.
    exists (dashboardStatsOf (scope userId role db) (clock w (ticks w))).
    split; [ reflexivity | ].
    unfold dashboardStatsOf. cbn [total pending resolved overdue]. split.
    + intros u -> Hu ->. rewrite (scope_student u db Hu).
      split; [ apply filter_counts, ownedBy_spec | ].
      split; [ apply filter_filter_counts;
               [ apply ownedBy_spec | apply pendingFilter_spec ] | ].
      split; [ apply filter_filter_counts;
               [ apply ownedBy_spec | apply resolvedFilter_spec ] | ].
      apply filter_filter_counts;
        [ apply ownedBy_spec | apply overdueFilter_spec ].
    + intros Hall. rewrite (scope_all userId role db Hall).
      split; [ reflexivity | ].
      split; [ apply filter_counts, pendingFilter_spec | ].
      split; [ apply filter_counts, resolvedFilter_spec | ].
      apply filter_counts, overdueFilter_spec.
Qed.

(* ===================================================================== *)
(** * Doubles *)
(* ===================================================================== *)

Section DoubleFacts.
Local Open Scope Q_scope.

Lemma Qfloor_unique (x : Q) (z : Z) :
  inject_Z z <= x -> x < inject_Z (z + 1) -> Qfloor x = z.
Proof.
  intros Hlo Hhi.
  pose proof (Qfloor_le x) as H1. pose proof (Qlt_floor x) as H2.
  assert (Ha : (Qfloor x < z + 1)%Z)
    by (rewrite Zlt_Qlt; eapply Qle_lt_trans; eassumption).
  assert (Hb : (z < Qfloor x + 1)%Z)
    by (rewrite Zlt_Qlt; eapply Qle_lt_trans; eassumption).
  lia.
Qed.

Lemma roundEven_comp (x y : Q) : x == y -> Double.roundEven x = Double.roundEven y.
Proof.
  intros H. unfold Double.roundEven. rewrite (Qfloor_comp _ _ H).
  now rewrite H.
Qed.

Lemma roundEven_Z (z : Z) : Double.roundEven (inject_Z z) = z.
Proof.
  unfold Double.roundEven. rewrite Qfloor_Z.
  replace (inject_Z z - inject_Z z ?= 1 # 2) with Lt; [ reflexivity | ].
  symmetry. rewrite <- Qlt_alt. lra.
Qed.

Lemma roundEven_cases (x : Q) :
  let f := Qfloor x in
  (x - inject_Z f < 1 # 2 /\ Double.roundEven x = f)
  \/ (x - inject_Z f == 1 # 2
      /\ Double.roundEven x = if Z.even f then f else (f + 1)%Z)
  \/ (1 # 2 < x - inject_Z f /\ Double.roundEven x = (f + 1)%Z).
Proof.
  cbv zeta. unfold Double.roundEven.
  destruct (x - inject_Z (Qfloor x) ?= 1 # 2) eqn:E.
  - right. left. split; [ now rewrite Qeq_alt | reflexivity ].
  - left. split; [ now rewrite Qlt_alt | reflexivity ].
  - right. right. split; [ now rewrite Qgt_alt | reflexivity ].
Qed.


Lemma roundEven_mono (x y : Q) :
  x <= y -> (Double.roundEven x <= Double.roundEven y)%Z.
Proof.
  intros Hxy.
  pose proof (Qfloor_resp_le _ _ Hxy) as Hf.
  pose proof (Qfloor_le x) as Hx1. pose proof (Qlt_floor x) as Hx2.
  pose proof (Qfloor_le y) as Hy1. pose proof (Qlt_floor y) as Hy2.
  rewrite inject_Z_plus in Hx2, Hy2. change (inject_Z 1) with 1 in Hx2, Hy2.
  assert (Hlo : (Qfloor y <= Double.roundEven y)%Z).
  { destruct (roundEven_cases y) as [[_ ->] | [[_ ->] | [_ ->]]];
      [ | destruct (Z.even _) | ]; lia. }
  assert (Hhi : (Double.roundEven x <= Qfloor x + 1)%Z).
  { destruct (roundEven_cases x) as [[_ ->] | [[_ ->] | [_ ->]]];
      [ | destruct (Z.even _) | ]; lia. }
  destruct (Z.eq_dec (Qfloor x) (Qfloor y)) as [Heq | Hne]; [ | lia ].
  destruct (roundEven_cases x) as [[Hx ->] | [[Hx ->] | [Hx ->]]];
    destruct (roundEven_cases y) as [[Hy ->] | [[Hy ->] | [Hy ->]]];
    rewrite <- ?Heq in *; try (destruct (Z.even (Qfloor x))); try lia;
    exfalso; lra.
Qed.

Lemma roundEven_opp (x : Q) : Double.roundEven (- x) = (- Double.roundEven x)%Z.
Proof.
  pose proof (Qfloor_le x) as Hx1. pose proof (Qlt_floor x) as Hx2.
  rewrite inject_Z_plus in Hx2. change (inject_Z 1) with 1 in Hx2.
  destruct (Qeq_dec x (inject_Z (Qfloor x))) as [Hint | Hfrac].
  - rewrite (roundEven_comp x _ Hint).
    assert (H : - x == inject_Z (- Qfloor x))
      by (rewrite inject_Z_opp, <- Hint; reflexivity).
    rewrite (roundEven_comp _ _ H). now rewrite !roundEven_Z.
  - assert (Hlt : inject_Z (Qfloor x) < x).
    { apply Qle_lteq in Hx1. destruct Hx1 as [H | H]; [ exact H | ].
      exfalso. apply Hfrac. now symmetry. }
    assert (Hf : Qfloor (- x) = (- (Qfloor x + 1))%Z).
    { apply Qfloor_unique.
      - rewrite inject_Z_opp, inject_Z_plus. change (inject_Z 1) with 1. lra.
      - replace (- (Qfloor x + 1) + 1)%Z with (- Qfloor x)%Z by lia.
        rewrite inject_Z_opp. lra. }
    assert (Hinj : inject_Z (Qfloor (- x)) == - inject_Z (Qfloor x) - 1).
    { rewrite Hf, inject_Z_opp, inject_Z_plus. change (inject_Z 1) with 1.
      lra. }
    destruct (roundEven_cases x) as [[Hx ->] | [[Hx ->] | [Hx ->]]];
      destruct (roundEven_cases (- x)) as [[Hy ->] | [[Hy ->] | [Hy ->]]];
      rewrite ?Hinj in Hy; rewrite ?Hf; try lia; try (exfalso; lra).
    rewrite Z.even_opp, Z.even_add.
    destruct (Z.even (Qfloor x)); cbn; lia.
Qed.

Lemma pow2_pos (e : Z) : 0 < 2 ^ e.
Proof. apply Qpower_0_lt. reflexivity. Qed.

Lemma pow2_add (a b : Z) : 2 ^ (a + b) == 2 ^ a * 2 ^ b.
Proof. apply Qpower_plus. discriminate. Qed.

Lemma pow2_succ (e : Z) : 2 ^ (e + 1) == 2 * 2 ^ e.
Proof. rewrite pow2_add. change (2 ^ 1) with 2. ring. Qed.

Lemma pow2_pred (e : Z) : 2 * 2 ^ (e - 1) == 2 ^ e.
Proof. rewrite <- pow2_succ. now replace (e - 1 + 1)%Z with e by lia. Qed.

Lemma pow2_sub (a b : Z) : 2 ^ (a - b) == 2 ^ a / 2 ^ b.
Proof. apply Qpower_minus. discriminate. Qed.

Lemma pow2_Z (k : Z) : (0 <= k)%Z -> inject_Z (2 ^ k) == 2 ^ k.
Proof. intros Hk. now rewrite (Zpower_Qpower 2 k Hk). Qed.

Lemma pow2_le (a b : Z) : (a <= b)%Z -> 2 ^ a <= 2 ^ b.
Proof. intros H. apply Qpower_le_compat_l; [ exact H | discriminate ]. Qed.

Lemma pow2_lt (a b : Z) : (a < b)%Z -> 2 ^ a < 2 ^ b.
Proof. intros H. apply Qpower_lt_compat_l; [ exact H | reflexivity ]. Qed.

Lemma pow2_lt_inv (a b : Z) : 2 ^ a < 2 ^ b -> (a < b)%Z.
Proof. intros H. apply (Qpower_lt_compat_l_inv 2); [ exact H | reflexivity ]. Qed.

Lemma Qnum_0 (x : Q) : x == 0 <-> Qnum x = 0%Z.
Proof. unfold Qeq. cbn. lia. Qed.

(** The exponent of a number that is not zero is that of its binade. *)
Lemma exponent_spec (x : Q) :
  ~ x == 0 ->
  2 ^ Double.exponent x <= Qabs x /\ Qabs x < 2 ^ (Double.exponent x + 1).
Proof.
  intros Hx. rewrite Qnum_0 in Hx. unfold Double.exponent.
  destruct x as [n d]. cbn [Qnum Qden] in *.
  set (ln := Z.log2 (Z.abs n)). set (ld := Z.log2 (Z.pos d)).
  assert (Hn : (0 < Z.abs n)%Z) by lia.
  destruct (Z.log2_spec _ Hn) as [Hn1 Hn2]. fold ln in Hn1, Hn2.
  destruct (Z.log2_spec (Z.pos d) ltac:(lia)) as [Hd1 Hd2]. fold ld in Hd1, Hd2.
  assert (Hln : (0 <= ln)%Z) by apply Z.log2_nonneg.
  assert (Hld : (0 <= ld)%Z) by apply Z.log2_nonneg.
  assert (Habs : Qabs (n # d) == inject_Z (Z.abs n) / inject_Z (Z.pos d)).
  { unfold Qabs. apply Qmake_Qdiv. }
  set (A := inject_Z (Z.abs n)) in *. set (D := inject_Z (Z.pos d)) in *.
  assert (HA1 : 2 ^ ln <= A) by (rewrite <- pow2_Z by lia; subst A; now rewrite <- Zle_Qle).
  assert (HA2 : A < 2 * 2 ^ ln).
  { rewrite <- pow2_succ, <- pow2_Z by lia. subst A. now rewrite <- Zlt_Qlt. }
  assert (HD1 : 2 ^ ld <= D) by (rewrite <- pow2_Z by lia; subst D; now rewrite <- Zle_Qle).
  assert (HD2 : D < 2 * 2 ^ ld).
  { rewrite <- pow2_succ, <- pow2_Z by lia. subst D. now rewrite <- Zlt_Qlt. }
  pose proof (pow2_pos ln) as HP. pose proof (pow2_pos ld) as HR.
  assert (HD : 0 < D) by lra.
  assert (He0 : 2 ^ (ln - ld) == 2 ^ ln / 2 ^ ld) by apply pow2_sub.
  assert (Hlow : 2 ^ (ln - ld - 1) <= A / D).
  { apply Qle_shift_div_l; [ exact HD | ].
    apply Qmult_le_l with (z := 2); [ reflexivity | ].
    rewrite Qmult_assoc, pow2_pred, He0.
    apply Qle_trans with (2 ^ ln / 2 ^ ld * (2 * 2 ^ ld)).
    - apply Qmult_le_l; [ apply Qlt_shift_div_l; lra | lra ].
    - setoid_replace (2 ^ ln / 2 ^ ld * (2 * 2 ^ ld)) with (2 * 2 ^ ln) using relation Qeq
        by (field; lra).
      lra. }
  assert (Hhigh : A / D < 2 ^ (ln - ld + 1)).
  { apply Qlt_shift_div_r; [ exact HD | ].
    rewrite pow2_succ, He0.
    apply Qlt_le_trans with (2 * 2 ^ ln); [ exact HA2 | ].
    setoid_replace (2 * 2 ^ ln) with (2 * (2 ^ ln / 2 ^ ld) * 2 ^ ld) using relation Qeq
      by (field; lra).
    apply Qmult_le_l; [ | exact HD1 ].
    assert (0 < 2 ^ ln / 2 ^ ld) by (apply Qlt_shift_div_l; lra). lra. }
  assert (Hgoal :
    let e := match Qabs (n # d) ?= 2 ^ (ln - ld) with
             | Lt => (ln - ld - 1)%Z
             | _ => (ln - ld)%Z
             end in
    2 ^ e <= Qabs (n # d) /\ Qabs (n # d) < 2 ^ (e + 1)).
  { cbv zeta. destruct (Qabs (n # d) ?= 2 ^ (ln - ld)) eqn:E.
    - rewrite <- Qeq_alt in E. rewrite Habs in *. split; [ lra | exact Hhigh ].
    - rewrite <- Qlt_alt in E. rewrite Habs in *. split; [ exact Hlow | ].
      now replace (ln - ld - 1 + 1)%Z with (ln - ld)%Z by lia.
    - rewrite <- Qgt_alt in E. rewrite Habs in *. split; [ lra | exact Hhigh ]. }
  destruct n as [| p | p]; [ lia | exact Hgoal | exact Hgoal ].
Qed.

Lemma exponent_unique (x : Q) (e : Z) :
  2 ^ e <= Qabs x -> Qabs x < 2 ^ (e + 1) -> Double.exponent x = e.
Proof.
  intros H1 H2.
  assert (Hx : ~ x == 0).
  { intros H0. rewrite H0 in H1. change (Qabs 0) with 0 in H1.
    pose proof (pow2_pos e). lra. }
  destruct (exponent_spec x Hx) as [H3 H4].
  assert (Double.exponent x < e + 1)%Z
    by (apply pow2_lt_inv; eapply Qle_lt_trans; eassumption).
  assert (e < Double.exponent x + 1)%Z
    by (apply pow2_lt_inv; eapply Qle_lt_trans; eassumption).
  lia.
Qed.

Lemma exponent_comp (x y : Q) : x == y -> Double.exponent x = Double.exponent y.
Proof.
  intros H. destruct (Qeq_dec x 0) as [H0 | H0].
  - assert (Hy : y == 0) by now rewrite <- H.
    apply Qnum_0 in H0, Hy. unfold Double.exponent. now rewrite H0, Hy.
  - destruct (exponent_spec x H0) as [H1 H2]. symmetry.
    apply exponent_unique; now rewrite <- H.
Qed.

Lemma exponent_opp (x : Q) : Double.exponent (- x) = Double.exponent x.
Proof.
  destruct (Qeq_dec x 0) as [H0 | H0].
  - apply exponent_comp. rewrite H0. reflexivity.
  - destruct (exponent_spec x H0) as [H1 H2].
    apply exponent_unique; now rewrite Qabs_opp.
Qed.

Lemma exponent_lt (x : Q) (k : Z) :
  ~ x == 0 -> Qabs x < 2 ^ k -> (Double.exponent x < k)%Z.
Proof.
  intros Hx H. destruct (exponent_spec x Hx) as [H1 _].
  apply pow2_lt_inv. eapply Qle_lt_trans; eassumption.
Qed.

Lemma exponent_ge (x : Q) (k : Z) :
  2 ^ k <= Qabs x -> (k <= Double.exponent x)%Z.
Proof.
  intros H.
  assert (Hx : ~ x == 0).
  { intros H0. rewrite H0 in H. change (Qabs 0) with 0 in H.
    pose proof (pow2_pos k). lra. }
  destruct (exponent_spec x Hx) as [_ H2].
  assert (k < Double.exponent x + 1)%Z
    by (apply pow2_lt_inv; eapply Qle_lt_trans; eassumption).
  lia.
Qed.

Lemma ulp_comp (x y : Q) : x == y -> Double.ulp x = Double.ulp y.
Proof. intros H. unfold Double.ulp. now rewrite (exponent_comp _ _ H). Qed.

Lemma round_comp (x y : Q) : x == y -> Double.round x == Double.round y.
Proof.
  intros H. unfold Double.round. rewrite (ulp_comp _ _ H).
  assert (Hs : x / 2 ^ Double.ulp y == y / 2 ^ Double.ulp y) by now rewrite H.
  now rewrite (roundEven_comp _ _ Hs).
Qed.

Lemma round_opp (x : Q) : Double.round (- x) == - Double.round x.
Proof.
  unfold Double.round, Double.ulp. rewrite exponent_opp.
  set (u := Z.max _ _).
  assert (Hs : - x / 2 ^ u == - (x / 2 ^ u)).
  { pose proof (pow2_pos u). field. lra. }
  rewrite (roundEven_comp _ _ Hs), roundEven_opp, inject_Z_opp. ring.
Qed.

(** A number that fits the last place of its binade is a double. *)
Lemma round_exact (x : Q) (m k : Z) :
  x == inject_Z m * 2 ^ k -> (Double.ulp x <= k)%Z -> Double.round x == x.
Proof.
  intros Hx Hk. unfold Double.round. set (u := Double.ulp x) in *.
  pose proof (pow2_pos u) as Hu.
  assert (Hs : x / 2 ^ u == inject_Z (m * 2 ^ (k - u))).
  { rewrite inject_Z_mult, pow2_Z by lia. rewrite pow2_sub, Hx. field. lra. }
  rewrite (roundEven_comp _ _ Hs), roundEven_Z, <- Hs. field. lra.
Qed.

Lemma round_0 : Double.round 0 == 0.
Proof. reflexivity. Qed.

Lemma Qabs_inject_Z (z : Z) : Qabs (inject_Z z) == inject_Z (Z.abs z).
Proof. reflexivity. Qed.

(** The integers below 2^53 are doubles. *)
Lemma round_Z (z : Z) :
  (Z.abs z < 2 ^ 53)%Z -> Double.round (inject_Z z) == inject_Z z.
Proof.
  intros Hz. apply (round_exact _ z 0); [ change (2 ^ 0) with 1; ring | ].
  unfold Double.ulp. destruct (Z.eq_dec z 0%Z) as [-> | Hne]; [ now vm_compute | ].
  assert (Double.exponent (inject_Z z) < 53)%Z; [ | lia ].
  apply exponent_lt.
  - rewrite Qnum_0. exact Hne.
  - rewrite Qabs_inject_Z, <- pow2_Z by lia. now rewrite <- Zlt_Qlt.
Qed.


(** Rounding to the multiples of 2^u. *)
Lemma grid_mono (u : Z) (x y : Q) :
  x <= y ->
  inject_Z (Double.roundEven (x / 2 ^ u)) * 2 ^ u
  <= inject_Z (Double.roundEven (y / 2 ^ u)) * 2 ^ u.
Proof.
  intros H. pose proof (pow2_pos u) as Hu.
  apply Qmult_le_compat_r; [ | lra ].
  rewrite <- Zle_Qle. apply roundEven_mono.
  unfold Qdiv. apply Qmult_le_compat_r; [ exact H | ].
  apply Qlt_le_weak, Qinv_lt_0_compat, Hu.
Qed.

Lemma grid_fix (u k : Z) :
  (u <= k)%Z ->
  inject_Z (Double.roundEven (2 ^ k / 2 ^ u)) * 2 ^ u == 2 ^ k.
Proof.
  intros Hk. pose proof (pow2_pos u) as Hu.
  assert (Hs : 2 ^ k / 2 ^ u == inject_Z (2 ^ (k - u)))
    by (rewrite pow2_Z by lia; now rewrite pow2_sub).
  rewrite (roundEven_comp _ _ Hs), roundEven_Z, <- Hs. field. lra.
Qed.

Lemma round_nonneg (x : Q) : 0 <= x -> 0 <= Double.round x.
Proof.
  intros H. unfold Double.round.
  eapply Qle_trans; [ | apply (grid_mono _ 0 x H) ].
  assert (Hs : 0 / 2 ^ Double.ulp x == inject_Z 0) by (unfold Qdiv; ring).
  rewrite (roundEven_comp _ _ Hs), roundEven_Z. rewrite Qmult_0_l.
  apply Qle_refl.
Qed.

Lemma Qabs_pos_eq (x : Q) : 0 <= x -> Qabs x == x.
Proof. apply Qabs_pos. Qed.

Lemma round_mono_pos (x y : Q) :
  0 < x -> x <= y -> Double.round x <= Double.round y.
Proof.
  intros Hx Hxy.
  assert (Hx0 : ~ x == 0) by lra. assert (Hy0 : ~ y == 0) by lra.
  destruct (exponent_spec x Hx0) as [Hx1 Hx2].
  destruct (exponent_spec y Hy0) as [Hy1 Hy2].
  rewrite (Qabs_pos_eq x) in Hx1, Hx2 by lra.
  rewrite (Qabs_pos_eq y) in Hy1, Hy2 by lra.
  assert (He : (Double.exponent x <= Double.exponent y)%Z).
  { apply exponent_ge. rewrite Qabs_pos_eq by lra. lra. }
  unfold Double.round.
  destruct (Z.eq_dec (Double.ulp x) (Double.ulp y)) as [Heq | Hne].
  - rewrite Heq. now apply grid_mono.
  - assert (Hu : (Double.ulp x < Double.ulp y)%Z) by (unfold Double.ulp in *; lia).
    assert (Huy : (Double.ulp y = Double.exponent y - 52)%Z)
      by (unfold Double.ulp in *; lia).
    assert (Hex : (Double.exponent x < Double.exponent y)%Z)
      by (unfold Double.ulp in *; lia).
    set (p := 2 ^ Double.exponent y).
    assert (Hxp : x <= p).
    { apply Qlt_le_weak. eapply Qlt_le_trans; [ exact Hx2 | ].
      apply pow2_le. lia. }
    apply Qle_trans with p.
    + eapply Qle_trans; [ apply (grid_mono _ x p Hxp) | ].
      subst p. rewrite grid_fix by lia. apply Qle_refl.
    + eapply Qle_trans; [ | apply (grid_mono _ p y Hy1) ].
      subst p. rewrite grid_fix by lia. apply Qle_refl.
Qed.

(** Rounding to the nearest double keeps the order. *)
Lemma round_mono (x y : Q) : x <= y -> Double.round x <= Double.round y.
Proof.
  intros Hxy.
  destruct (Qlt_le_dec 0 x) as [Hx | Hx]; [ now apply round_mono_pos | ].
  assert (Hrx : Double.round x <= 0).
  { assert (H : 0 <= Double.round (- x)) by (apply round_nonneg; lra).
    rewrite round_opp in H. lra. }
  destruct (Qlt_le_dec y 0) as [Hy | Hy].
  - assert (H : Double.round (- y) <= Double.round (- x))
      by (apply round_mono_pos; lra).
    rewrite !round_opp in H. lra.
  - pose proof (round_nonneg y Hy). lra.
Qed.


End DoubleFacts.

(* ===================================================================== *)
(** * Analytics *)
(* ===================================================================== *)

Section Rounding.
Local Open Scope Q_scope.


Lemma js_round_comp (x y : Q) : x == y -> js_round x = js_round y.
Proof. intros H. unfold js_round. apply Qfloor_comp. now rewrite H. Qed.

Lemma js_round_mono (x y : Q) : x <= y -> (js_round x <= js_round y)%Z.
Proof. intros H. unfold js_round. apply Qfloor_resp_le. lra. Qed.

Lemma js_round_Z (z : Z) : js_round (inject_Z z) = z.
Proof.
  unfold js_round. apply Qfloor_unique.
  - lra.
  - rewrite inject_Z_plus. change (inject_Z 1) with 1. lra.
Qed.






Lemma hour_pos : 0 < inject_Z (1000 * 60 * 60).
Proof. reflexivity. Qed.



Lemma addResolutionHours_comp (sum sum' : Q) (g : Grievance.t) :
  sum == sum' -> addResolutionHours sum g == addResolutionHours sum' g.
Proof.
  intros H. unfold addResolutionHours, Double.add. apply round_comp.
  now rewrite H.
Qed.

Lemma fold_addResolutionHours_comp (l : list Grievance.t) (sum sum' : Q) :
  sum == sum' ->
  fold_left addResolutionHours l sum == fold_left addResolutionHours l sum'.
Proof.
  revert sum sum'. induction l as [| g l IH]; intros sum sum' H; [ exact H | ].
  cbn [fold_left]. apply IH. now apply addResolutionHours_comp.
Qed.



End Rounding.

Section Accuracy.
Local Open Scope Q_scope.





End Accuracy.

Lemma sumZ_abs_nonneg (l : list Z) : 0 <= sumZ (map Z.abs l).
Proof.
  induction l as [| t ts IH]; cbn; [ lia | ]. fold (sumZ (map Z.abs ts)). lia.
Qed.







(** Off the whole hours the average need not be the rounding of the
    exact mean: resolution times of 0.15, 1.18 and 0.17 hours have the
    mean 0.5, which rounds to 1, but their sum in double precision is
    1.4999999999999998, a third of it 0.49999999999999994, and the
    average reported is 0. *)
Lemma avgResolutionTime_double_precision :
  let rows := [resolvedAfterMs 540000; resolvedAfterMs 4248000;
               resolvedAfterMs 612000] in
  (meanResolutionHours rows == 1 # 2)%Q
  /\ js_round (meanResolutionHours rows) = 1
  /\ (fold_left addResolutionHours rows 0
      == 6755399441055743 # 4503599627370496)%Q
  /\ avgResolutionTime rows = 0.
Proof. cbv zeta. repeat apply conj; vm_compute; reflexivity. Qed.
(* ===================================================================== *)
(** * Tables as lists of rows *)
(* ===================================================================== *)

Lemma elem_of_rows {A} (table : gmap string A) (x : A) :
  In x (rows table) <-> exists k, table !! k = Some x.
Proof.
  unfold rows. rewrite <- list_elem_of_In, list_elem_of_fmap. split.
  - intros ([k y] & -> & Hin). apply elem_of_map_to_list in Hin. eauto.
  - intros [k Hk]. exists (k, x). split; [ reflexivity | ].
    now apply elem_of_map_to_list.
Qed.

(** Inserting under an unused key adds one row. *)
Lemma rows_insert_fresh {A} (table : gmap string A) (k : string) (x : A) :
  table !! k = None ->
  Permutation (rows (<[k := x]> table)) (x :: rows table).
Proof.
  intros Hk. unfold rows.
  rewrite (map_to_list_insert table k x Hk). reflexivity.
Qed.

(** Writing over a row replaces it among the rows. *)
Lemma rows_insert_over {A} (table : gmap string A) (k : string) (x y : A) :
  table !! k = Some y ->
  exists others,
    Permutation (rows table) (y :: others)
    /\ Permutation (rows (<[k := x]> table)) (x :: others).
Proof.
  intros Hk. exists (rows (delete k table)). split.
  - unfold rows. rewrite <- (map_to_list_delete table k y Hk). reflexivity.
  - rewrite <- insert_delete_eq. apply rows_insert_fresh, lookup_delete_eq.
Qed.

Lemma filter_Permutation_length {A} (f : A -> bool) (l l' : list A) :
  Permutation l l' ->
  length (List.filter f l) = length (List.filter f l').
Proof.
  induction 1 as [| x l l' _ IH | x y l | l l' l'' _ IH1 _ IH2];
    cbn [List.filter].
  - reflexivity.
  - destruct (f x); cbn [length]; now rewrite IH.
  - destruct (f x), (f y); reflexivity.
  - now rewrite IH1.
Qed.

(* ===================================================================== *)
(** * Ordering *)
(* ===================================================================== *)

Lemma insertDesc_Permutation {A} (key : A -> Z) (x : A) (l : list A) :
  Permutation (insertDesc key x l) (x :: l).
Proof.
  induction l as [| y l IH]; cbn [insertDesc]; [ reflexivity | ].
  destruct (key y <? key x)%Z; [ reflexivity | ].
  rewrite IH. apply perm_swap.
Qed.

Lemma orderByDesc_Permutation {A} (key : A -> Z) (l : list A) :
  Permutation (orderByDesc key l) l.
Proof.
  unfold orderByDesc. induction l as [| x l IH]; cbn [fold_right];
    [ reflexivity | ].
  rewrite insertDesc_Permutation. now constructor.
Qed.

Lemma insertDesc_decreasing {A} (key : A -> Z) (x : A) (l : list A) :
  decreasing key l -> decreasing key (insertDesc key x l).
Proof.
  unfold decreasing. induction l as [| y l IH]; cbn [insertDesc]; intros Hs.
  - repeat constructor.
  - apply StronglySorted_inv in Hs. destruct Hs as [Hs Hy].
    destruct (key y <? key x)%Z eqn:E.
    + apply Z.ltb_lt in E. constructor.
      * now constructor.
      * constructor; [ lia | ].
        rewrite List.Forall_forall in Hy. apply List.Forall_forall. intros z Hz.
        specialize (Hy z Hz). cbv beta in Hy. lia.
    + apply Z.ltb_ge in E. constructor; [ now apply IH | ].
      apply List.Forall_forall. intros z Hz.
      apply (Permutation_in _ (insertDesc_Permutation key x l)) in Hz.
      destruct Hz as [<- | Hz]; [ exact E | ].
      rewrite List.Forall_forall in Hy. now apply Hy.
Qed.

Lemma orderByDesc_decreasing {A} (key : A -> Z) (l : list A) :
  decreasing key (orderByDesc key l).
Proof.
  unfold orderByDesc. induction l as [| x l IH]; cbn [fold_right].
  - constructor.
  - now apply insertDesc_decreasing.
Qed.

Lemma orderByDesc_In {A} (key : A -> Z) (l : list A) (x : A) :
  In x (orderByDesc key l) <-> In x l.
Proof.
  split; apply Permutation_in;
    [ | symmetry ]; apply orderByDesc_Permutation.
Qed.

(* ===================================================================== *)
(** * A submission keeps the constraints of the schema *)
(* ===================================================================== *)

Lemma preserves_refl (I : Database -> Prop) db w : preserves I db w db w.
Proof. unfold preserves. auto. Qed.

Lemma preserves_trans (I : Database -> Prop) db w db1 w1 db2 w2 :
  preserves I db w db1 w1 -> preserves I db1 w1 db2 w2 ->
  preserves I db w db2 w2.
Proof. unfold preserves. auto. Qed.

Lemma readsOnly_refl db w : readsOnly db w db w.
Proof. unfold readsOnly. auto. Qed.

Lemma readsOnly_trans db w db1 w1 db2 w2 :
  readsOnly db w db1 w1 -> readsOnly db1 w1 db2 w2 -> readsOnly db w db2 w2.
Proof. unfold readsOnly. intros [-> ->] [-> ->]. auto. Qed.

Lemma keeps_tryCatch {A} P (message : string) (body : M (Response A)) :
  keeps P body -> keeps P (tryCatch message body).
Proof.
  intros Hb db w o db' w' H. apply tryCatch_inv in H.
  destruct H as [(? & H & _) | (? & H & _)]; eapply Hb, H.
Qed.

Lemma keeps_throw {A} P (e : Exn) :
  (forall db w, P db w db w) -> keeps P (@throw A e).
Proof. intros Hr db w o db' w' H. unfold throw in H. inversion H; subst. apply Hr. Qed.

Lemma keeps_readDb P :
  (forall db w, P db w db w) -> keeps P readDb.
Proof. intros Hr db w o db' w' H. unfold readDb in H. inversion H; subst. apply Hr. Qed.

Lemma keeps_getUser P (id : string) :
  (forall db w, P db w db w) -> keeps P (DatabaseStorage.getUser id).
Proof.
  intros Hr db w o db' w' H. rewrite getUser_run in H. inversion H; subst.
  apply Hr.
Qed.

Lemma is_Some_insert {A} (table : gmap string A) (k j : string) (x : A) :
  is_Some (table !! j) -> is_Some (<[k := x]> table !! j).
Proof.
  intros H. destruct (decide (k = j)) as [-> | Hne].
  - rewrite lookup_insert_eq. eauto.
  - now rewrite lookup_insert_ne.
Qed.

Lemma references_insert {A} (table : gmap string A) (k : string) (x : A)
    (key : option string) :
  DatabaseStorage.references table key = true ->
  DatabaseStorage.references (<[k := x]> table) key = true.
Proof.
  destruct key as [j | ]; [ | reflexivity ]. cbn.
  rewrite !bool_decide_eq_true. apply is_Some_insert.
Qed.

Lemma references_Some {A} (table : gmap string A) (k : string) :
  DatabaseStorage.references table (Some k) = true <-> is_Some (table !! k).
Proof. cbn. apply bool_decide_eq_true. Qed.

(** A tracking id that is not taken is the tracking id of no row. *)
Lemma trackingIdTaken_false (db : Database) (trackingId : string) :
  DatabaseStorage.trackingIdTaken db trackingId = false <->
  forall k g, grievances db !! k = Some g -> Grievance.trackingId g <> trackingId.
Proof.
  unfold DatabaseStorage.trackingIdTaken. split.
  - intros H k g Hk Heq.
    assert (Ht : existsb (fun g0 => String.eqb (Grievance.trackingId g0) trackingId)
                   (rows (grievances db)) = true).
    { apply existsb_exists. exists g. split.
      - apply elem_of_rows. eauto.
      - now apply String.eqb_eq. }
    congruence.
  - intros H. apply not_true_is_false. intros Ht.
    apply existsb_exists in Ht. destruct Ht as (g & Hin & Heq).
    apply elem_of_rows in Hin. destruct Hin as [k Hk].
    apply String.eqb_eq in Heq. exact (H k g Hk Heq).
Qed.

Lemma createGrievance_wellFormed (data : InsertGrievance.t) :
  keeps (preserves wellFormed) (DatabaseStorage.createGrievance data).
Proof.
  intros db w o db' w' H Hwf.
  unfold DatabaseStorage.createGrievance, DatabaseStorage.isLabel in H. mrun.
  repeat case_match; simplify_eq; try exact Hwf.
  destruct Hwf as (Hu & Hg & Ht & Hc & Hf & Hn).
  repeat match goal with
  | Hx : negb _ = false |- _ => apply negb_false_iff in Hx
  | Hx : Js.includes _ _ = true |- _ => apply includes_In in Hx
  | Hx : bool_decide _ = false |- _ => apply bool_decide_eq_false in Hx
  end.
  match goal with
  | Hx : ¬ is_Some _ |- _ => apply eq_None_not_Some in Hx; rename Hx into Hfresh
  end.
  match goal with
  | Hx : DatabaseStorage.trackingIdTaken _ _ = false |- _ =>
      rewrite trackingIdTaken_false in Hx; rename Hx into Hfree
  end.
  cbn [uuidGen uuidCalls drawUuid tick clock ticks] in *.
  unfold wellFormed. cbn [users grievances comments files notifications].
  split; [ exact Hu | ]. split; [ | split; [ | split; [ | split ] ] ].
  - intros k g Hk. apply lookup_insert_Some in Hk.
    destruct Hk as [[<- <-] | [_ Hk]]; [ cbn; auto 6 | now apply Hg ].
  - intros k1 k2 g1 g2 Hk1 Hk2 Heq.
    apply lookup_insert_Some in Hk1, Hk2.
    destruct Hk1 as [[<- <-] | [Hne1 Hk1]], Hk2 as [[<- <-] | [Hne2 Hk2]].
    + reflexivity.
    + cbn in Heq. symmetry in Heq. now apply Hfree in Hk2.
    + cbn in Heq. now apply Hfree in Hk1.
    + eapply Ht; eassumption.
  - intros k c Hk. destruct (Hc k c Hk) as (? & ? & ?).
    repeat split; auto using is_Some_insert.
  - intros k f Hk. destruct (Hf k f Hk) as (? & ? & ?).
    repeat split; auto using is_Some_insert.
  - intros k n Hk. destruct (Hn k n Hk) as (? & ? & ?).
    repeat split; auto using references_insert.
Qed.

Ltac unbool :=
  repeat match goal with
  | Hx : negb _ = false |- _ => apply negb_false_iff in Hx
  | Hx : Js.includes _ _ = true |- _ => apply includes_In in Hx
  | Hx : bool_decide _ = false |- _ => apply bool_decide_eq_false in Hx
  | Hx : bool_decide _ = true |- _ => apply bool_decide_eq_true in Hx
  end.

Lemma createFile_wellFormed (data : InsertFile.t) :
  keeps (preserves wellFormed) (DatabaseStorage.createFile data).
Proof.
  intros db w o db' w' H Hwf.
  unfold DatabaseStorage.createFile in H. mrun.
  repeat case_match; simplify_eq; try exact Hwf.
  destruct Hwf as (Hu & Hg & Ht & Hc & Hf & Hn). unbool.
  cbn [DatabaseStorage.references] in *. unbool.
  unfold wellFormed. cbn [users grievances comments files notifications].
  repeat (split; [ assumption | ]). split; [ | assumption ].
  intros k f Hk. apply lookup_insert_Some in Hk.
  destruct Hk as [[<- <-] | [_ Hk]]; [ cbn; auto | now apply Hf ].
Qed.

Lemma createNotification_wellFormed (data : InsertNotification.t) :
  keeps (preserves wellFormed) (DatabaseStorage.createNotification data).
Proof.
  intros db w o db' w' H Hwf.
  unfold DatabaseStorage.createNotification in H. mrun.
  repeat case_match; simplify_eq; try exact Hwf.
  destruct Hwf as (Hu & Hg & Ht & Hc & Hf & Hn). unbool.
  cbn [DatabaseStorage.references] in H1. unbool.
  unfold wellFormed. cbn [users grievances comments files notifications].
  repeat (split; [ assumption | ]).
  intros k n Hk. apply lookup_insert_Some in Hk.
  destruct Hk as [[<- <-] | [_ Hk]]; [ cbn; auto | now apply Hn ].
Qed.

Lemma calculateSlaDeadline_keeps P (priority : Js.value string) :
  (forall db w, P db w db (tick w)) -> keeps P (calculateSlaDeadline priority).
Proof.
  intros Hp db w o db' w' H. rewrite calculateSlaDeadline_run in H.
  inversion H; subst. apply Hp.
Qed.

Lemma generateTrackingId_run (db : Database) (w : World) :
  generateTrackingId db w
  = (Done (nextTrackingId w), db, drawNanoid (drawNanoid w)).
Proof. reflexivity. Qed.

Lemma preserves_same (I : Database -> Prop) db w w' : preserves I db w db w'.
Proof. unfold preserves. auto. Qed.

Lemma nanoid4_keeps P :
  (forall db w, P db w db (drawNanoid w)) -> keeps P nanoid4.
Proof. intros Hp db w o db' w' H. unfold nanoid4 in H. inversion H; subst. apply Hp. Qed.

Lemma newDate_keeps P :
  (forall db w, P db w db (tick w)) -> keeps P newDate.
Proof. intros Hp db w o db' w' H. unfold newDate in H. inversion H; subst. apply Hp. Qed.

(** Decompose a handler into the storage operations it calls. *)
Ltac keeps_wellFormed :=
  repeat first
    [ apply keeps_tryCatch
    | apply keeps_ret, preserves_refl
    | apply keeps_throw, preserves_refl
    | apply keeps_getUser, preserves_refl
    | apply keeps_readDb, preserves_refl
    | apply calculateSlaDeadline_keeps; intros; apply preserves_same
    | apply newDate_keeps; intros; apply preserves_same
    | apply nanoid4_keeps; intros; apply preserves_same
    | apply createGrievance_wellFormed
    | apply createFile_wellFormed
    | apply createNotification_wellFormed
    | apply forEach_keeps;
        [ apply preserves_refl | apply preserves_trans | intros ? ]
    | apply keeps_bind; [ apply preserves_trans | | intros ? ]
    | match goal with
      | |- keeps _ (match ?x with _ => _ end) => destruct x
      end ].

Lemma postGrievance_wellFormed (req : SubmitRequest) :
  keeps (preserves wellFormed) (postGrievance req).
Proof.
  unfold postGrievance, uploadFiles, notifySubmitted, generateTrackingId.
  keeps_wellFormed.
Qed.

Lemma exampleUsers_lookup (k : string) (u : User.t) :
  exampleUsers !! k = Some u ->
  User.id u = k /\ In (User.role u) userRoleEnum.
Proof.
  unfold exampleUsers. intros Hk.
  repeat (apply lookup_insert_Some in Hk;
          destruct Hk as [[<- <-] | [_ Hk]]; [ cbn; tauto | ]).
  rewrite lookup_empty in Hk. discriminate Hk.
Qed.

Lemma emptyDb_wellFormed : wellFormed emptyDb.
Proof.
  unfold wellFormed, emptyDb. cbn [users grievances comments files notifications].
  split; [ exact exampleUsers_lookup | ].
  repeat split; intros; rewrite lookup_empty in *; discriminate.
Qed.

Lemma exampleDb_wellFormed : wellFormed exampleDb.
Proof.
  unfold wellFormed, exampleDb.
  cbn [users grievances comments files notifications].
  split; [ exact exampleUsers_lookup | ].
  split; [ | split; [ | repeat split; intros; rewrite lookup_empty in *;
                        discriminate ] ].
  - intros k g Hk. apply lookup_insert_Some in Hk.
    destruct Hk as [[<- <-] | [_ Hk]];
      [ | rewrite lookup_empty in Hk; discriminate Hk ].
    cbn. repeat split; try tauto; vm_compute; reflexivity.
  - intros k1 k2 g1 g2 Hk1 Hk2 _.
    apply lookup_insert_Some in Hk1, Hk2.
    destruct Hk1 as [[<- _] | [_ Hk1]];
      [ | rewrite lookup_empty in Hk1; discriminate Hk1 ].
    destruct Hk2 as [[<- _] | [_ Hk2]];
      [ reflexivity | rewrite lookup_empty in Hk2; discriminate Hk2 ].
Qed.

(* ===================================================================== *)
(** * Tracking *)
(* ===================================================================== *)

Lemma head_filter_Some {A} (f : A -> bool) (l : list A) (x : A) :
  head (List.filter f l) = Some x -> In x l /\ f x = true.
Proof.
  intros H. assert (Hin : In x (List.filter f l)).
  { destruct (List.filter f l); inversion H; subst. now left. }
  now apply filter_In in Hin.
Qed.

Lemma head_filter_None {A} (f : A -> bool) (l : list A) :
  head (List.filter f l) = None <-> forall x, In x l -> f x = false.
Proof.
  split.
  - intros H x Hin. destruct (f x) eqn:E; [ | reflexivity ].
    assert (Hx : In x (List.filter f l)) by (apply filter_In; auto).
    destruct (List.filter f l); [ destruct Hx | discriminate H ].
  - intros H. destruct (List.filter f l) as [| x rest] eqn:E; [ reflexivity | ].
    assert (Hx : In x (List.filter f l)) by (rewrite E; now left).
    apply filter_In in Hx. destruct Hx as [Hin Hf].
    rewrite (H x Hin) in Hf. discriminate Hf.
Qed.

(** With unique tracking ids the first row selected is the only one. *)
Lemma track_found (db : Database) (k : string) (g : Grievance.t) :
  wellFormed db ->
  grievances db !! k = Some g ->
  head (List.filter
          (fun x => String.eqb (Grievance.trackingId x) (Grievance.trackingId g))
          (rows (grievances db))) = Some g.
Proof.
  intros (_ & Hg & Ht & _) Hk.
  destruct (head _) as [x | ] eqn:E.
  - apply head_filter_Some in E. destruct E as [Hin Heq].
    apply elem_of_rows in Hin. destruct Hin as [k' Hk'].
    apply String.eqb_eq in Heq.
    pose proof (Ht _ _ _ _ Hk' Hk Heq) as ->. congruence.
  - rewrite head_filter_None in E.
    assert (Hin : In g (rows (grievances db))) by (apply elem_of_rows; eauto).
    specialize (E g Hin). cbv beta in E. rewrite String.eqb_refl in E.
    discriminate E.
Qed.

Lemma trackGrievance_found (db : Database) (w : World) (k : string)
    (g : Grievance.t) :
  wellFormed db ->
  grievances db !! k = Some g ->
  trackGrievance (Grievance.trackingId g) db w = (Done (Json g), db, w).
Proof.
  intros Hwf Hk. unfold trackGrievance, tryCatch,
    DatabaseQueries.getGrievanceByTrackingId. mrun.
  now rewrite (track_found db k g Hwf Hk).
Qed.

(** X2.  The public tracking route, on a database that satisfies the
    constraints: it answers with the grievance that carries the tracking
    id when there is one, whoever asks and whether or not the grievance
    is confidential; it answers 404 when no grievance carries it; and it
    changes nothing. *)
Theorem trackGrievance_lookup (db : Database) (w : World)
    (trackingId : string) :
  wellFormed db ->
  (forall k g,
     grievances db !! k = Some g ->
     Grievance.trackingId g = trackingId ->
     trackGrievance trackingId db w = (Done (Json g), db, w))
  /\ ((forall k g,
         grievances db !! k = Some g -> Grievance.trackingId g <> trackingId) ->
      trackGrievance trackingId db w
      = (Done (Fail 404 "Grievance not found"), db, w)).
Proof.
  intros Hwf. split.
  - intros k g Hk <-. now apply (trackGrievance_found db w k g).
  - intros Hnone. unfold trackGrievance, tryCatch,
      DatabaseQueries.getGrievanceByTrackingId. mrun.
    replace (head _) with (@None Grievance.t); [ reflexivity | ].
    symmetry. apply head_filter_None. intros x Hin.
    apply elem_of_rows in Hin. destruct Hin as [k Hk].
    apply not_true_is_false. intros Heq. apply String.eqb_eq in Heq.
    exact (Hnone k x Hk Heq).
Qed.

Lemma trackGrievance_lookup_witness :
  wellFormed exampleDb
  /\ trackGrievance "GRV-ABCD-EF_1" exampleDb exampleWorld
     = (Done (Json exampleGrievance), exampleDb, exampleWorld)
  /\ trackGrievance "GRV-0000-0000" emptyDb exampleWorld
     = (Done (Fail 404 "Grievance not found"), emptyDb, exampleWorld).
Proof.
  split; [ exact exampleDb_wellFormed | ]. split.
  - destruct (trackGrievance_lookup exampleDb exampleWorld "GRV-ABCD-EF_1"
                exampleDb_wellFormed) as [Hfound _].
    apply (Hfound "g-1" exampleGrievance); reflexivity.
  - destruct (trackGrievance_lookup emptyDb exampleWorld "GRV-0000-0000"
                emptyDb_wellFormed) as [_ Hnone].
    apply Hnone. intros k g Hk. cbn in Hk. rewrite lookup_empty in Hk.
    discriminate Hk.
Defined.

(** X3.  Round trip of a submission: on a database that satisfies the
    constraints, the grievance a submission is answered with carries the
    tracking id that was generated for it, and tracking that id
    afterwards gives back this very grievance. *)
Theorem submit_then_track (req : SubmitRequest) (db db' : Database)
    (w w' w2 : World) (g : Grievance.t) :
  wellFormed db ->
  postGrievance req db w = (Done (Json g), db', w') ->
  Grievance.trackingId g = nextTrackingId w
  /\ trackGrievance (Grievance.trackingId g) db' w2 = (Done (Json g), db', w2).
Proof.
  intros Hwf H.
  pose proof (postGrievance_wellFormed req _ _ _ _ _ H Hwf) as Hwf'.
  pose proof (postGrievance_Json _ _ _ _ _ _ H) as (db1 & Hc & Hg).
  assert (Hstored : grievances db' !! Grievance.id g = Some g).
  { apply createGrievance_Done in Hc.
    destruct Hc as (_&_&_&_&_&_&_&_&_&Hins&_).
    rewrite Hg, Hins. apply lookup_insert_eq. }
  split.
  - clear -Hc. unfold DatabaseStorage.createGrievance in Hc. mrun.
    repeat case_match; simplify_eq. reflexivity.
  - now apply (trackGrievance_found db' w2 (Grievance.id g) g).
Qed.

Lemma submit_then_track_witness :
  exists g db' w',
    postGrievance urgentRequest emptyDb exampleWorld = (Done (Json g), db', w')
    /\ Grievance.trackingId g = "GRV-ABCD-EF_1"
    /\ trackGrievance "GRV-ABCD-EF_1" db' w' = (Done (Json g), db', w').
Proof.
  assert (Hc : In (submitCategory urgentRequest) grievanceCategoryEnum)
    by (simpl; tauto).
  destruct (postGrievance_accepted urgentRequest emptyDb exampleWorld Hc
              emptyDb_accepts) as (g & db' & w' & E).
  destruct (submit_then_track urgentRequest emptyDb db' exampleWorld w' w' g
              emptyDb_wellFormed E) as [Hid Htrack].
  exists g, db', w'. split; [ exact E | ].
  assert (Hid' : Grievance.trackingId g = "GRV-ABCD-EF_1") by exact Hid.
  split; [ exact Hid' | ]. rewrite <- Hid'. exact Htrack.
Defined.

(* ===================================================================== *)
(** * Who may read and who may write *)
(* ===================================================================== *)

(** X4.  Reading one grievance.  An unknown id is answered 404 before any
    permission is looked at.  An existing grievance is sent to its owner,
    to an administrator, and to staff or faculty when it is not
    confidential; everybody else, also a caller who is no known user, is
    answered 403.  Nothing is changed. *)
Theorem getSingleGrievance_visibility (sub id : string) (db : Database)
    (w : World) :
  (grievances db !! id = None ->
   getSingleGrievance sub id db w
   = (Done (Fail 404 "Grievance not found"), db, w))
  /\ (forall g,
        grievances db !! id = Some g ->
        let allowed :=
          Grievance.userId g = Some sub
          \/ exists u,
               users db !! sub = Some u
               /\ (User.role u = "administrator"
                   \/ (In (User.role u) staffRoles
                       /\ Grievance.isConfidential g = false)) in
        (allowed ->
         getSingleGrievance sub id db w = (Done (Json g), db, w))
        /\ (~ allowed ->
            getSingleGrievance sub id db w
            = (Done (Fail 403 "Forbidden"), db, w))).
Proof.
  split.
  - intros Hnone. unfold getSingleGrievance, tryCatch,
      DatabaseStorage.getUser, DatabaseQueries.getGrievance. mrun.
    now rewrite Hnone.
  - intros g Hg allowed.
    assert (Hrun : getSingleGrievance sub id db w
                   = (Done (if negb (canAccess (users db !! sub) sub g)
                            then Fail 403 "Forbidden" else Json g), db, w)).
    { unfold getSingleGrievance, tryCatch, DatabaseStorage.getUser,
        DatabaseQueries.getGrievance. mrun. rewrite Hg.
      now destruct (negb (canAccess (users db !! sub) sub g)). }
    assert (Hcan : canAccess (users db !! sub) sub g = true <-> allowed).
    { unfold canAccess, allowed.
      destruct (users db !! sub) as [u | ].
      - rewrite !orb_true_iff, andb_true_iff, orb_true_iff, negb_true_iff,
          ownedBy_spec, includes_In, String.eqb_eq.
        split.
        + intros [Ho | [Hs [Hc | Ha]]]; [ now left | right .. ];
            exists u; split; auto.
        + intros [Ho | (u' & Hu' & [Ha | [Hs Hc]])]; [ now left | right .. ];
            inversion Hu'; subst u'.
          * split; [ rewrite Ha; simpl; tauto | now right ].
          * split; [ exact Hs | now left ].
      - rewrite ownedBy_spec. split; [ now left | ].
        intros [Ho | (u & Hu & _)]; [ exact Ho | discriminate Hu ]. }
    rewrite Hrun. split.
    + intros Ha. apply Hcan in Ha. now rewrite Ha.
    + intros Hna. destruct (canAccess (users db !! sub) sub g) eqn:E;
        [ | reflexivity ].
      exfalso. apply Hna, Hcan. reflexivity.
Qed.

Lemma getSingleGrievance_visibility_witness :
  grievances exampleDb !! "g-1" = Some exampleGrievance
  /\ getSingleGrievance "alice" "g-1" exampleDb exampleWorld
     = (Done (Json exampleGrievance), exampleDb, exampleWorld)
  /\ getSingleGrievance "mallory" "g-1" exampleDb exampleWorld
     = (Done (Fail 403 "Forbidden"), exampleDb, exampleWorld)
  /\ getSingleGrievance "alice" "g-2" exampleDb exampleWorld
     = (Done (Fail 404 "Grievance not found"), exampleDb, exampleWorld).
Proof.
  assert (Hg : grievances exampleDb !! "g-1" = Some exampleGrievance)
    by reflexivity.
  split; [ exact Hg | ].
  split; [ | split ].
  - destruct (getSingleGrievance_visibility "alice" "g-1" exampleDb exampleWorld)
      as [_ Hsome].
    destruct (Hsome exampleGrievance Hg) as [Hyes _].
    apply Hyes. left. reflexivity.
  - destruct (getSingleGrievance_visibility "mallory" "g-1" exampleDb
                exampleWorld) as [_ Hsome].
    destruct (Hsome exampleGrievance Hg) as [_ Hno].
    apply Hno. intros [Ho | (u & Hu & _)]; [ discriminate Ho | ].
    vm_compute in Hu. discriminate Hu.
  - destruct (getSingleGrievance_visibility "alice" "g-2" exampleDb exampleWorld)
      as [Hnone _].
    apply Hnone. reflexivity.
Defined.

(** X5.  Requests to change something from a caller without the right:
    a status request from a caller who is no known user or whose role is
    not staff, faculty or administrator, and a priority or role request
    from a caller who is no known user or not an administrator, are
    answered 403, and neither the database nor the clock is touched. *)
Theorem forbidden_writes_change_nothing (req : PatchRequest) (db : Database)
    (w : World) :
  ((forall u, users db !! patchSub req = Some u -> ~ In (User.role u) staffRoles) ->
   patchGrievanceStatus req db w = (Done (Fail 403 "Forbidden"), db, w))
  /\ ((forall u,
         users db !! patchSub req = Some u -> User.role u <> "administrator") ->
      patchGrievancePriority req db w = (Done (Fail 403 "Forbidden"), db, w)
      /\ patchUserRole req db w = (Done (Fail 403 "Forbidden"), db, w)).
Proof.
  split.
  - intros Hno. unfold patchGrievanceStatus, tryCatch.
    rewrite (bind_Done _ _ _ _ _ _ _ (getUser_run _ db w)).
    destruct (users db !! patchSub req) as [u | ]; [ | reflexivity ].
    specialize (Hno u eq_refl). apply includes_false_not_In in Hno.
    now rewrite Hno.
  - intros Hno. unfold patchGrievancePriority, patchUserRole, tryCatch.
    rewrite !(bind_Done _ _ _ _ _ _ _ (getUser_run _ db w)).
    destruct (users db !! patchSub req) as [u | ]; [ | split; reflexivity ].
    specialize (Hno u eq_refl). apply String.eqb_neq in Hno.
    now rewrite Hno.
Qed.

Lemma forbidden_writes_change_nothing_witness :
  patchGrievanceStatus (mkPatch "alice" "g-1" "resolved") exampleDb exampleWorld
  = (Done (Fail 403 "Forbidden"), exampleDb, exampleWorld)
  /\ patchGrievancePriority (mkPatch "sam" "g-1" "low") exampleDb exampleWorld
     = (Done (Fail 403 "Forbidden"), exampleDb, exampleWorld).
Proof.
  split.
  - destruct (forbidden_writes_change_nothing (mkPatch "alice" "g-1" "resolved")
                exampleDb exampleWorld) as [Hstatus _].
    apply Hstatus. intros u Hu. vm_compute in Hu. inversion Hu; subst u.
    simpl. intros H. repeat (destruct H as [H | H]; [ discriminate H | ]).
    exact H.
  - destruct (forbidden_writes_change_nothing (mkPatch "sam" "g-1" "low")
                exampleDb exampleWorld) as [_ Hadmin].
    apply Hadmin. intros u Hu. vm_compute in Hu. inversion Hu; subst u.
    discriminate.
Defined.

(* ===================================================================== *)
(** * What an update leaves alone *)
(* ===================================================================== *)

Lemma updateGrievancePriority_inv (id priority : string) (slaDeadline : Js.Date)
    (db db' : Database) (w w' : World) (o : Outcome (option Grievance.t)) :
  DatabaseStorage.updateGrievancePriority id priority slaDeadline db w
  = (o, db', w') ->
  w' = tick w
  /\ ((db' = db /\ (o = Done None \/ exists e, o = Raised e))
      \/ exists g deadline,
           grievances db !! id = Some g
           /\ slaDeadline = Js.DateMs deadline
           /\ In priority grievancePriorityEnum
           /\ o = Done (Some (Grievance.setPriority priority deadline
                                (nextTime w 0) g))
           /\ db' = mkDatabase (users db)
                      (<[id := Grievance.setPriority priority deadline
                                 (nextTime w 0) g]> (grievances db))
                      (comments db) (files db) (notifications db)).
Proof.
  unfold DatabaseStorage.updateGrievancePriority, DatabaseStorage.isLabel,
    nextTime. rewrite Nat.add_0_r.
  mrun. cbn [clock ticks tick]. intros H.
  repeat case_match; simplify_eq; split; eauto 10.
  unbool. right. eauto 10.
Qed.

Lemma updateGrievanceStatus_label (id status : string) (resolvedAt : option Z)
    (db db' : Database) (w w' : World) (g : Grievance.t) :
  DatabaseStorage.updateGrievanceStatus id status resolvedAt db w
  = (Done (Some g), db', w') ->
  In status grievanceStatusEnum.
Proof.
  unfold DatabaseStorage.updateGrievanceStatus, DatabaseStorage.isLabel.
  mrun. intros H. repeat case_match; simplify_eq. unbool. assumption.
Qed.

(** What a priority request does to the table of grievances. *)
Lemma patchGrievancePriority_table (req : PatchRequest) (db db' : Database)
    (w w' : World) (r : Outcome (Response Grievance.t)) :
  patchGrievancePriority req db w = (r, db', w') ->
  grievances db' = grievances db
  \/ exists g deadline now,
       grievances db !! patchId req = Some g
       /\ In (patchValue req) grievancePriorityEnum
       /\ grievances db'
          = <[patchId req := Grievance.setPriority (patchValue req) deadline
                               now g]> (grievances db).
Proof.
  unfold patchGrievancePriority. intros H.
  match type of H with
  | tryCatch _ ?b _ _ = _ => assert (Hbody : exists o, b db w = (o, db', w'))
  end.
  { apply tryCatch_inv in H. destruct H as [(? & H & _) | (? & H & _)]; eauto. }
  clear H. destruct Hbody as [o H].
  rewrite (bind_Done _ _ _ _ _ _ _ (getUser_run _ db w)) in H.
  destruct (users db !! patchSub req) as [u | ];
    [ | unfold ret in H; inversion H; auto ].
  destruct (negb (String.eqb (User.role u) "administrator"));
    [ unfold ret in H; inversion H; auto | ].
  rewrite (bind_Done _ _ _ _ _ _ _ (calculateSlaDeadline_run _ db w)) in H.
  apply bind_inv in H.
  destruct H as [(g' & db1 & w2 & Hu & H) | (e & Hu & _)].
  - apply updateGrievancePriority_inv in Hu.
    apply answer_keeps in H. destruct H as (_ & Hg & _).
    destruct Hu as [_ [[-> _] | (g & d & Hfound & _ & Hl & _ & ->)]];
      [ now left | ].
    right. exists g, d, (nextTime (tick w) 0). rewrite Hg. auto.
  - apply updateGrievancePriority_inv in Hu.
    destruct Hu as [_ [[-> _] | (g & d & _ & _ & _ & Ho & _)]];
      [ now left | discriminate Ho ].
Qed.

(** X6.  A status request never touches the identity, the owner, the
    classification, the priority, the SLA deadline or the creation time
    of any grievance, and a priority request never touches the identity,
    the owner, the classification, the status, the resolution timestamp
    or the creation time; neither removes a grievance. *)
Theorem updates_leave_the_rest (req : PatchRequest) (db db' : Database)
    (w w' : World) (r : Outcome (Response Grievance.t)) (k : string)
    (g : Grievance.t) :
  grievances db !! k = Some g ->
  (patchGrievanceStatus req db w = (r, db', w') ->
   exists g',
     grievances db' !! k = Some g'
     /\ Grievance.id g' = Grievance.id g
     /\ Grievance.trackingId g' = Grievance.trackingId g
     /\ Grievance.userId g' = Grievance.userId g
     /\ Grievance.isAnonymous g' = Grievance.isAnonymous g
     /\ Grievance.isConfidential g' = Grievance.isConfidential g
     /\ Grievance.category g' = Grievance.category g
     /\ Grievance.priority g' = Grievance.priority g
     /\ Grievance.slaDeadline g' = Grievance.slaDeadline g
     /\ Grievance.createdAt g' = Grievance.createdAt g)
  /\ (patchGrievancePriority req db w = (r, db', w') ->
      exists g',
        grievances db' !! k = Some g'
        /\ Grievance.id g' = Grievance.id g
        /\ Grievance.trackingId g' = Grievance.trackingId g
        /\ Grievance.userId g' = Grievance.userId g
        /\ Grievance.isAnonymous g' = Grievance.isAnonymous g
        /\ Grievance.isConfidential g' = Grievance.isConfidential g
        /\ Grievance.category g' = Grievance.category g
        /\ Grievance.status g' = Grievance.status g
        /\ Grievance.resolvedAt g' = Grievance.resolvedAt g
        /\ Grievance.createdAt g' = Grievance.createdAt g).
Proof.
  intros Hk. split; intros H.
  - apply patchGrievanceStatus_table in H.
    destruct H as [-> | (g0 & ra & now & Hg0 & -> & _)];
      [ exists g; repeat split; auto | ].
    destruct (decide (k = patchId req)) as [-> | Hne].
    + rewrite lookup_insert_eq. rewrite Hk in Hg0. inversion Hg0; subst g0.
      eexists. split; [ reflexivity | ]. cbn. repeat split.
    + rewrite lookup_insert_ne by auto. exists g. repeat split; auto.
  - apply patchGrievancePriority_table in H.
    destruct H as [-> | (g0 & d & now & Hg0 & _ & ->)];
      [ exists g; repeat split; auto | ].
    destruct (decide (k = patchId req)) as [-> | Hne].
    + rewrite lookup_insert_eq. rewrite Hk in Hg0. inversion Hg0; subst g0.
      eexists. split; [ reflexivity | ]. cbn. repeat split.
    + rewrite lookup_insert_ne by auto. exists g. repeat split; auto.
Qed.

Lemma updates_leave_the_rest_witness :
  grievances exampleDb !! "g-1" = Some exampleGrievance
  /\ exists r db' w' g',
       patchGrievanceStatus resolveRequest exampleDb exampleWorld = (r, db', w')
       /\ grievances db' !! "g-1" = Some g'
       /\ Grievance.slaDeadline g' = Some 900
       /\ Grievance.priority g' = "medium"
       /\ Grievance.trackingId g' = "GRV-ABCD-EF_1".
Proof.
  assert (Hg : grievances exampleDb !! "g-1" = Some exampleGrievance)
    by reflexivity.
  split; [ exact Hg | ].
  destruct (patchGrievanceStatus resolveRequest exampleDb exampleWorld)
    as [[r db'] w'] eqn:E.
  destruct (updates_leave_the_rest resolveRequest exampleDb db' exampleWorld w'
              r "g-1" exampleGrievance Hg) as [Hstatus _].
  destruct (Hstatus E) as (g' & Hg' & _ & Htid & _ & _ & _ & _ & Hp & Hsla & _).
  exists r, db', w', g'. repeat split; assumption.
Defined.

Lemma updateGrievancePriority_label (id priority : string) (slaDeadline : Js.Date)
    (db db' : Database) (w w' : World) (g : Grievance.t) :
  DatabaseStorage.updateGrievancePriority id priority slaDeadline db w
  = (Done (Some g), db', w') ->
  In priority grievancePriorityEnum.
Proof.
  intros H. apply updateGrievancePriority_inv in H.
  destruct H as [_ [[_ [Ho | [e Ho]]] | (? & ? & _ & _ & Hl & _)]];
    [ discriminate Ho | discriminate Ho | exact Hl ].
Qed.

Lemma resolvedAtFor_run (status : string) (db : Database) (w : World) :
  exists ra w1, resolvedAtFor status db w = (Done ra, db, w1).
Proof.
  unfold resolvedAtFor.
  destruct (String.eqb status "resolved" || String.eqb status "closed");
    mrun; eauto.
Qed.

Lemma patchGrievanceStatus_refused (req : PatchRequest) (db : Database)
    (w : World) (u : User.t) :
  users db !! patchSub req = Some u ->
  In (User.role u) staffRoles ->
  grievances db !! patchId req = None
  \/ ~ In (patchValue req) grievanceStatusEnum ->
  exists w',
    patchGrievanceStatus req db w
    = (Done (Fail 500 "Failed to update status"), db, w').
Proof.
  intros Hu Hrole Hbad. apply includes_In in Hrole.
  unfold patchGrievanceStatus, tryCatch.
  rewrite (bind_Done _ _ _ _ _ _ _ (getUser_run _ db w)), Hu, Hrole.
  cbn [negb].
  destruct (resolvedAtFor_run (patchValue req) db w) as (ra & w1 & Era).
  rewrite (bind_Done _ _ _ _ _ _ _ Era).
  destruct (DatabaseStorage.updateGrievanceStatus (patchId req)
              (patchValue req) ra db w1) as [[o db1] w2] eqn:E.
  pose proof (updateGrievanceStatus_inv _ _ _ _ _ _ _ _ E) as Hinv.
  destruct Hinv as [_ [[-> [-> | [e ->]]] | (g & Hg & -> & _)]].
  - rewrite (bind_Done _ _ _ _ _ _ _ E). eauto.
  - rewrite (bind_Raised _ _ _ _ _ _ _ E). eauto.
  - exfalso. destruct Hbad as [Hnone | Hlabel]; [ congruence | ].
    apply Hlabel. eapply updateGrievanceStatus_label, E.
Qed.

Lemma patchGrievancePriority_refused (req : PatchRequest) (db : Database)
    (w : World) (u : User.t) :
  users db !! patchSub req = Some u ->
  User.role u = "administrator" ->
  grievances db !! patchId req = None
  \/ ~ In (patchValue req) grievancePriorityEnum ->
  exists w',
    patchGrievancePriority req db w
    = (Done (Fail 500 "Failed to update priority"), db, w').
Proof.
  intros Hu Hrole Hbad.
  unfold patchGrievancePriority, tryCatch.
  rewrite (bind_Done _ _ _ _ _ _ _ (getUser_run _ db w)), Hu, Hrole,
    String.eqb_refl.
  cbn [negb].
  rewrite (bind_Done _ _ _ _ _ _ _ (calculateSlaDeadline_run _ db w)).
  match goal with
  | |- context [DatabaseStorage.updateGrievancePriority ?i ?p ?d] =>
      destruct (DatabaseStorage.updateGrievancePriority i p d db (tick w))
        as [[o db1] w2] eqn:E
  end.
  pose proof (updateGrievancePriority_inv _ _ _ _ _ _ _ _ E) as Hinv.
  destruct Hinv as [_ [[-> [-> | [e ->]]] | (g & d & Hg & _ & Hl & -> & _)]].
  - rewrite (bind_Done _ _ _ _ _ _ _ E). eauto.
  - rewrite (bind_Raised _ _ _ _ _ _ _ E). eauto.
  - exfalso. destruct Hbad as [Hnone | Hlabel]; [ congruence | auto ].
Qed.

(** On a body that carries the field the handlers are those of the
    sections above. *)
Lemma patchStatus_text (sub id text : string) :
  patchStatus (mkPatchBody sub id (Some text))
  = patchGrievanceStatus (mkPatch sub id text).
Proof. reflexivity. Qed.

Lemma patchPriority_text (sub id text : string) :
  patchPriority (mkPatchBody sub id (Some text))
  = patchGrievancePriority (mkPatch sub id text).
Proof. reflexivity. Qed.


(** The answer of both PATCH handlers once a row has been rewritten:
    the row, unless the notification of the owner fails. *)
Lemma answer_after_update (failure : string) (g : Grievance.t)
    (id title message : string) (db : Database) (w : World) :
  exists r db' w',
    tryCatch failure (notifyOwner g id title message;; ret (Json g)) db w
    = (Done r, db', w')
    /\ grievances db' = grievances db
    /\ users db' = users db
    /\ comments db' = comments db
    /\ (r = Json g \/ r = Fail 500 failure)
    /\ (Grievance.userId g = None -> r = Json g).
Proof.
  destruct (notifyOwner g id title message db w) as [[o db1] w1] eqn:E.
  pose proof (notifyOwner_keeps _ _ _ _ _ _ _ _ _ E) as (Hu & Hg & Hc & _).
  assert (Hanon : Grievance.userId g = None -> o = Done tt).
  { intros Hnone. unfold notifyOwner in E. rewrite Hnone in E.
    unfold ret in E. now inversion E. }
  unfold tryCatch. destruct o as [[] | e].
  - rewrite (bind_Done _ _ _ _ _ _ _ E). unfold ret.
    exists (Json g), db1, w1. repeat split; auto.
  - rewrite (bind_Raised _ _ _ _ _ _ _ E).
    exists (Fail 500 failure), db1, w1. repeat split; auto.
    intros Hnone. specialize (Hanon Hnone). discriminate Hanon.
Qed.

(** X7.  PATCH requests with a value outside the enumeration.  A status
    request by staff, faculty or an administrator, and a priority request
    by an administrator, for an id that no grievance has, or with a text
    that is no label of the enumeration, is answered with the generic
    failure 500, not with 404 or 400, and the database is left as it
    was.  A request whose body has no such field at all is not refused:
    the row is rewritten with the status or priority it had and a new
    update time, a priority request also sets the deadline to 72 hours
    after the request, and the answer is the row (or 500 when the
    notification of the owner fails). *)
Theorem updates_outside_the_enumeration (req : PatchBody) (db : Database)
    (w : World) (u : User.t) :
  users db !! bodySub req = Some u ->
  (In (User.role u) staffRoles ->
   (grievances db !! bodyId req = None
    \/ (exists text,
          bodyField req = Some text /\ ~ In text grievanceStatusEnum) ->
    exists w',
      patchStatus req db w
      = (Done (Fail 500 "Failed to update status"), db, w'))
   /\ (forall g,
         bodyField req = None ->
         grievances db !! bodyId req = Some g ->
         let row :=
           Grievance.setStatus (Grievance.status g) (nextTime w 0) None g in
         exists r db' w',
           patchStatus req db w = (Done r, db', w')
           /\ grievances db' = <[bodyId req := row]> (grievances db)
           /\ users db' = users db
           /\ comments db' = comments db
           /\ (r = Json row \/ r = Fail 500 "Failed to update status")
           /\ (Grievance.userId g = None -> r = Json row)))
  /\ (User.role u = "administrator" ->
      (grievances db !! bodyId req = None
       \/ (exists text,
             bodyField req = Some text /\ ~ In text grievancePriorityEnum) ->
       exists w',
         patchPriority req db w
         = (Done (Fail 500 "Failed to update priority"), db, w'))
      /\ (forall g,
            bodyField req = None ->
            grievances db !! bodyId req = Some g ->
            let row :=
              Grievance.setPriority (Grievance.priority g)
                (nextTime w 0 + 72 * hour_ms) (nextTime w 1) g in
            exists r db' w',
              patchPriority req db w = (Done r, db', w')
              /\ grievances db' = <[bodyId req := row]> (grievances db)
              /\ users db' = users db
              /\ comments db' = comments db
              /\ (r = Json row \/ r = Fail 500 "Failed to update priority")
              /\ (Grievance.userId g = None -> r = Json row))).
Proof.
  destruct req as [sub id field]. cbn [bodySub bodyId bodyField].
  intros Hu. split.
  - intros Hrole. split.
    + intros Hbad. destruct field as [text | ].
      * rewrite patchStatus_text.
        apply (patchGrievanceStatus_refused (mkPatch sub id text) db w u Hu Hrole).
        destruct Hbad as [Hnone | (t & Ht & Hlabel)]; [ now left | right ].
        inversion Ht; subst t. exact Hlabel.
      * destruct Hbad as [Hnone | (t & Ht & _)]; [ | discriminate Ht ].
        apply includes_In in Hrole. unfold patchStatus, tryCatch. cbn [bodySub bodyId bodyField].
        rewrite (bind_Done _ _ _ _ _ _ _ (getUser_run _ db w)), Hu, Hrole.
        cbn [negb bodyId bodyField resolvedAtOf
               DatabaseUpdates.updateGrievanceStatus].
        mrun. rewrite Hnone. eexists. reflexivity.
    + intros g -> Hg.
      set (row := Grievance.setStatus (Grievance.status g) (nextTime w 0)
                    None g).
      apply includes_In in Hrole. unfold patchStatus.
      destruct (answer_after_update "Failed to update status" row id
                  "Status Updated"
                  "Your grievance status has been updated to undefined."
                  (mkDatabase (users db) (<[id := row]> (grievances db))
                     (comments db) (files db) (notifications db)) (tick w))
        as (r & db' & w' & E & Hg' & Hu' & Hc' & Hr).
      exists r, db', w'. split; [ | repeat split; tauto ].
      rewrite <- E. unfold tryCatch. cbn [bodySub bodyId bodyField].
      rewrite (bind_Done _ _ _ _ _ _ _ (getUser_run _ db w)), Hu, Hrole.
      cbn [negb bodyId bodyField resolvedAtOf
             DatabaseUpdates.updateGrievanceStatus fieldValue Js.to_string].
      subst row. unfold nextTime. rewrite Nat.add_0_r.
      mrun. rewrite Hg. reflexivity.
  - intros Hrole. split.
    + intros Hbad. destruct field as [text | ].
      * rewrite patchPriority_text.
        apply (patchGrievancePriority_refused (mkPatch sub id text) db w u Hu
                 Hrole).
        destruct Hbad as [Hnone | (t & Ht & Hlabel)]; [ now left | right ].
        inversion Ht; subst t. exact Hlabel.
      * destruct Hbad as [Hnone | (t & Ht & _)]; [ | discriminate Ht ].
        unfold patchPriority, tryCatch. cbn [bodySub bodyId bodyField].
        rewrite (bind_Done _ _ _ _ _ _ _ (getUser_run _ db w)), Hu, Hrole,
          String.eqb_refl.
        cbn [negb bodyId bodyField fieldValue].
        rewrite (bind_Done _ _ _ _ _ _ _ (calculateSlaDeadline_run _ db w)).
        cbn [DatabaseUpdates.updateGrievancePriority].
        change (slaDeadlineFrom (nextTime w 0) Js.Undefined)
          with (Js.DateMs (nextTime w 0 + 72 * 60 * 60 * 1000)).
        mrun. cbn [grievances]. rewrite Hnone. eexists. reflexivity.
    + intros g -> Hg.
      set (row := Grievance.setPriority (Grievance.priority g)
                    (nextTime w 0 + 72 * hour_ms) (nextTime w 1) g).
      unfold patchPriority.
      destruct (answer_after_update "Failed to update priority" row id
                  "Priority Updated"
                  "Your grievance priority has been updated to undefined."
                  (mkDatabase (users db) (<[id := row]> (grievances db))
                     (comments db) (files db) (notifications db))
                  (tick (tick w)))
        as (r & db' & w' & E & Hg' & Hu' & Hc' & Hr).
      exists r, db', w'. split; [ | repeat split; tauto ].
      rewrite <- E. unfold tryCatch. cbn [bodySub bodyId bodyField].
      rewrite (bind_Done _ _ _ _ _ _ _ (getUser_run _ db w)), Hu, Hrole,
        String.eqb_refl.
      cbn [negb bodyId bodyField fieldValue Js.to_string].
      rewrite (bind_Done _ _ _ _ _ _ _ (calculateSlaDeadline_run _ db w)).
      cbn [DatabaseUpdates.updateGrievancePriority].
      change (slaDeadlineFrom (nextTime w 0) Js.Undefined)
        with (Js.DateMs (nextTime w 0 + 72 * 60 * 60 * 1000)).
      assert (Hd : nextTime w 0 + 72 * 60 * 60 * 1000
                   = nextTime w 0 + 72 * hour_ms) by (unfold hour_ms; lia).
      rewrite Hd. subst row. unfold nextTime. rewrite Nat.add_0_r.
      replace (ticks w + 1)%nat with (S (ticks w)) by lia.
      mrun. cbn [grievances ticks tick clock]. rewrite Hg. reflexivity.
Qed.

Lemma updates_outside_the_enumeration_witness :
  (exists w1,
     patchStatus (mkPatchBody "sam" "g-2" (Some "resolved")) exampleDb
       exampleWorld
     = (Done (Fail 500 "Failed to update status"), exampleDb, w1))
  /\ (exists w2,
        patchPriority (mkPatchBody "root" "g-1" (Some "constructor")) exampleDb
          exampleWorld
        = (Done (Fail 500 "Failed to update priority"), exampleDb, w2))
  /\ exists r db' w',
       patchPriority (mkPatchBody "root" "g-1" None) exampleDb exampleWorld
       = (Done r, db', w')
       /\ grievances db' !! "g-1"
          = Some (Grievance.setPriority "medium"
                    (nextTime exampleWorld 0 + 72 * hour_ms)
                    (nextTime exampleWorld 1) exampleGrievance).
Proof.
  destruct (updates_outside_the_enumeration
              (mkPatchBody "sam" "g-2" (Some "resolved")) exampleDb
              exampleWorld (User.mk "sam" "staff" None))
    as [Hstatus _]; [ vm_compute; reflexivity | ].
  destruct Hstatus as [Hrefused _]; [ simpl; tauto | ].
  destruct Hrefused as [w1 E1]; [ left; reflexivity | ].
  destruct (updates_outside_the_enumeration
              (mkPatchBody "root" "g-1" (Some "constructor")) exampleDb
              exampleWorld (User.mk "root" "administrator" None))
    as [_ Hprio]; [ vm_compute; reflexivity | ].
  destruct Hprio as [Hrefused _]; [ reflexivity | ].
  destruct Hrefused as [w2 E2].
  { right. exists "constructor". split; [ reflexivity | ].
    simpl. intros H. repeat (destruct H as [H | H]; [ discriminate H | ]).
    exact H. }
  destruct (updates_outside_the_enumeration
              (mkPatchBody "root" "g-1" None) exampleDb
              exampleWorld (User.mk "root" "administrator" None))
    as [_ Hprio]; [ vm_compute; reflexivity | ].
  destruct Hprio as [_ Hkept]; [ reflexivity | ].
  destruct (Hkept exampleGrievance eq_refl) as (r & db' & w' & E & Hg & _);
    [ vm_compute; reflexivity | ].
  split; [ exists w1; exact E1 | ].
  split; [ exists w2; exact E2 | ].
  exists r, db', w'. split; [ exact E | ].
  rewrite Hg. cbn [bodyId]. apply lookup_insert_eq.
Defined.

(* ===================================================================== *)
(** * Listings *)
(* ===================================================================== *)

Lemma listing_spec {A} (key : A -> Z) (f : A -> bool) (table : gmap string A) :
  decreasing key (orderByDesc key (List.filter f (rows table)))
  /\ forall x,
       In x (orderByDesc key (List.filter f (rows table)))
       <-> (exists k, table !! k = Some x) /\ f x = true.
Proof.
  split; [ apply orderByDesc_decreasing | ].
  intros x. now rewrite orderByDesc_In, filter_In, elem_of_rows.
Qed.

Lemma getMyGrievances_spec (sub : string) (db : Database) (w : World) :
  exists l,
    getMyGrievances sub db w = (Done (Json l), db, w)
    /\ decreasing Grievance.createdAt l
    /\ forall g,
         In g l <-> (exists k, grievances db !! k = Some g)
                    /\ Grievance.userId g = Some sub.
Proof.
  eexists. split; [ reflexivity | ].
  destruct (listing_spec Grievance.createdAt (ownedBy sub) (grievances db))
    as [Hs Hin].
  split; [ exact Hs | ]. intros g. now rewrite Hin, ownedBy_spec.
Qed.

(** X8.  The listings.  GET /api/grievances/my answers with exactly the
    grievances whose owner is the caller (so none that was submitted
    anonymously), GET /api/grievances/:id/comments with exactly the
    comments of that grievance, whoever asks and internal or not, and
    GET /api/notifications with exactly the notifications addressed to
    the caller; each list is by decreasing creation time, and nothing is
    changed. *)
Theorem listings (sub id : string) (db : Database) (w : World) :
  (exists l,
     getMyGrievances sub db w = (Done (Json l), db, w)
     /\ decreasing Grievance.createdAt l
     /\ forall g,
          In g l <-> (exists k, grievances db !! k = Some g)
                     /\ Grievance.userId g = Some sub)
  /\ (exists l,
        getComments id db w = (Done (Json l), db, w)
        /\ decreasing Comment.createdAt l
        /\ forall c,
             In c l <-> (exists k, comments db !! k = Some c)
                        /\ Comment.grievanceId c = id)
  /\ (exists l,
        getNotifications sub db w = (Done (Json l), db, w)
        /\ decreasing Notification.createdAt l
        /\ forall n,
             In n l <-> (exists k, notifications db !! k = Some n)
                        /\ Notification.userId n = sub).
Proof.
  repeat apply conj.
  - apply getMyGrievances_spec.
  - eexists. split; [ reflexivity | ].
    destruct (listing_spec Comment.createdAt
                (fun c => String.eqb (Comment.grievanceId c) id) (comments db))
      as [Hs Hin].
    split; [ exact Hs | ]. intros c. now rewrite Hin, String.eqb_eq.
  - eexists. split; [ reflexivity | ].
    destruct (listing_spec Notification.createdAt
                (fun n => String.eqb (Notification.userId n) sub)
                (notifications db)) as [Hs Hin].
    split; [ exact Hs | ]. intros n. now rewrite Hin, String.eqb_eq.
Qed.

(** X9.  GET /api/grievances/all: staff, faculty and administrators get
    every grievance, confidential ones included, by decreasing creation
    time; any other caller is answered 403; nothing is changed. *)
Theorem getAllGrievancesForStaff_gate (sub : string) (db : Database)
    (w : World) :
  (forall u,
     users db !! sub = Some u ->
     In (User.role u) staffRoles ->
     exists l,
       getAllGrievancesForStaff sub db w = (Done (Json l), db, w)
       /\ decreasing Grievance.createdAt l
       /\ forall g, In g l <-> exists k, grievances db !! k = Some g)
  /\ ((forall u, users db !! sub = Some u -> ~ In (User.role u) staffRoles) ->
      getAllGrievancesForStaff sub db w = (Done (Fail 403 "Forbidden"), db, w)).
Proof.
  split.
  - intros u Hu Hrole. apply includes_In in Hrole.
    unfold getAllGrievancesForStaff, tryCatch.
    rewrite (bind_Done _ _ _ _ _ _ _ (getUser_run _ db w)), Hu, Hrole.
    cbn [negb]. eexists. split; [ reflexivity | ].
    split; [ apply orderByDesc_decreasing | ].
    intros g. now rewrite orderByDesc_In, elem_of_rows.
  - intros Hno. unfold getAllGrievancesForStaff, tryCatch.
    rewrite (bind_Done _ _ _ _ _ _ _ (getUser_run _ db w)).
    destruct (users db !! sub) as [u | ]; [ | reflexivity ].
    specialize (Hno u eq_refl). apply includes_false_not_In in Hno.
    now rewrite Hno.
Qed.

Lemma getAllGrievancesForStaff_gate_witness :
  (exists l,
     getAllGrievancesForStaff "sam" exampleDb exampleWorld
     = (Done (Json l), exampleDb, exampleWorld)
     /\ In exampleGrievance l)
  /\ getAllGrievancesForStaff "alice" exampleDb exampleWorld
     = (Done (Fail 403 "Forbidden"), exampleDb, exampleWorld).
Proof.
  destruct (getAllGrievancesForStaff_gate "sam" exampleDb exampleWorld)
    as [Hstaff _].
  destruct (Hstaff (User.mk "sam" "staff" None)) as (l & E & _ & Hin);
    [ vm_compute; reflexivity | simpl; tauto | ].
  split.
  - exists l. split; [ exact E | ]. apply Hin. exists "g-1". reflexivity.
  - destruct (getAllGrievancesForStaff_gate "alice" exampleDb exampleWorld)
      as [_ Hno].
    apply Hno. intros u Hu. vm_compute in Hu. inversion Hu; subst u.
    simpl. intros H. repeat (destruct H as [H | H]; [ discriminate H | ]).
    exact H.
Defined.

(* ===================================================================== *)
(** * Notifications *)
(* ===================================================================== *)

(** What an insert into [notifications] does when it goes through. *)
Lemma createNotification_Done (data : InsertNotification.t)
    (db db' : Database) (w w' : World) (n : Notification.t) :
  DatabaseStorage.createNotification data db w = (Done n, db', w') ->
  n = {| Notification.id := nextUuid w 0;
         Notification.userId := InsertNotification.userId data;
         Notification.grievanceId := InsertNotification.grievanceId data;
         Notification.title := InsertNotification.title data;
         Notification.message := InsertNotification.message data;
         Notification.isRead := InsertNotification.isRead data;
         Notification.createdAt := nextTime (drawUuid w) 0 |}
  /\ notifications db !! nextUuid w 0 = None
  /\ db' = mkDatabase (users db) (grievances db) (comments db) (files db)
             (<[nextUuid w 0 := n]> (notifications db)).
Proof.
  unfold DatabaseStorage.createNotification, nextUuid, nextTime.
  rewrite !Nat.add_0_r. mrun. intros H.
  repeat case_match; simplify_eq. unbool.
  repeat split. now apply eq_None_not_Some.
Qed.

(** X10.  Telling the owner.  When staff, faculty or an administrator
    sets a status of the enumeration on a grievance that has an owner,
    and the database accepts the notification, the request is answered
    with the updated grievance and exactly one notification is added: it
    is addressed to the owner, unread, mentions the grievance, and its
    message names the new status; the owner then finds it in the list of
    GET /api/notifications.  On a grievance without owner no
    notification is written. *)
Theorem patchGrievanceStatus_notifies (req : PatchRequest) (db : Database)
    (w : World) (u : User.t) (g : Grievance.t) :
  users db !! patchSub req = Some u ->
  In (User.role u) staffRoles ->
  In (patchValue req) grievanceStatusEnum ->
  grievances db !! patchId req = Some g ->
  (forall owner,
     Grievance.userId g = Some owner ->
     owner <> "" ->
     is_Some (users db !! owner) ->
     notifications db !! nextUuid w 0 = None ->
     exists g' n db' w',
       patchGrievanceStatus req db w = (Done (Json g'), db', w')
       /\ grievances db' !! patchId req = Some g'
       /\ notifications db' = <[nextUuid w 0 := n]> (notifications db)
       /\ Notification.userId n = owner
       /\ Notification.grievanceId n = Some (patchId req)
       /\ Notification.isRead n = false
       /\ Notification.title n = "Status Updated"
       /\ Notification.message n
          = String.append "Your grievance status has been updated to "
              (String.append (patchValue req) ".")
       /\ forall w2, exists l,
            getNotifications owner db' w2 = (Done (Json l), db', w2)
            /\ In n l)
  /\ (Grievance.userId g = None ->
      exists g' db' w',
        patchGrievanceStatus req db w = (Done (Json g'), db', w')
        /\ notifications db' = notifications db).
Proof.
  intros Hu Hrole Hlabel Hg. apply includes_In in Hrole.
  destruct (resolvedAtFor_run (patchValue req) db w) as (ra & w1 & Era).
  assert (Hstart : patchGrievanceStatus req db w
    = tryCatch "Failed to update status"
        (notifyOwner (Grievance.setStatus (patchValue req) (nextTime w1 0) ra g)
           (patchId req) "Status Updated"
           (String.append "Your grievance status has been updated to "
              (String.append (patchValue req) "."));;
         ret (Json (Grievance.setStatus (patchValue req) (nextTime w1 0) ra g)))
        (mkDatabase (users db)
           (<[patchId req := Grievance.setStatus (patchValue req)
                                (nextTime w1 0) ra g]> (grievances db))
           (comments db) (files db) (notifications db))
        (tick w1)).
  { unfold patchGrievanceStatus, tryCatch.
    rewrite (bind_Done _ _ _ _ _ _ _ (getUser_run _ db w)), Hu, Hrole.
    cbn [negb]. rewrite (bind_Done _ _ _ _ _ _ _ Era).
    now rewrite (bind_Done _ _ _ _ _ _ _
                   (updateGrievanceStatus_found _ _ ra db w1 g Hlabel Hg)). }
  assert (Huuid : nextUuid (tick w1) 0 = nextUuid w 0).
  { revert Era. unfold resolvedAtFor.
    destruct (String.eqb (patchValue req) "resolved"
              || String.eqb (patchValue req) "closed");
      mrun; intros Era; inversion Era; subst; reflexivity. }
  set (db1 := mkDatabase _ _ _ _ _) in Hstart.
  rewrite Hstart. clear Hstart. unfold tryCatch, notifyOwner.
  cbn [Grievance.setStatus Grievance.userId]. split.
  - intros owner Howner Hne Hexists Hfresh. rewrite Howner.
    assert (Htruthy : Js.truthy_string owner = true).
    { unfold Js.truthy_string. apply negb_true_iff. now apply String.eqb_neq. }
    rewrite Htruthy.
    match goal with
    | |- context [DatabaseStorage.createNotification ?d] =>
        destruct (createNotification_accepts d db1 (tick w1)) as (n & db' & E)
    end.
    + rewrite Huuid. exact Hfresh.
    + exact Hexists.
    + apply references_Some. subst db1. cbn [grievances].
      rewrite lookup_insert_eq. eauto.
    + rewrite (bind_Done _ _ _ _ _ _ _
                 (bind_Done _ (fun _ => ret tt) _ _ _ _ _ E)).
      apply createNotification_Done in E. rewrite Huuid in E.
      destruct E as (Hn & _ & Hdb').
      do 4 eexists. split; [ reflexivity | ].
      rewrite Hdb'. subst db1. cbn [grievances notifications].
      split; [ apply lookup_insert_eq | ].
      split; [ reflexivity | ].
      rewrite Hn. cbn. repeat split.
      intros w2. eexists. split; [ reflexivity | ].
      apply orderByDesc_In, filter_In. split.
      * apply elem_of_rows. exists (nextUuid w 0). cbn [notifications].
        apply lookup_insert_eq.
      * cbn. apply String.eqb_refl.
  - intros Hnone. rewrite Hnone. do 3 eexists. split; reflexivity.
Qed.

Lemma patchGrievanceStatus_notifies_witness :
  exists g' n db' w',
    patchGrievanceStatus resolveRequest exampleDb exampleWorld
    = (Done (Json g'), db', w')
    /\ notifications db' = <["uuid-a" := n]> ∅
    /\ Notification.userId n = "alice"
    /\ Notification.message n
       = "Your grievance status has been updated to resolved.".
Proof.
  destruct (patchGrievanceStatus_notifies resolveRequest exampleDb exampleWorld
              (User.mk "sam" "staff" None) exampleGrievance) as [Howned _].
  - vm_compute. reflexivity.
  - simpl. tauto.
  - simpl. tauto.
  - reflexivity.
  - destruct (Howned "alice") as (g' & n & db' & w' & E & _ & Hn & Hu & _ & _ & _
                                  & Hm & _).
    + reflexivity.
    + discriminate.
    + eexists. vm_compute. reflexivity.
    + reflexivity.
    + exists g', n, db', w'. repeat split; assumption.
Defined.

(* ===================================================================== *)
(** * Anonymous and owned submissions *)
(* ===================================================================== *)

(** The steps of a submission that is answered with a grievance. *)
Lemma postGrievance_steps (req : SubmitRequest) (db db' : Database)
    (w w' : World) (g : Grievance.t) :
  postGrievance req db w = (Done (Json g), db', w') ->
  exists db1 w1 db2 w2,
    DatabaseStorage.createGrievance
      (submitData req (getAutoPriority (submitCategory req))
         (slaDeadlineFrom (nextTime w 0) (getAutoPriority (submitCategory req)))
         (nextTrackingId w))
      db (drawNanoid (drawNanoid (tick w))) = (Done g, db1, w1)
    /\ uploadFiles req g db1 w1 = (Done tt, db2, w2)
    /\ notifySubmitted req g db2 w2 = (Done tt, db', w').
Proof.
  rewrite postGrievance_prefix. intros H.
  apply tryCatch_inv in H. destruct H as [(r & H & Hr) | (e & _ & Hr)];
    [ | discriminate Hr ].
  inversion Hr; subst r; clear Hr.
  apply bind_inv in H.
  destruct H as [(g0 & db1 & w1 & Hc & H) | (e & _ & He)]; [ | discriminate He ].
  apply bind_inv in H.
  destruct H as [([] & db2 & w2 & Hf & H) | (e & _ & He)]; [ | discriminate He ].
  apply bind_inv in H.
  destruct H as [([] & db3 & w3 & Hn & H) | (e & _ & He)]; [ | discriminate He ].
  unfold ret in H. inversion H; subst; clear H. eauto 10.
Qed.

(** Every attachment stored by a submission belongs to its grievance and
    records the uploader the request determines. *)
Lemma uploadFiles_files (req : SubmitRequest) (g : Grievance.t) :
  keeps (fun db w db' w' =>
           notifications db' = notifications db
           /\ forall k f,
                files db' !! k = Some f ->
                files db !! k = Some f
                \/ (File.grievanceId f = Grievance.id g
                    /\ File.uploadedBy f
                       = if String.eqb (submitIsAnonymous req) "true"
                         then None else Some (submitSub req)))
    (uploadFiles req g).
Proof.
  unfold uploadFiles. apply forEach_keeps.
  - intros db w. auto.
  - intros db w db1 w1 db2 w2 [Hn1 Hf1] [Hn2 Hf2]. split; [ congruence | ].
    intros k f Hk. destruct (Hf2 k f Hk) as [Hk1 | ?]; auto.
  - intros file. apply keeps_bind.
    + intros db w db1 w1 db2 w2 [Hn1 Hf1] [Hn2 Hf2]. split; [ congruence | ].
      intros k f Hk. destruct (Hf2 k f Hk) as [Hk1 | ?]; auto.
    + intros db w o db' w' H. unfold DatabaseStorage.createFile in H. mrun.
      repeat case_match; simplify_eq; cbn [notifications files];
        (split; [ reflexivity | ]); intros k f Hk; try (now left).
      all: apply lookup_insert_Some in Hk.
      all: destruct Hk as [[_ <-] | [_ Hk]]; [ right; cbn; auto | now left ].
    + intros _. apply keeps_ret. auto.
Qed.

(** X11.  An anonymous submission leaves no trace of its sender: the
    grievance it is answered with has no owner, no notification is
    written, every attachment stored with it has no uploader, and it is
    not among the grievances GET /api/grievances/my lists for the
    sender. *)
Theorem anonymous_submission (req : SubmitRequest) (db db' : Database)
    (w w' : World) (g : Grievance.t) :
  submitIsAnonymous req = "true" ->
  postGrievance req db w = (Done (Json g), db', w') ->
  Grievance.userId g = None
  /\ Grievance.isAnonymous g = true
  /\ notifications db' = notifications db
  /\ (forall k f,
        files db' !! k = Some f ->
        files db !! k = Some f
        \/ (File.grievanceId f = Grievance.id g /\ File.uploadedBy f = None))
  /\ (forall w2 l,
        getMyGrievances (submitSub req) db' w2 = (Done (Json l), db', w2) ->
        ~ In g l).
Proof.
  intros Hanon H.
  apply postGrievance_steps in H.
  destruct H as (db1 & w1 & db2 & w2 & Hc & Hf & Hn).
  apply createGrievance_Done in Hc.
  destruct Hc as (_ & _ & _ & _ & _ & _ & Huser & Hanon' & _ & _ & _ & Hn1 & Hf1 & _).
  cbn [submitData InsertGrievance.userId InsertGrievance.isAnonymous]
    in Huser, Hanon'.
  rewrite Hanon in Huser, Hanon'. cbn in Huser, Hanon'.
  apply uploadFiles_files in Hf. destruct Hf as [Hn2 Hf2].
  rewrite Hanon in Hf2. cbn in Hf2.
  unfold notifySubmitted in Hn. rewrite Huser in Hn.
  unfold ret in Hn. inversion Hn; subst db' w'; clear Hn.
  split; [ exact Huser | ]. split; [ exact Hanon' | ].
  split; [ congruence | ]. split.
  - intros k f Hk. destruct (Hf2 k f Hk) as [Hk1 | ?]; [ left | now right ].
    now rewrite <- Hf1.
  - intros w3 l Hl Hin.
    destruct (getMyGrievances_spec (submitSub req) db2 w3)
      as (l' & El & _ & Hmine).
    rewrite El in Hl. inversion Hl; subst l'.
    apply Hmine in Hin. destruct Hin as [_ Hown]. congruence.
Qed.

Lemma anonymousRequest_accepted :
  exists g db' w',
    postGrievance anonymousRequest emptyDb exampleWorld
    = (Done (Json g), db', w').
Proof.
  apply postGrievance_accepted; [ simpl; tauto | ].
  unfold accepts.
  split; [ reflexivity | ].
  split; [ reflexivity | ].
  split; [ left; reflexivity | ].
  split; [ intros i Hi; reflexivity | ].
  split; [ repeat constructor; intros Hin; inversion Hin | reflexivity ].
Qed.

Lemma anonymous_submission_witness :
  submitIsAnonymous anonymousRequest = "true"
  /\ exists g db' w',
       postGrievance anonymousRequest emptyDb exampleWorld
       = (Done (Json g), db', w')
       /\ Grievance.userId g = None
       /\ notifications db' = ∅.
Proof.
  split; [ reflexivity | ].
  destruct anonymousRequest_accepted as (g & db' & w' & E).
  destruct (anonymous_submission anonymousRequest emptyDb db' exampleWorld w' g
              eq_refl E) as (Hu & _ & Hn & _).
  exists g, db', w'. repeat split; assumption.
Defined.

(** X12.  A submission under the sender's name: the grievance it is
    answered with is owned by the sender and is listed for the sender by
    GET /api/grievances/my; the sender is sent one unread notification
    "Grievance Submitted" that mentions it (unless the sender's id is the
    empty string); and every attachment stored with it records the sender
    as uploader. *)
Theorem owned_submission (req : SubmitRequest) (db db' : Database)
    (w w' : World) (g : Grievance.t) :
  submitIsAnonymous req <> "true" ->
  postGrievance req db w = (Done (Json g), db', w') ->
  Grievance.userId g = Some (submitSub req)
  /\ (forall w2, exists l,
        getMyGrievances (submitSub req) db' w2 = (Done (Json l), db', w2)
        /\ In g l)
  /\ (submitSub req <> "" ->
      exists key n,
        notifications db !! key = None
        /\ notifications db' = <[key := n]> (notifications db)
        /\ Notification.userId n = submitSub req
        /\ Notification.grievanceId n = Some (Grievance.id g)
        /\ Notification.title n = "Grievance Submitted"
        /\ Notification.isRead n = false)
  /\ (forall k f,
        files db' !! k = Some f ->
        files db !! k = Some f
        \/ (File.grievanceId f = Grievance.id g
            /\ File.uploadedBy f = Some (submitSub req))).
Proof.
  intros Hnamed H.
  pose proof (postGrievance_Json _ _ _ _ _ _ H) as (db0 & Hc0 & Hg0).
  apply postGrievance_steps in H.
  destruct H as (db1 & w1 & db2 & w2 & Hc & Hf & Hn).
  apply createGrievance_Done in Hc.
  destruct Hc as (_ & _ & _ & _ & _ & _ & Huser & Hanon' & _ & Hins & _ & Hn1
                  & Hf1 & _).
  cbn [submitData InsertGrievance.userId InsertGrievance.isAnonymous]
    in Huser, Hanon'.
  apply String.eqb_neq in Hnamed. rewrite Hnamed in Huser, Hanon'.
  pose proof (uploadFiles_keeps _ _ _ _ _ _ _ Hf) as (_ & Hg2 & _).
  apply uploadFiles_files in Hf. destruct Hf as [Hn2 Hf2].
  rewrite Hnamed in Hf2.
  assert (Hfiles' : files db' = files db2 /\ grievances db' = grievances db2).
  { pose proof (notifySubmitted_keeps _ _ _ _ _ _ _ Hn) as (_ & Hgk & _).
    split; [ | exact Hgk ].
    revert Hn. unfold notifySubmitted.
    repeat case_match; unfold DatabaseStorage.createNotification; mrun;
      intros Hn; repeat case_match; simplify_eq; reflexivity. }
  destruct Hfiles' as [Hfiles' Hgriev'].
  split; [ exact Huser | ]. split; [ | split ].
  - intros w3.
    destruct (getMyGrievances_spec (submitSub req) db' w3)
      as (l & El & _ & Hmine).
    exists l. split; [ exact El | ]. apply Hmine. split; [ | exact Huser ].
    exists (Grievance.id g). rewrite Hgriev', Hg2, Hins. apply lookup_insert_eq.
  - intros Hne. unfold notifySubmitted in Hn. rewrite Huser, Hanon' in Hn.
    assert (Htruthy : Js.truthy_string (submitSub req) = true).
    { unfold Js.truthy_string. apply negb_true_iff. now apply String.eqb_neq. }
    rewrite Htruthy in Hn. cbn [negb andb] in Hn.
    apply bind_inv in Hn.
    destruct Hn as [(n & db3 & w3 & Hcn & Hr) | (e & _ & He)];
      [ | discriminate He ].
    unfold ret in Hr. inversion Hr; subst db3 w3; clear Hr.
    apply createNotification_Done in Hcn. destruct Hcn as (Hn & Hfresh & ->).
    exists (nextUuid w2 0), n. cbn [notifications].
    rewrite Hn2, Hn1 in *. split; [ exact Hfresh | ].
    split; [ reflexivity | ]. rewrite Hn. cbn. auto.
  - intros k f Hk. rewrite Hfiles' in Hk.
    destruct (Hf2 k f Hk) as [Hk1 | ?]; [ left | now right ].
    now rewrite <- Hf1.
Qed.

Lemma owned_submission_witness :
  submitIsAnonymous urgentRequest <> "true"
  /\ exists g db' w' l,
       postGrievance urgentRequest emptyDb exampleWorld
       = (Done (Json g), db', w')
       /\ Grievance.userId g = Some "alice"
       /\ getMyGrievances "alice" db' w' = (Done (Json l), db', w')
       /\ In g l.
Proof.
  assert (Hnamed : submitIsAnonymous urgentRequest <> "true") by discriminate.
  split; [ exact Hnamed | ].
  assert (Hc : In (submitCategory urgentRequest) grievanceCategoryEnum)
    by (simpl; tauto).
  destruct (postGrievance_accepted urgentRequest emptyDb exampleWorld Hc
              emptyDb_accepts) as (g & db' & w' & E).
  destruct (owned_submission urgentRequest emptyDb db' exampleWorld w' g
              Hnamed E) as (Hu & Hmy & _).
  destruct (Hmy w') as (l & El & Hin).
  exists g, db', w', l. repeat split; assumption.
Defined.

(* ===================================================================== *)
(** * The dashboard follows the lifecycle *)
(* ===================================================================== *)

Lemma createGrievance_fresh (data : InsertGrievance.t) (db db' : Database)
    (w w' : World) (g : Grievance.t) :
  DatabaseStorage.createGrievance data db w = (Done g, db', w') ->
  grievances db !! Grievance.id g = None.
Proof.
  unfold DatabaseStorage.createGrievance. mrun. intros H.
  repeat case_match; simplify_eq. unbool. cbn. now apply eq_None_not_Some.
Qed.

(** X13.  A submission that is answered with a grievance adds one to
    the total and one to the pending grievances of the dashboard, leaves
    the resolved ones as they were, and adds one to the overdue ones
    exactly when its deadline is already earlier than the time of the
    reading. *)
Theorem submit_then_dashboard (req : SubmitRequest) (db db' : Database)
    (w w' : World) (g : Grievance.t) (now : Z) :
  postGrievance req db w = (Done (Json g), db', w') ->
  let before := dashboardStatsOf (rows (grievances db)) now in
  let after := dashboardStatsOf (rows (grievances db')) now in
  total after = S (total before)
  /\ pending after = S (pending before)
  /\ resolved after = resolved before
  /\ overdue after
     = (overdue before
        + if overdueFilter now g then 1 else 0)%nat.
Proof.
  intros H. pose proof (postGrievance_Json _ _ _ _ _ _ H) as (db1 & Hc & Hg).
  pose proof (createGrievance_fresh _ _ _ _ _ _ Hc) as Hfresh.
  apply createGrievance_Done in Hc.
  destruct Hc as (_ & _ & _ & _ & Hstatus & _ & _ & _ & _ & Hins & _).
  cbn [submitData InsertGrievance.status] in Hstatus.
  pose proof (rows_insert_fresh (grievances db) (Grievance.id g) g Hfresh)
    as Hperm.
  rewrite <- Hins, <- Hg in Hperm.
  cbn zeta. unfold dashboardStatsOf. cbn [total pending resolved overdue].
  rewrite (Permutation_length Hperm).
  rewrite !(filter_Permutation_length _ _ _ Hperm). cbn [List.filter length].
  assert (Hp : pendingFilter g = true)
    by (unfold pendingFilter; now rewrite Hstatus).
  assert (Hr : resolvedFilter g = false)
    by (unfold resolvedFilter; now rewrite Hstatus).
  rewrite Hp, Hr. cbn [length].
  repeat split. destruct (overdueFilter now g); cbn [length]; lia.
Qed.

Lemma submit_then_dashboard_witness :
  exists g db' w',
    postGrievance urgentRequest emptyDb exampleWorld = (Done (Json g), db', w')
    /\ total (dashboardStatsOf (rows (grievances db')) 5000) = 1%nat
    /\ pending (dashboardStatsOf (rows (grievances db')) 5000) = 1%nat.
Proof.
  assert (Hc : In (submitCategory urgentRequest) grievanceCategoryEnum)
    by (simpl; tauto).
  destruct (postGrievance_accepted urgentRequest emptyDb exampleWorld Hc
              emptyDb_accepts) as (g & db' & w' & E).
  destruct (submit_then_dashboard urgentRequest emptyDb db' exampleWorld w' g
              5000 E) as (Ht & Hp & _).
  exists g, db', w'. split; [ exact E | ]. split; assumption.
Defined.

Lemma overdueFilter_pending (now : Z) (g : Grievance.t) :
  overdueFilter now g = true -> pendingFilter g = true.
Proof.
  unfold overdueFilter, pendingFilter.
  destruct (Grievance.slaDeadline g); [ | discriminate ].
  now intros [_ H]%andb_true_iff.
Qed.

Lemma filter_length_le {A} (f h : A -> bool) (l : list A) :
  (forall x, f x = true -> h x = true) ->
  (length (List.filter f l) <= length (List.filter h l))%nat.
Proof.
  intros Hfh. induction l as [| x l IH]; cbn [List.filter]; [ lia | ].
  destruct (f x) eqn:E.
  - rewrite (Hfh x E). cbn [length]. lia.
  - destruct (h x); cbn [length]; lia.
Qed.

(** X14.  Resolving on the dashboard.  When staff, faculty or an
    administrator sets a pending grievance to resolved or closed, the
    total stays, the pending grievances are one fewer, the resolved ones
    one more, and the overdue ones do not grow: the grievance no longer
    counts as overdue, however late it was. *)
Theorem resolve_then_dashboard (req : PatchRequest) (db db' : Database)
    (w w' : World) (r : Outcome (Response Grievance.t)) (u : User.t)
    (g : Grievance.t) (now : Z) :
  users db !! patchSub req = Some u ->
  In (User.role u) staffRoles ->
  resolving (patchValue req) ->
  grievances db !! patchId req = Some g ->
  isPending g ->
  patchGrievanceStatus req db w = (r, db', w') ->
  let before := dashboardStatsOf (rows (grievances db)) now in
  let after := dashboardStatsOf (rows (grievances db')) now in
  total after = total before
  /\ pending before = S (pending after)
  /\ resolved after = S (resolved before)
  /\ (overdue after <= overdue before)%nat
  /\ forall g',
       grievances db' !! patchId req = Some g' -> ~ isOverdue now g'.
Proof.
  intros Hu Hrole Hres Hg Hpend H.
  destruct (patchGrievanceStatus_update _ _ _ _ _ _ u g Hu Hrole
              (resolving_label _ Hres) Hg H) as (ra & t & Hrow & _).
  pose proof (patchGrievanceStatus_table _ _ _ _ _ _ H) as Htable.
  assert (Hins : exists ra' t',
            grievances db'
            = <[patchId req := Grievance.setStatus (patchValue req) t' ra' g]>
                (grievances db)).
  { destruct Htable as [Hsame | (g0 & ra' & t' & Hg0 & Heq & _)].
    - exfalso. rewrite Hsame, Hg in Hrow. inversion Hrow as [Hgeq].
      apply Hpend. unfold isResolved. rewrite Hgeq. cbn.
      destruct Hres as [-> | ->]; tauto.
    - rewrite Hg in Hg0. inversion Hg0; subst g0. eauto. }
  destruct Hins as (ra' & t' & Hins).
  set (g1 := Grievance.setStatus (patchValue req) t' ra' g) in *.
  destruct (rows_insert_over (grievances db) (patchId req) g1 g Hg)
    as (others & Hbefore & Hafter).
  rewrite <- Hins in Hafter.
  assert (Hp0 : pendingFilter g = true) by now apply pendingFilter_spec.
  assert (Hr0 : resolvedFilter g = false).
  { apply not_true_is_false. intros Hr. now apply resolvedFilter_spec in Hr. }
  assert (Hr1 : resolvedFilter g1 = true).
  { apply resolvedFilter_spec. unfold isResolved. subst g1. cbn.
    destruct Hres as [-> | ->]; tauto. }
  assert (Hp1 : pendingFilter g1 = false).
  { apply not_true_is_false. intros Hp. apply pendingFilter_spec in Hp.
    apply Hp. now apply resolvedFilter_spec. }
  assert (Ho1 : overdueFilter now g1 = false).
  { apply not_true_is_false. intros Ho. apply overdueFilter_pending in Ho.
    congruence. }
  cbn zeta. unfold dashboardStatsOf. cbn [total pending resolved overdue].
  rewrite (Permutation_length Hbefore), (Permutation_length Hafter).
  rewrite !(filter_Permutation_length _ _ _ Hbefore),
    !(filter_Permutation_length _ _ _ Hafter).
  cbn [List.filter length]. rewrite Hp0, Hr0, Hr1, Hp1, Ho1. cbn [length].
  repeat split.
  - destruct (overdueFilter now g); cbn [length]; lia.
  - intros g' Hg' Ho. rewrite Hins, lookup_insert_eq in Hg'.
    inversion Hg'; subst g'. apply overdueFilter_spec in Ho. congruence.
Qed.

Lemma resolve_then_dashboard_witness :
  exists r db' w',
    patchGrievanceStatus resolveRequest exampleDb exampleWorld = (r, db', w')
    /\ overdue (dashboardStatsOf (rows (grievances exampleDb)) 5000) = 1%nat
    /\ pending (dashboardStatsOf (rows (grievances db')) 5000) = 0%nat
    /\ resolved (dashboardStatsOf (rows (grievances db')) 5000) = 1%nat
    /\ overdue (dashboardStatsOf (rows (grievances db')) 5000) = 0%nat.
Proof.
  destruct (patchGrievanceStatus resolveRequest exampleDb exampleWorld)
    as [[r db'] w'] eqn:E.
  assert (Hpend : isPending exampleGrievance).
  { unfold isPending, isResolved. simpl. intros [H | [H | []]]; discriminate H. }
  destruct (resolve_then_dashboard resolveRequest exampleDb db' exampleWorld w'
              r (User.mk "sam" "staff" None) exampleGrievance 5000)
    as (_ & Hp & Hr & Ho & _); try exact E; try exact Hpend.
  - vm_compute. reflexivity.
  - simpl. tauto.
  - left. reflexivity.
  - reflexivity.
  - exists r, db', w'. split; [ reflexivity | ].
    assert (Hb : pending (dashboardStatsOf (rows (grievances exampleDb)) 5000)
                 = 1%nat) by (vm_compute; reflexivity).
    assert (Hrb : resolved (dashboardStatsOf (rows (grievances exampleDb)) 5000)
                  = 0%nat) by (vm_compute; reflexivity).
    assert (Hob : overdue (dashboardStatsOf (rows (grievances exampleDb)) 5000)
                  = 1%nat) by (vm_compute; reflexivity).
    rewrite Hb in Hp. rewrite Hrb in Hr. 
    split; [ exact Hob | ]. split; [ lia | ]. split; [ exact Hr | ].
    (* overdue after *)
    destruct (resolve_then_dashboard resolveRequest exampleDb db' exampleWorld
                w' r (User.mk "sam" "staff" None) exampleGrievance 5000)
      as (Ht & Hp' & _ & _ & _); try exact E; try exact Hpend;
      [ vm_compute; reflexivity | simpl; tauto | left; reflexivity
      | reflexivity | ].
    pose proof (filter_length_le (overdueFilter 5000) pendingFilter
                  (rows (grievances db')) (overdueFilter_pending 5000)) as Hle.
    unfold dashboardStatsOf in *. cbn [pending overdue] in *. lia.
Defined.

(* ===================================================================== *)
(** * The analytics *)
(* ===================================================================== *)

Lemma filter_length_bound {A} (f : A -> bool) (l : list A) :
  (length (List.filter f l) <= length l)%nat.
Proof.
  induction l as [| x l IH]; cbn [List.filter]; [ lia | ].
  destruct (f x); cbn [length]; lia.
Qed.

Lemma filter_all {A} (f : A -> bool) (l : list A) :
  (forall x, In x l -> f x = true) -> List.filter f l = l.
Proof.
  induction l as [| x l IH]; intros H; cbn [List.filter]; [ reflexivity | ].
  rewrite (H x (or_introl eq_refl)). f_equal. apply IH.
  intros y Hy. apply H. now right.
Qed.

Lemma filter_none {A} (f : A -> bool) (l : list A) :
  (forall x, In x l -> f x = false) -> List.filter f l = [].
Proof.
  induction l as [| x l IH]; intros H; cbn [List.filter]; [ reflexivity | ].
  rewrite (H x (or_introl eq_refl)). apply IH.
  intros y Hy. apply H. now right.
Qed.

Lemma percentage_range (c n : nat) :
  (c <= n)%nat -> (0 < n)%nat ->
  (0 <= Double.mul
          (Double.div (inject_Z (Z.of_nat c)) (inject_Z (Z.of_nat n))) 100
   /\ Double.mul
        (Double.div (inject_Z (Z.of_nat c)) (inject_Z (Z.of_nat n))) 100
      <= 100)%Q.
Proof.
  intros Hc Hn.
  assert (Hn' : (0 < inject_Z (Z.of_nat n))%Q)
    by (change 0%Q with (inject_Z 0); rewrite <- Zlt_Qlt; lia).
  assert (Hc' : (0 <= inject_Z (Z.of_nat c))%Q)
    by (change 0%Q with (inject_Z 0); rewrite <- Zle_Qle; lia).
  assert (Hcn : (inject_Z (Z.of_nat c) <= inject_Z (Z.of_nat n))%Q)
    by (rewrite <- Zle_Qle; lia).
  assert (Hq : (0 <= inject_Z (Z.of_nat c) / inject_Z (Z.of_nat n)
                /\ inject_Z (Z.of_nat c) / inject_Z (Z.of_nat n) <= 1)%Q).
  { split.
    - apply Qle_shift_div_l; [ exact Hn' | ]. now rewrite Qmult_0_l.
    - apply Qle_shift_div_r; [ exact Hn' | ]. now rewrite Qmult_1_l. }
  destruct Hq as [Hq0 Hq1].
  assert (Hd : (0 <= Double.div (inject_Z (Z.of_nat c)) (inject_Z (Z.of_nat n))
                /\ Double.div (inject_Z (Z.of_nat c)) (inject_Z (Z.of_nat n))
                   <= 1)%Q).
  { unfold Double.div. split.
    - now apply round_nonneg.
    - apply Qle_trans with (Double.round (inject_Z 1)).
      + now apply round_mono.
      + rewrite round_Z by (now vm_compute). apply Qle_refl. }
  destruct Hd as [Hd0 Hd1]. unfold Double.mul. split.
  - apply round_nonneg. apply Qmult_le_0_compat; [ exact Hd0 | discriminate ].
  - apply Qle_trans with (Double.round (inject_Z 100)).
    + apply round_mono.
      apply Qle_trans with (1 * 100)%Q; [ | discriminate ].
      apply Qmult_le_compat_r; [ exact Hd1 | discriminate ].
    + rewrite round_Z by (now vm_compute). apply Qle_refl.
Qed.

Lemma slaCompliance_bounds (l : list Grievance.t) :
  0 <= slaCompliance l <= 100.
Proof.
  unfold slaCompliance.
  set (withSLA := List.filter hasSlaAndResolvedAt l).
  pose proof (filter_length_bound resolvedInTime withSLA) as Hle.
  destruct (0 <? length withSLA)%nat eqn:E; [ | lia ].
  apply Nat.ltb_lt in E.
  destruct (percentage_range _ _ Hle E) as [H0 H100].
  apply js_round_mono in H0, H100.
  change (js_round 0) with (js_round (inject_Z 0)) in H0.
  change (js_round 100) with (js_round (inject_Z 100)) in H100.
  rewrite js_round_Z in H0, H100. lia.
Qed.

(** All of a number of rows is 100 percent of them, none is 0 percent,
    also in double precision. *)
Lemma percentage_all (n : nat) :
  (0 < n)%nat ->
  js_round
    (Double.mul
       (Double.div (inject_Z (Z.of_nat n)) (inject_Z (Z.of_nat n))) 100)
  = 100.
Proof.
  intros Hn.
  assert (Hn' : ~ (inject_Z (Z.of_nat n) == 0)%Q).
  { change 0%Q with (inject_Z 0). rewrite inject_Z_injective. lia. }
  assert (Hd : (Double.div (inject_Z (Z.of_nat n)) (inject_Z (Z.of_nat n))
                == 1)%Q).
  { unfold Double.div. rewrite <- (round_Z 1) by (now vm_compute).
    apply round_comp. now field. }
  assert (Hm : (Double.mul
                  (Double.div (inject_Z (Z.of_nat n)) (inject_Z (Z.of_nat n)))
                  100 == inject_Z 100)%Q).
  { unfold Double.mul. rewrite <- (round_Z 100) by (now vm_compute).
    apply round_comp. rewrite Hd. reflexivity. }
  rewrite (js_round_comp _ _ Hm). apply js_round_Z.
Qed.

Lemma percentage_none (n : nat) :
  js_round (Double.mul (Double.div (inject_Z 0) (inject_Z (Z.of_nat n))) 100)
  = 0.
Proof.
  assert (Hd : (Double.div (inject_Z 0) (inject_Z (Z.of_nat n)) == 0)%Q).
  { unfold Double.div. transitivity (Double.round 0); [ | apply round_0 ].
    apply round_comp. unfold Qdiv. ring. }
  assert (Hm : (Double.mul (Double.div (inject_Z 0) (inject_Z (Z.of_nat n)))
                  100 == inject_Z 0)%Q).
  { unfold Double.mul. transitivity (Double.round 0); [ | apply round_0 ].
    apply round_comp. rewrite Hd. reflexivity. }
  rewrite (js_round_comp _ _ Hm). apply js_round_Z.
Qed.

(** X15.  The SLA compliance of the analytics is a percentage between 0
    and 100.  It is 100 when at least one grievance has a deadline and a
    resolution time and each of these was resolved by its deadline, and
    0 when none of them was, in particular when no grievance has both. *)
Theorem slaCompliance_range (l : list Grievance.t) :
  0 <= slaCompliance l <= 100
  /\ ((exists g, In g l /\ hasSlaAndResolvedAt g = true) ->
      (forall g d r,
         In g l -> Grievance.slaDeadline g = Some d ->
         Grievance.resolvedAt g = Some r -> r <= d) ->
      slaCompliance l = 100)
  /\ ((forall g d r,
         In g l -> Grievance.slaDeadline g = Some d ->
         Grievance.resolvedAt g = Some r -> d < r) ->
      slaCompliance l = 0).
Proof.
  split; [ apply slaCompliance_bounds | ].
  unfold slaCompliance.
  set (withSLA := List.filter hasSlaAndResolvedAt l). split.
  - intros (g & Hin & Hg) Hall.
    assert (Hne : In g withSLA) by (apply filter_In; tauto).
    rewrite filter_all.
    + destruct withSLA as [| x rest]; [ destruct Hne | ].
      cbn [Nat.ltb Nat.leb length]. apply percentage_all. cbn [length]. lia.
    + intros x [Hx Hsla]%filter_In. unfold hasSlaAndResolvedAt in Hsla.
      unfold resolvedInTime.
      destruct (Grievance.slaDeadline x) as [d | ] eqn:Ed; [ | discriminate ].
      destruct (Grievance.resolvedAt x) as [r | ] eqn:Er; [ | discriminate ].
      cbn [getTime]. apply Z.leb_le. eauto.
  - intros Hall. rewrite filter_none.
    + destruct (0 <? length withSLA)%nat eqn:E; [ | reflexivity ].
      cbn [length]. apply percentage_none.
    + intros x [Hx Hsla]%filter_In. unfold hasSlaAndResolvedAt in Hsla.
      unfold resolvedInTime.
      destruct (Grievance.slaDeadline x) as [d | ] eqn:Ed; [ | discriminate ].
      destruct (Grievance.resolvedAt x) as [r | ] eqn:Er; [ | discriminate ].
      cbn [getTime]. apply Z.leb_gt. eauto.
Qed.

(** In between the percentage is rounded from a double: 23 rows of 40
    are 57.5 percent, the double nearest to 23 / 40 times 100 is
    57.49999999999999, and the compliance reported is 57. *)
Lemma percentage_double_precision :
  (Double.mul (Double.div 23 40) 100
   == 8092405580431359 # 140737488355328)%Q
  /\ js_round (Double.mul (Double.div 23 40) 100) = 57
  /\ js_round (23 / 40 * 100)%Q = 58.
Proof. repeat apply conj; vm_compute; reflexivity. Qed.

Lemma own_countKey (key k : string) (acc : list (string * nat)) :
  Js.own (countKey key acc) k
  = if String.eqb key k
    then Some (S (default 0%nat (Js.own acc key)))
    else Js.own acc k.
Proof.
  induction acc as [| [k0 c] rest IH]; cbn [countKey Js.own].
  - destruct (String.eqb key k); reflexivity.
  - destruct (String.eqb k0 key) eqn:E0; cbn [Js.own].
    + apply String.eqb_eq in E0. subst k0.
      destruct (String.eqb key k); reflexivity.
    + rewrite IH. destruct (String.eqb key k) eqn:E.
      * apply String.eqb_eq in E. subst k. now rewrite E0.
      * reflexivity.
Qed.

Lemma keys_countKey (key k : string) (acc : list (string * nat)) :
  In k (map fst (countKey key acc)) <-> k = key \/ In k (map fst acc).
Proof.
  assert (Hsym : key = k <-> k = key) by (split; congruence).
  induction acc as [| [k0 c] rest IH]; cbn [countKey map fst In].
  - tauto.
  - destruct (String.eqb k0 key) eqn:E0; cbn [map fst In].
    + apply String.eqb_eq in E0. subst k0. tauto.
    + rewrite IH. tauto.
Qed.

Lemma NoDup_countKey (key : string) (acc : list (string * nat)) :
  List.NoDup (map fst acc) -> List.NoDup (map fst (countKey key acc)).
Proof.
  induction acc as [| [k0 c] rest IH]; cbn [countKey map fst]; intros Hnd.
  - constructor; [ intros [] | constructor ].
  - apply List.NoDup_cons_iff in Hnd. destruct Hnd as [Hnotin Hnd].
    destruct (String.eqb k0 key) eqn:E0; cbn [map fst].
    + apply List.NoDup_cons_iff. now split.
    + apply List.NoDup_cons_iff. split; [ | now apply IH ].
      rewrite keys_countKey. intros [-> | Hin]; [ | contradiction ].
      now rewrite String.eqb_refl in E0.
Qed.

Lemma sum_countKey (key : string) (acc : list (string * nat)) :
  list_sum (map snd (countKey key acc)) = S (list_sum (map snd acc)).
Proof.
  unfold list_sum.
  induction acc as [| [k0 c] rest IH]; cbn [countKey map snd fold_right].
  - reflexivity.
  - destruct (String.eqb k0 key); cbn [map snd fold_right];
      [ | rewrite IH ]; lia.
Qed.

Lemma own_In {A} (literal : list (string * A)) (k : string) (v : A) :
  List.NoDup (map fst literal) ->
  (In (k, v) literal <-> Js.own literal k = Some v).
Proof.
  induction literal as [| [k0 v0] rest IH]; cbn [map fst Js.own In];
    intros Hnd.
  - split; [ intros [] | discriminate ].
  - apply List.NoDup_cons_iff in Hnd. destruct Hnd as [Hnotin Hnd].
    destruct (String.eqb k0 k) eqn:E.
    + apply String.eqb_eq in E. subst k0. split.
      * intros [H | H]; [ congruence | ].
        exfalso. apply Hnotin. apply in_map_iff. now exists (k, v).
      * intros H. left. congruence.
    + rewrite <- (IH Hnd). split; [ | tauto ].
      intros [H | H]; [ | exact H ].
      inversion H; subst. now rewrite String.eqb_refl in E.
Qed.

Lemma breakdown_fold (key : Grievance.t -> string) (l : list Grievance.t)
    (acc : list (string * nat)) :
  let out := fold_left (fun acc g => countKey (key g) acc) l acc in
  (List.NoDup (map fst acc) -> List.NoDup (map fst out))
  /\ list_sum (map snd out) = (list_sum (map snd acc) + length l)%nat
  /\ forall k,
       Js.own out k
       = match length (List.filter (fun g => String.eqb (key g) k) l) with
         | O => Js.own acc k
         | S n => Some (default 0 (Js.own acc k) + S n)%nat
         end.
Proof.
  revert acc. induction l as [| g l IH]; intros acc; cbn [fold_left].
  - cbn zeta. repeat apply conj;
      [ tauto | cbn [length]; lia | intros k; reflexivity ].
  - specialize (IH (countKey (key g) acc)). cbn zeta in IH.
    destruct IH as (Hnd & Hsum & Hown). cbn zeta. repeat apply conj.
    + intros H. apply Hnd. now apply NoDup_countKey.
    + rewrite Hsum, sum_countKey. cbn [length].
      rewrite Nat.add_succ_r. reflexivity.
    + intros k. rewrite Hown, own_countKey. cbn [List.filter].
      destruct (String.eqb (key g) k) eqn:E; cbn [length].
      * apply String.eqb_eq in E. rewrite E.
        match goal with
        | |- match ?n with _ => _ end = _ => destruct n
        end; cbn [from_option id]; f_equal; lia.
      * reflexivity.
Qed.

Lemma breakdown_sum (key : Grievance.t -> string) (l : list Grievance.t) :
  list_sum (map snd (breakdown key l)) = length l.
Proof. now destruct (breakdown_fold key l []) as (_ & Hsum & _). Qed.

(** X16.  The breakdowns of the analytics (by category, by priority, by
    status).  Each value that occurs has exactly one entry, the entry
    holds the number of grievances with that value, no entry has the
    count 0, and the counts add up to the number of grievances. *)
Theorem breakdown_counts (key : Grievance.t -> string)
    (l : list Grievance.t) :
  List.NoDup (map fst (breakdown key l))
  /\ (forall k n,
        In (k, n) (breakdown key l)
        <-> n = length (List.filter (fun g => String.eqb (key g) k) l)
            /\ (0 < n)%nat)
  /\ list_sum (map snd (breakdown key l)) = length l.
Proof.
  destruct (breakdown_fold key l []) as (Hnd & Hsum & Hown).
  cbn zeta in *. fold (breakdown key l) in *.
  specialize (Hnd (List.NoDup_nil _)). repeat apply conj.
  - exact Hnd.
  - intros k n. rewrite (own_In _ _ _ Hnd), Hown. cbn [Js.own from_option id].
    match goal with
    | |- context [match ?c with O => _ | S _ => _ end] => destruct c as [| m]
    end.
    + split; [ discriminate | lia ].
    + split; [ intros H; inversion H; lia | ].
      intros [-> _]. reflexivity.
  - exact Hsum.
Qed.

Lemma readClock_run (n : nat) (db : Database) (w : World) :
  exists w',
    readClock n db w = (Done tt, db, w')
    /\ ticks w' = (ticks w + n)%nat
    /\ clock w' = clock w
    /\ nanoidCalls w' = nanoidCalls w
    /\ uuidCalls w' = uuidCalls w.
Proof.
  revert w. induction n as [| n IH]; intros w; cbn [readClock].
  - exists w. repeat split. lia.
  - destruct (IH (tick w)) as (w' & E & Ht & Hc & Hn & Hu).
    exists w'. unfold bind, newDate. rewrite E.
    repeat split; try assumption. rewrite Ht. cbn. lia.
Qed.

(** X17.  GET /api/dashboard/stats always answers, reads the clock once
    and changes nothing.  A caller whose stored role is student gets the
    figures of the grievances they own; every other caller gets the
    figures of all grievances, and so does a caller who has no row in
    the users table. *)
Theorem getStats_scope (sub : string) (db : Database) (w : World) :
  exists stats,
    getStats sub db w = (Done (Json stats), db, tick w)
    /\ (forall u,
          users db !! sub = Some u -> User.role u = "student" -> sub <> "" ->
          stats = dashboardStatsOf
                    (List.filter (ownedBy sub) (rows (grievances db)))
                    (nextTime w 0))
    /\ ((forall u, users db !! sub = Some u -> User.role u <> "student") ->
        stats = dashboardStatsOf (rows (grievances db)) (nextTime w 0)).
Proof.
  unfold getStats, tryCatch.
  rewrite (bind_Done _ _ _ _ _ _ _ (getUser_run _ db w)).
  unfold getDashboardStats, bind, readDb, newDate, ret.
  eexists. split; [ reflexivity | ].
  unfold nextTime. rewrite Nat.add_0_r. split.
  - intros u Hu Hrole Hsub. rewrite Hu. cbn [fmap option_fmap option_map scope].
    rewrite Hrole. unfold Js.truthy_string.
    apply String.eqb_neq in Hsub. rewrite Hsub. reflexivity.
  - intros Hno. destruct (users db !! sub) as [u | ]; [ | reflexivity ].
    cbn [fmap option_fmap option_map scope].
    specialize (Hno u eq_refl). apply String.eqb_neq in Hno. rewrite Hno.
    now rewrite andb_false_r.
Qed.

(** X18.  GET /api/analytics is for administrators only: staff, faculty,
    students and unknown callers are answered 403 and the clock is not
    read.  An administrator gets the analytics of all grievances: the
    total is the number of rows and each of the three breakdowns adds up
    to it; the clock is read six times and nothing is changed. *)
Theorem getAnalyticsForAdmin_gate (sub : string) (db : Database)
    (w : World) :
  (forall u,
     users db !! sub = Some u -> User.role u = "administrator" ->
     exists a w',
       getAnalyticsForAdmin sub db w = (Done (Json a), db, w')
       /\ ticks w' = (ticks w + 6)%nat
       /\ totalGrievances a = length (rows (grievances db))
       /\ list_sum (map snd (categoryBreakdown a)) = totalGrievances a
       /\ list_sum (map snd (priorityDistribution a)) = totalGrievances a
       /\ list_sum (map snd (statusDistribution a)) = totalGrievances a
       /\ 0 <= analyticsSlaCompliance a <= 100)
  /\ ((forall u, users db !! sub = Some u -> User.role u <> "administrator") ->
      getAnalyticsForAdmin sub db w = (Done (Fail 403 "Forbidden"), db, w)).
Proof.
  split.
  - intros u Hu Hrole. unfold getAnalyticsForAdmin, tryCatch.
    rewrite (bind_Done _ _ _ _ _ _ _ (getUser_run _ db w)), Hu, Hrole.
    cbn [String.eqb Ascii.eqb Bool.eqb andb negb].
    destruct (readClock_run 6 db w) as (w' & E & Ht & _).
    unfold getAnalytics. unfold bind at 1 2. unfold readDb.
    rewrite (bind_Done _ _ _ _ _ _ _ E). unfold ret.
    eexists. exists w'. split; [ reflexivity | ].
    split; [ exact Ht | ]. cbn [analyticsOf totalGrievances categoryBreakdown
      priorityDistribution statusDistribution analyticsSlaCompliance].
    split; [ reflexivity | ].
    repeat split; try apply breakdown_sum; apply slaCompliance_bounds.
  - intros Hno. unfold getAnalyticsForAdmin, tryCatch.
    rewrite (bind_Done _ _ _ _ _ _ _ (getUser_run _ db w)).
    destruct (users db !! sub) as [u | ]; [ | reflexivity ].
    specialize (Hno u eq_refl). apply String.eqb_neq in Hno.
    now rewrite Hno.
Qed.

Lemma getAnalyticsForAdmin_gate_witness :
  (exists a w',
     getAnalyticsForAdmin "root" exampleDb exampleWorld
     = (Done (Json a), exampleDb, w')
     /\ totalGrievances a = 1%nat)
  /\ getAnalyticsForAdmin "sam" exampleDb exampleWorld
     = (Done (Fail 403 "Forbidden"), exampleDb, exampleWorld).
Proof.
  destruct (getAnalyticsForAdmin_gate "root" exampleDb exampleWorld)
    as [Hadmin _].
  destruct (Hadmin (User.mk "root" "administrator" None))
    as (a & w' & E & _ & Ht & _);
    [ vm_compute; reflexivity | reflexivity | ].
  split.
  - exists a, w'. split; [ exact E | ]. rewrite Ht. vm_compute. reflexivity.
  - destruct (getAnalyticsForAdmin_gate "sam" exampleDb exampleWorld)
      as [_ Hno].
    apply Hno. intros u Hu. vm_compute in Hu. inversion Hu; subst u.
    discriminate.
Defined.

(* ===================================================================== *)
(** * Roles *)
(* ===================================================================== *)

Lemma updateUserRole_run (id role : string) (db : Database) (w : World) :
  DatabaseQueries.updateUserRole id role db w
  = if negb (DatabaseStorage.isLabel userRoleEnum role)
    then (Raised (DbError "user_role"), db, tick w)
    else match users db !! id with
         | None => (Done None, db, tick w)
         | Some u =>
             (Done (Some (setRole role u)),
              mkDatabase (<[id := setRole role u]> (users db))
                (grievances db) (comments db) (files db) (notifications db),
              tick w)
         end.
Proof.
  unfold DatabaseQueries.updateUserRole. mrun.
  destruct (negb _); [ reflexivity | ].
  destruct (users db !! id); reflexivity.
Qed.




(** X20.  Roles are read from the users table at every request, so a
    change of role takes effect at once.  After an administrator has set
    the role of a user, that user is let into GET /api/grievances/all
    exactly when the new role is administrator, staff or faculty; and an
    administrator who gives themselves another role is refused by
    PATCH /api/users/:id/role from then on. *)
Theorem role_change_takes_effect (req : PatchRequest) (db db' : Database)
    (w w' : World) (updated : User.t) :
  patchUserRole req db w = (Done (Json (Some updated)), db', w') ->
  (forall w2,
     (In (patchValue req) staffRoles ->
      exists l,
        getAllGrievancesForStaff (patchId req) db' w2
        = (Done (Json l), db', w2))
     /\ (~ In (patchValue req) staffRoles ->
         getAllGrievancesForStaff (patchId req) db' w2
         = (Done (Fail 403 "Forbidden"), db', w2)))
  /\ (patchId req = patchSub req ->
      patchValue req <> "administrator" ->
      forall req2 w2,
        patchSub req2 = patchSub req ->
        patchUserRole req2 db' w2 = (Done (Fail 403 "Forbidden"), db', w2)).
Proof.
  intros H.
  assert (Hrow : users db' !! patchId req = Some updated
                 /\ User.role updated = patchValue req).
  { unfold patchUserRole in H. apply tryCatch_inv in H.
    destruct H as [(r & H & Hr) | (e & _ & Hr)]; [ | discriminate Hr ].
    inversion Hr; subst r. clear Hr.
    rewrite (bind_Done _ _ _ _ _ _ _ (getUser_run _ db w)) in H.
    destruct (users db !! patchSub req) as [a | ]; [ | discriminate H ].
    destruct (negb _); [ discriminate H | ].
    apply bind_inv in H.
    destruct H as [(o & db1 & w1 & Hup & Hret) | (e & _ & He)];
      [ | discriminate He ].
    unfold ret in Hret. inversion Hret; subst. clear Hret.
    rewrite updateUserRole_run in Hup.
    destruct (negb _); [ discriminate Hup | ].
    destruct (users db !! patchId req) as [t | ]; [ | discriminate Hup ].
    inversion Hup; subst. cbn [users]. rewrite lookup_insert_eq.
    split; reflexivity. }
  destruct Hrow as [Hrow Hrole]. split.
  - intros w2. unfold getAllGrievancesForStaff, tryCatch.
    rewrite (bind_Done _ _ _ _ _ _ _ (getUser_run _ db' w2)), Hrow, Hrole.
    split.
    + intros Hin. apply includes_In in Hin. rewrite Hin. cbn [negb].
      eexists. reflexivity.
    + intros Hout. apply includes_false_not_In in Hout. now rewrite Hout.
  - intros Hself Hother req2 w2 Hsub. unfold patchUserRole, tryCatch.
    rewrite (bind_Done _ _ _ _ _ _ _ (getUser_run _ db' w2)).
    rewrite Hsub, <- Hself, Hrow, Hrole.
    apply String.eqb_neq in Hother. now rewrite Hother.
Qed.

Lemma role_change_takes_effect_witness :
  exists db' w',
    patchUserRole (mkPatch "root" "root" "staff") exampleDb exampleWorld
    = (Done (Json (Some (User.mk "root" "staff" None))), db', w')
    /\ (exists l,
          getAllGrievancesForStaff "root" db' w' = (Done (Json l), db', w'))
    /\ patchUserRole (mkPatch "root" "root" "administrator") db' w'
       = (Done (Fail 403 "Forbidden"), db', w').
Proof.
  destruct (patchUserRole (mkPatch "root" "root" "staff") exampleDb
              exampleWorld) as [[r db'] w'] eqn:E.
  assert (Hr : r = Done (Json (Some (User.mk "root" "staff" None))))
    by (vm_compute in E; inversion E; reflexivity).
  subst r. exists db', w'. split; [ reflexivity | ].
  destruct (role_change_takes_effect _ _ _ _ _ _ E) as [Hall Hself].
  split.
  - destruct (Hall w') as [Hin _]. apply Hin. simpl. tauto.
  - apply Hself; [ reflexivity | discriminate | reflexivity ].
Defined.

(* ===================================================================== *)
(** * Tracking ids, notifications and comments *)
(* ===================================================================== *)

Lemma upper_ascii_idem (c : ascii) :
  Js.upper_ascii (Js.upper_ascii c) = Js.upper_ascii c.
Proof. destruct c as [[] [] [] [] [] [] [] []]; vm_compute; reflexivity. Qed.

Lemma toUpperCase_idem (s : string) :
  Js.toUpperCase (Js.toUpperCase s) = Js.toUpperCase s.
Proof.
  induction s as [| c s IH]; cbn [Js.toUpperCase]; [ reflexivity | ].
  now rewrite upper_ascii_idem, IH.
Qed.

Lemma toUpperCase_append (s t : string) :
  Js.toUpperCase (String.append s t)
  = String.append (Js.toUpperCase s) (Js.toUpperCase t).
Proof.
  induction s as [| c s IH]; [ reflexivity | ].
  change (String (Js.upper_ascii c) (Js.toUpperCase (String.append s t))
          = String (Js.upper_ascii c)
              (String.append (Js.toUpperCase s) (Js.toUpperCase t))).
  now rewrite IH.
Qed.

Lemma toUpperCase_length (s : string) :
  String.length (Js.toUpperCase s) = String.length s.
Proof.
  induction s as [| c s IH]; cbn [Js.toUpperCase String.length];
    [ reflexivity | ].
  now rewrite IH.
Qed.

Lemma append_length (s t : string) :
  String.length (String.append s t) = (String.length s + String.length t)%nat.
Proof.
  induction s as [| c s IH]; [ reflexivity | ].
  change (S (String.length (String.append s t))
          = S (String.length s + String.length t)).
  now rewrite IH.
Qed.

(** X21.  [generateTrackingId] draws [nanoid(4)] twice and changes
    nothing else.  The id it returns begins with GRV-, contains no
    lower-case letter, and is five characters longer than the two draws
    together: thirteen characters when each draw has four, with a
    hyphen after the first draw. *)
Theorem generateTrackingId_format (db : Database) (w : World) :
  exists t,
    generateTrackingId db w = (Done t, db, drawNanoid (drawNanoid w))
    /\ (exists rest, t = String.append "GRV-" rest)
    /\ Js.toUpperCase t = t
    /\ String.length t
       = (5 + String.length (nanoidGen w (nanoidCalls w))
          + String.length (nanoidGen w (S (nanoidCalls w))))%nat
    /\ (String.length (nanoidGen w (nanoidCalls w)) = 4%nat ->
        String.get 8 t = Some "-"%char).
Proof.
  exists (nextTrackingId w). split; [ reflexivity | ].
  unfold nextTrackingId.
  set (a := nanoidGen w (nanoidCalls w)).
  set (b := nanoidGen w (S (nanoidCalls w))).
  repeat apply conj.
  - eexists. reflexivity.
  - rewrite !toUpperCase_append, !toUpperCase_idem. reflexivity.
  - rewrite !append_length, !toUpperCase_length. cbn [String.length]. lia.
  - intros Ha. rewrite <- (toUpperCase_length a) in Ha.
    destruct (Js.toUpperCase a) as [| c1 [| c2 [| c3 [| c4 [| c5 rest]]]]];
      try discriminate Ha.
    reflexivity.
Qed.

(** X22.  [markNotificationAsRead] sets the read flag of the one
    notification and changes nothing else of it or of the database;
    marking it again gives the same answer and the same database; an id
    that has no row gives no notification and changes nothing. *)
Theorem markNotificationAsRead_effect (id : string) (db : Database)
    (w : World) :
  (notifications db !! id = None ->
   DatabaseQueries.markNotificationAsRead id db w = (Done None, db, w))
  /\ (forall n,
        notifications db !! id = Some n ->
        exists n' db',
          DatabaseQueries.markNotificationAsRead id db w
          = (Done (Some n'), db', w)
          /\ Notification.isRead n' = true
          /\ Notification.id n' = Notification.id n
          /\ Notification.userId n' = Notification.userId n
          /\ Notification.grievanceId n' = Notification.grievanceId n
          /\ Notification.title n' = Notification.title n
          /\ Notification.message n' = Notification.message n
          /\ Notification.createdAt n' = Notification.createdAt n
          /\ notifications db' = <[id := n']> (notifications db)
          /\ users db' = users db
          /\ grievances db' = grievances db
          /\ comments db' = comments db
          /\ files db' = files db
          /\ DatabaseQueries.markNotificationAsRead id db' w
             = (Done (Some n'), db', w)).
Proof.
  split.
  - intros Hnone. unfold DatabaseQueries.markNotificationAsRead. mrun.
    now rewrite Hnone.
  - intros n Hn. exists (markRead n). eexists. split.
    + unfold DatabaseQueries.markNotificationAsRead. mrun. rewrite Hn.
      reflexivity.
    + repeat apply conj; try reflexivity.
      unfold DatabaseQueries.markNotificationAsRead. mrun.
      cbn [notifications]. rewrite lookup_insert_eq.
      cbn [users grievances comments files]. rewrite insert_insert_eq.
      reflexivity.
Qed.

(** X23.  Commenting asks for no role and no ownership: whoever is a
    user can comment on any grievance that exists, confidential or not,
    and GET /api/grievances/:id/comments then lists the comment, one
    more than before; a comment on a grievance that does not exist is
    answered 500 and stores nothing. *)
Theorem comment_then_list (req : CommentRequest) (db : Database)
    (w : World) :
  (is_Some (users db !! commentSub req) ->
   is_Some (grievances db !! commentGrievanceId req) ->
   comments db !! nextUuid w 0 = None ->
   exists c db' w',
     postComment req db w = (Done (Json c), db', w')
     /\ Comment.userId c = commentSub req
     /\ Comment.content c = commentContent req
     /\ forall w2,
        exists before after,
          getComments (commentGrievanceId req) db w2
          = (Done (Json before), db, w2)
          /\ getComments (commentGrievanceId req) db' w2
             = (Done (Json after), db', w2)
          /\ In c after
          /\ length after = S (length before))
  /\ (grievances db !! commentGrievanceId req = None ->
      exists w',
        postComment req db w
        = (Done (Fail 500 "Failed to create comment"), db, w')).
Proof.
  split.
  - intros Hu Hg Hfresh. unfold postComment, tryCatch.
    set (data := InsertComment.mk _ _ _ _).
    destruct (createComment_accepts data db w Hfresh Hg Hu) as (c & db' & E).
    rewrite (bind_Done _ _ _ _ _ _ _ E). unfold ret.
    exists c, db', (tick (drawUuid w)). split; [ reflexivity | ].
    apply createComment_inv in E.
    destruct E as [(_ & e & He) | (c0 & Hc0 & _ & Hgid & Huid & Hcontent & _
                                   & Hnone & Hins)];
      [ discriminate He | ].
    inversion Hc0; subst c0. clear Hc0.
    split; [ exact Huid | ]. split; [ exact Hcontent | ].
    intros w2. do 2 eexists. split; [ reflexivity | ].
    split; [ reflexivity | ].
    pose proof (rows_insert_fresh (comments db) (Comment.id c) c Hnone) as Hperm.
    rewrite <- Hins in Hperm.
    set (f := fun c0 : Comment.t =>
                String.eqb (Comment.grievanceId c0) (commentGrievanceId req)).
    assert (Hfc : f c = true)
      by (subst f; cbn beta; rewrite Hgid; apply String.eqb_refl).
    split.
    + apply orderByDesc_In. apply filter_In. split; [ | exact Hfc ].
      apply elem_of_rows. exists (Comment.id c).
      rewrite Hins. apply lookup_insert_eq.
    + rewrite !(Permutation_length (orderByDesc_Permutation _ _)).
      rewrite (filter_Permutation_length f _ _ Hperm).
      cbn [List.filter]. rewrite Hfc. reflexivity.
  - intros Hnone. unfold postComment, tryCatch.
    unfold DatabaseStorage.createComment. mrun.
    destruct (bool_decide _); [ eexists; reflexivity | ].
    cbn [DatabaseStorage.references InsertComment.grievanceId].
    rewrite Hnone.
    rewrite bool_decide_eq_false_2 by (intros [? ?]; discriminate).
    cbn [negb]. eexists. reflexivity.
Qed.

Lemma comment_then_list_witness :
  exists c db' w',
    postComment (mkCommentRequest "sam" "g-1" "Looking into it" None)
      exampleDb exampleWorld = (Done (Json c), db', w')
    /\ Comment.userId c = "sam".
Proof.
  destruct (comment_then_list
              (mkCommentRequest "sam" "g-1" "Looking into it" None)
              exampleDb exampleWorld) as [Hok _].
  destruct Hok as (c & db' & w' & E & Hu & _).
  - eexists. vm_compute. reflexivity.
  - eexists. vm_compute. reflexivity.
  - reflexivity.
  - exists c, db', w'. split; [ exact E | exact Hu ].
Defined.

(** X24.  A submission is not one transaction.  When it is answered
    with a failure, the code is 500 and the users and comments are as
    before, but the grievance may have been stored all the same: the
    grievances table is either unchanged or has gained the one grievance
    of this submission, with the tracking id that was drawn. *)
Theorem postGrievance_failure (req : SubmitRequest) (db db' : Database)
    (w w' : World) (code : Z) (message : string) :
  postGrievance req db w = (Done (Fail code message), db', w') ->
  code = 500
  /\ message = "Failed to create grievance"
  /\ users db' = users db
  /\ comments db' = comments db
  /\ (grievances db' = grievances db
      \/ exists g,
           grievances db !! Grievance.id g = None
           /\ grievances db' = <[Grievance.id g := g]> (grievances db)
           /\ Grievance.trackingId g = nextTrackingId w
           /\ Grievance.status g = "submitted").
Proof.
  rewrite postGrievance_prefix. intros H.
  apply tryCatch_inv in H. destruct H as [(r & H & Hr) | (e & H & Hr)].
  - exfalso. inversion Hr; subst r; clear Hr.
    apply bind_inv in H.
    destruct H as [(g0 & db1 & w1 & _ & H) | (e & _ & He)];
      [ | discriminate He ].
    apply bind_inv in H.
    destruct H as [(? & db2 & w2 & _ & H) | (e & _ & He)];
      [ | discriminate He ].
    apply bind_inv in H.
    destruct H as [(? & db3 & w3 & _ & H) | (e & _ & He)];
      [ | discriminate He ].
    unfold ret in H. inversion H.
  - inversion Hr; subst code message; clear Hr.
    split; [ reflexivity | ]. split; [ reflexivity | ].
    apply bind_inv in H.
    destruct H as [(g & db1 & w1 & Hc & H) | (e0 & Hc & _)].
    + assert (Hrest : besideAttachments db1 w1 db' w').
      { apply bind_inv in H.
        destruct H as [(? & db2 & w2 & Hf & H) | (e0 & Hf & _)].
        - apply uploadFiles_keeps in Hf.
          apply bind_inv in H.
          destruct H as [(? & db3 & w3 & Hn & H) | (e0 & Hn & _)].
          + unfold ret in H. inversion H.
          + apply notifySubmitted_keeps in Hn.
            eapply besideAttachments_trans; eassumption.
        - now apply uploadFiles_keeps in Hf. }
      destruct Hrest as (Hu & Hg & Hcm & _).
      pose proof (createGrievance_fresh _ _ _ _ _ _ Hc) as Hfresh.
      assert (Hmore : Grievance.trackingId g = nextTrackingId w
                      /\ comments db1 = comments db).
      { clear -Hc. unfold DatabaseStorage.createGrievance in Hc. mrun.
        repeat case_match; simplify_eq. split; reflexivity. }
      destruct Hmore as [Htid Hcm1].
      apply createGrievance_Done in Hc.
      destruct Hc as (_ & _ & _ & _ & Hstatus & _ & _ & _ & _ & Hins & Hu1 & _).
      split; [ congruence | ]. split; [ congruence | ].
      right. exists g. rewrite Hg. repeat split; assumption.
    + apply createGrievance_Raised in Hc. destruct Hc as [-> _].
      repeat split. now left.
Qed.

Lemma postGrievance_failure_witness :
  exists db' w',
    postGrievance twoFilesRequest emptyDb repeatingWorld
    = (Done (Fail 500 "Failed to create grievance"), db', w')
    /\ grievances emptyDb !! "uuid-a" = None
    /\ is_Some (grievances db' !! "uuid-a")
    /\ users db' = users emptyDb.
Proof.
  destruct (postGrievance twoFilesRequest emptyDb repeatingWorld)
    as [[r db'] w'] eqn:E.
  assert (Hr : r = Done (Fail 500 "Failed to create grievance")
               /\ is_Some (grievances db' !! "uuid-a")).
  { vm_compute in E. inversion E. split; [ reflexivity | ].
    eexists. vm_compute. reflexivity. }
  destruct Hr as [-> Hstored].
  destruct (postGrievance_failure _ _ _ _ _ _ _ E) as (_ & _ & Hu & _).
  exists db', w'. repeat split; assumption.
Defined.

(** X25.  The overdue figure of the dashboard.  Overdue grievances are
    among the pending ones, a grievance without a deadline is never
    overdue, and a later reading of the clock never shows fewer overdue
    grievances than an earlier one on the same rows. *)
Theorem dashboard_overdue (l : list Grievance.t) (now later : Z) :
  (overdue (dashboardStatsOf l now) <= pending (dashboardStatsOf l now))%nat
  /\ (forall g, Grievance.slaDeadline g = None -> overdueFilter now g = false)
  /\ (now <= later ->
      (overdue (dashboardStatsOf l now)
       <= overdue (dashboardStatsOf l later))%nat).
Proof.
  unfold dashboardStatsOf. cbn [overdue pending]. repeat apply conj.
  - apply filter_length_le, overdueFilter_pending.
  - intros g Hg. unfold overdueFilter. now rewrite Hg.
  - intros Hle. apply filter_length_le. intros g. unfold overdueFilter.
    destruct (Grievance.slaDeadline g) as [d | ]; [ | discriminate ].
    rewrite !andb_true_iff, !Z.ltb_lt. intros [Hd Hs]. split; [ lia | exact Hs ].
Qed.
